(** * MintMemo: the note repository, its tag normaliser and its search index

    A shallow embedding of [mintmemo/repo.py] and [mintmemo/db.py], and of
    the handlers of [mintmemo/web.py] and the settings of
    [mintmemo/config.py] that call them.

    - A Python [str] is a sequence of Unicode code points: [list N].
    - The SQLite database is a record of its tables.  A table with an
      INTEGER PRIMARY KEY is a finite map from rowid to row ([gmap Z]);
      [note_tags], whose primary key is the whole row, is a finite set.
      Integers are those of Python.
    - A repository function takes the state of the connection and returns the
      new state with either a value or the exception it raises.  Every
      connection comes from [connect], which turns foreign keys on.
    - The statements are given on parameters that the sqlite3 module can
      hand to SQLite: an int in the signed 64-bit range and a str without
      surrogate code points ([binds_int], [binds_text]).  A call with another
      parameter raises before its statement runs and is not described here;
      the properties that say what a call with a given id or string does
      carry these conditions.
    - The clock is an input: a function that calls [_now_iso()] takes the
      string it returns as the argument [now].
    - What belongs to the Python runtime or to SQLite's FTS5 and not to the
      repository ([str.lower] beyond ASCII, the tokeniser and the MATCH of
      FTS5, the order of [bm25]) is a variable of the section, with the facts
      used about it stated as hypotheses. *)

From Stdlib Require Import ZArith NArith String Ascii Lia.
From stdpp Require Import base gmap list sorting.

Local Open Scope Z_scope.

(** ** Python strings *)

Abbreviation pystr := (list N).

(** A literal: every byte of an ASCII literal is its own code point. *)
Definition str (s : string) : pystr :=
  (fun a => N_of_ascii a) <$> list_ascii_of_string s.

(** [str.isspace] of one character: the code points Python treats as
    whitespace in [str.strip()]. *)
Definition py_isspace (c : N) : bool :=
  ((9 <=? c) && (c <=? 13) || (28 <=? c) && (c <=? 32)
   || (c =? 133) || (c =? 160) || (c =? 5760)
   || (8192 <=? c) && (c <=? 8202)
   || (c =? 8232) || (c =? 8233) || (c =? 8239) || (c =? 8287)
   || (c =? 12288))%N.

Fixpoint lstrip (s : pystr) : pystr :=
  match s with
  | c :: s' => if py_isspace c then lstrip s' else s
  | [] => []
  end.

Definition rstrip (s : pystr) : pystr := reverse (lstrip (reverse s)).

(** [s.strip()] *)
Definition strip (s : pystr) : pystr := rstrip (lstrip s).

(** [s.replace(a, b)] for one-character [a] and [b]. *)
Definition replace (a b : N) (s : pystr) : pystr :=
  (fun c => if (c =? a)%N then b else c) <$> s.

(** [s.split(sep)] for a one-character separator: never empty, the empty
    string gives one empty piece. *)
Fixpoint split (sep : N) (s : pystr) : list pystr :=
  match s with
  | [] => [[]]
  | c :: s' =>
      if (c =? sep)%N then [] :: split sep s'
      else match split sep s' with
           | w :: ws => (c :: w) :: ws
           | [] => [[c]]
           end
  end.

(** [sep.join(pieces)] *)
Fixpoint join (sep : pystr) (pieces : list pystr) : pystr :=
  match pieces with
  | [] => []
  | [p] => p
  | p :: ps => p ++ sep ++ join sep ps
  end.

(** [x or default] on strings: the empty string is falsy. *)
Definition str_or (x default : pystr) : pystr :=
  match x with [] => default | _ => x end.

Definition COMMA : N := 44.            (* "," *)
Definition FULLWIDTH_COMMA : N := 65292.   (* U+FF0C *)
Definition SPACE : N := 32.
Definition NEWLINE : N := 10.
Definition IDEOGRAPHIC_SPACE : N := 12288. (* U+3000 *)
Definition ELLIPSIS : N := 8230.       (* U+2026 *)

(** [str.lower] restricted to ASCII: what Python computes on ASCII input. *)
Definition ascii_lower_char (c : N) : N :=
  if ((65 <=? c) && (c <=? 90))%N then (c + 32)%N else c.

Definition ascii_lower (s : pystr) : pystr := ascii_lower_char <$> s.

(** The binary collation of SQLite on TEXT: bytewise comparison of the UTF-8
    encodings, which is the lexicographic order of the code points. *)
Fixpoint str_cmp (a b : pystr) : comparison :=
  match a, b with
  | [], [] => Eq
  | [], _ :: _ => Lt
  | _ :: _, [] => Gt
  | x :: a', y :: b' =>
      match (x ?= y)%N with
      | Eq => str_cmp a' b'
      | o => o
      end
  end.

Definition str_leb (a b : pystr) : bool :=
  match str_cmp a b with Gt => false | _ => true end.

Definition str_le (a b : pystr) : Prop := str_leb a b = true.

#[global] Instance str_le_dec a b : Decision (str_le a b).
Proof. unfold str_le. apply _. Defined.

(** ** Results

    What a call gives back: a value, or the exception it raises. *)

(** The exceptions of the sqlite3 binding and of [assert]. *)
Inductive exn := IntegrityError | OperationalError | AssertionError.

Inductive result (A : Type) :=
| Ok (a : A)
| Raise (e : exn).
Arguments Ok {A} a.
Arguments Raise {A} e.

(** What a handler can raise: an exception of the storage layer, passed on as
    it is, or an [HTTPException]. *)
Inductive web_exn :=
| StorageError (e : exn)
| HTTPException (status_code : Z) (detail : pystr).

Inductive wresult (A : Type) :=
| WOk (a : A)
| WRaise (e : web_exn).
Arguments WOk {A} a.
Arguments WRaise {A} e.

(** ** Parameters of a statement

    [conn.execute(sql, params)] converts every parameter before the statement
    runs.  An [int] is stored as a signed 64-bit integer and a [str] as its
    UTF-8 encoding; a value that has none ([OverflowError] for the int,
    [UnicodeEncodeError] for a str holding a surrogate code point) never
    reaches the statement.  The statements of the repository are given below
    on parameters that convert; these two properties say which they are. *)

Definition binds_int (n : Z) : Prop := - 2 ^ 63 <= n < 2 ^ 63.

Definition is_surrogate (c : N) : bool := ((55296 <=? c) && (c <=? 57343))%N.

Definition binds_text (s : pystr) : Prop := forallb (fun c => negb (is_surrogate c)) s = true.

#[global] Instance binds_int_dec n : Decision (binds_int n).
Proof. unfold binds_int. apply _. Defined.

#[global] Instance binds_text_dec s : Decision (binds_text s).
Proof. unfold binds_text. apply _. Defined.

(** ** The runtime on ASCII text

    Concrete instances of what the repository takes from the Python runtime
    and from SQLite's FTS5, valid on ASCII text; the examples run on them. *)

Definition is_alnum (c : N) : bool :=
  ((48 <=? c) && (c <=? 57) || (65 <=? c) && (c <=? 90) || (97 <=? c) && (c <=? 122))%N.

(** The unicode61 tokeniser on ASCII text: the maximal runs of letters and
    digits, folded to lower case. *)
Fixpoint ascii_tokens_from (cur : pystr) (s : pystr) : list pystr :=
  match s with
  | [] => match cur with [] => [] | _ => [reverse cur] end
  | c :: s' =>
      if is_alnum c then ascii_tokens_from (ascii_lower_char c :: cur) s'
      else match cur with
           | [] => ascii_tokens_from [] s'
           | _ => reverse cur :: ascii_tokens_from [] s'
           end
  end.

Definition ascii_tokens (s : pystr) : list pystr := ascii_tokens_from [] s.

(** A plain word: digits and lower-case letters, at least one and at most a
    thousand.  Such a word is a bareword of the FTS5 query syntax and none
    of its keywords, and the tokeniser leaves it as it is. *)
Definition is_lower_alnum (c : N) : bool :=
  ((48 <=? c) && (c <=? 57) || (97 <=? c) && (c <=? 122))%N.

Definition is_word (w : pystr) : Prop :=
  w <> [] /\ (length w <= 1000)%nat /\ forallb is_lower_alnum w = true.

#[global] Instance is_word_dec w : Decision (is_word w).
Proof. unfold is_word. apply _. Defined.

(** The tokens the index holds for a rowid: those of the title and of the
    content of every document inserted under it. *)
Definition ascii_postings (docs : list (pystr * pystr)) : list pystr :=
  docs ≫= (fun doc => ascii_tokens doc.1 ++ ascii_tokens doc.2).

(** A MATCH expression of barewords joined by AND: every bareword occurs as a
    token of a title or of a content indexed under the rowid. *)
Definition bareword_match (expr : pystr) (docs : list (pystr * pystr)) : bool :=
  forallb (fun w => bool_decide (ascii_lower w ∈ ascii_postings docs))
          (filter (fun w => w <> str "AND" /\ w <> []) (split SPACE expr)).

Definition bareword_syntax_ok (expr : pystr) : bool :=
  forallb (forallb is_alnum) (split SPACE expr).

(** The pieces between the spaces of [" AND ".join(ws)]. *)
Fixpoint and_pieces (ws : list pystr) : list pystr :=
  match ws with
  | [] => [[]]
  | [w] => [w]
  | w :: rest => w :: str "AND" :: and_pieces rest
  end.

(** Hits in the order of the index. *)
Definition index_order (expr : pystr) (idx : gmap Z (list (pystr * pystr)))
    (hits : list Z) : list Z := hits.

Section Repo.

Set Default Proof Using "Type".

(** [str.lower] of the Python runtime.  It is not part of the repository; the
    two facts used about it are that it lowers ASCII letters and leaves other
    ASCII characters alone, and that a prefix of a lowered string is not
    changed by lowering it again. *)
Variable py_lower : pystr -> pystr.
Hypothesis py_lower_ascii :
  forall s, Forall (fun c => (c < 128)%N) s -> py_lower s = ascii_lower s.
Hypothesis py_lower_take :
  forall s n, py_lower (take n (py_lower s)) = take n (py_lower s).

(** *** repo.py: parse_tags *)

(** One round of the loop over [items]; the state is [(dedup, seen)]. *)
Definition parse_tags_step (st : list pystr * gset pystr) (t : pystr)
  : list pystr * gset pystr :=
  match t with
  | [] => st                                           (* continue *)
  | _ =>
      let t := if (32 <? length t)%nat then take 32 t else t in
      if bool_decide (t ∈ st.2) then st
      else (st.1 ++ [t], st.2 ∪ {[ t ]})
  end.

Definition parse_tags (raw : pystr) : list pystr :=
  match raw with
  | [] => []
  | _ =>
      let items :=
        (fun t => py_lower (strip t)) <$> split COMMA (replace FULLWIDTH_COMMA COMMA raw) in
      (foldl parse_tags_step ([], ∅) items).1
  end.

(** The tag normaliser as the specification words it: split on the separators,
    trim, lowercase, truncate to 32, drop the empty tokens, keep the first
    occurrence of each. *)
Fixpoint dedup_first (seen l : list pystr) : list pystr :=
  match l with
  | [] => []
  | t :: l' =>
      if bool_decide (t ∈ seen) then dedup_first seen l'
      else t :: dedup_first (t :: seen) l'
  end.

Definition normalize_tags_spec (raw : pystr) : list pystr :=
  let tokens := split COMMA (replace FULLWIDTH_COMMA COMMA raw) in
  let trimmed := strip <$> tokens in
  let lowered := py_lower <$> trimmed in
  let truncated := take 32 <$> lowered in
  let nonempty := filter (fun t => t <> []) truncated in
  dedup_first [] nonempty.


(** ** db.py: the schema *)

(** A row of [notes]; the rowid [id] is the key of the table. *)
Record note_row := NoteRow {
  title : pystr;
  content : pystr;
  pinned : Z;
  created_at : pystr;
  updated_at : pystr
}.

(** The database: [notes] and [tags] by rowid with their AUTOINCREMENT
    counters (table sqlite_sequence), the rows [(note_id, tag_id)] of
    [note_tags], and the full-text index [notes_fts]: under each rowid the
    documents [(title, content)] whose tokens the index holds for it, in the
    order they were inserted.  The index is an external-content table: it
    keeps what it is told to insert until it is told to delete it. *)
Record db := Db {
  notes : gmap Z note_row;
  notes_seq : Z;
  tags : gmap Z pystr;
  tags_seq : Z;
  note_tags : gset (Z * Z);
  notes_fts : gmap Z (list (pystr * pystr))
}.

(** The database after [init_db] on a new file. *)
Definition empty_db : db := Db ∅ 0 ∅ 0 ∅ ∅.

Definition with_notes (m : gmap Z note_row) (d : db) : db :=
  Db m (notes_seq d) (tags d) (tags_seq d) (note_tags d) (notes_fts d).
Definition with_notes_seq (n : Z) (d : db) : db :=
  Db (notes d) n (tags d) (tags_seq d) (note_tags d) (notes_fts d).
Definition with_tags (m : gmap Z pystr) (d : db) : db :=
  Db (notes d) (notes_seq d) m (tags_seq d) (note_tags d) (notes_fts d).
Definition with_tags_seq (n : Z) (d : db) : db :=
  Db (notes d) (notes_seq d) (tags d) n (note_tags d) (notes_fts d).
Definition with_note_tags (s : gset (Z * Z)) (d : db) : db :=
  Db (notes d) (notes_seq d) (tags d) (tags_seq d) s (notes_fts d).
Definition with_notes_fts (m : gmap Z (list (pystr * pystr))) (d : db) : db :=
  Db (notes d) (notes_seq d) (tags d) (tags_seq d) (note_tags d) m.

(** A computation on a connection: the state it leaves and what it returns or
    raises.  When it raises, the state is the one of the open transaction at
    that point (the failing statement itself changes nothing). *)
Definition M (A : Type) : Type := db -> db * result A.

Definition ret {A} (a : A) : M A := fun d => (d, Ok a).
Definition bind {A B} (m : M A) (k : A -> M B) : M B :=
  fun d => match m d with
           | (d', Ok a) => k a d'
           | (d', Raise e) => (d', Raise e)
           end.
Definition exec (f : db -> db) : M unit := fun d => (f d, Ok tt).

Notation "x <- m ;; k" := (bind m (fun x => k))
  (at level 100, m at next level, right associativity, only parsing).
Notation "m ;;; k" := (bind m (fun _ => k))
  (at level 100, right associativity, only parsing).

(** The largest rowid of a table, 0 when it is empty. *)
Definition max_rowid {A} (m : gmap Z A) : Z :=
  foldr Z.max 0 ((map_to_list m).*1).

(** AUTOINCREMENT: one more than the largest rowid the table has ever held. *)
Definition next_rowid {A} (seq : Z) (m : gmap Z A) : Z :=
  Z.max seq (max_rowid m) + 1.

(** *** The triggers that keep notes_fts in step with notes *)

(** [INSERT INTO notes_fts(rowid, title, content)]: the tokens of the
    document are added under [rowid]; what the index holds for the rowid
    already stays. *)
Definition fts_insert (rowid : Z) (t c : pystr) (d : db) : db :=
  with_notes_fts
    (<[rowid := default [] (notes_fts d !! rowid) ++ [(t, c)]]> (notes_fts d)) d.

(** [INSERT INTO notes_fts(notes_fts, rowid, title, content) VALUES('delete', ...)]:
    the entry of [rowid] goes when the values given are the document indexed
    under it.  (Given other values the engine leaves an index that fits no
    table; the triggers never do that, see [fts_synced].) *)
Definition fts_delete (rowid : Z) (t c : pystr) (d : db) : db :=
  if bool_decide (notes_fts d !! rowid = Some [(t, c)])
  then with_notes_fts (delete rowid (notes_fts d)) d
  else d.

Definition notes_ai (id : Z) (new : note_row) (d : db) : db :=
  fts_insert id (title new) (content new) d.

Definition notes_ad (id : Z) (old : note_row) (d : db) : db :=
  fts_delete id (title old) (content old) d.

Definition notes_au (id : Z) (old new : note_row) (d : db) : db :=
  fts_insert id (title new) (content new)
    (fts_delete id (title old) (content old) d).

(** *** The statements repo.py executes *)

(** [INSERT INTO notes(title, content, pinned, created_at, updated_at)]:
    returns [lastrowid]. *)
Definition insert_into_notes (row : note_row) : M Z := fun d =>
  let id := next_rowid (notes_seq d) (notes d) in
  (notes_ai id row (with_notes_seq id (with_notes (<[id := row]> (notes d)) d)), Ok id).

(** [UPDATE notes SET ... WHERE id = ?] *)
Definition update_notes (set : note_row -> note_row) (id : Z) : M unit := fun d =>
  match notes d !! id with
  | Some old =>
      let new := set old in
      (notes_au id old new (with_notes (<[id := new]> (notes d)) d), Ok tt)
  | None => (d, Ok tt)
  end.

(** [DELETE FROM notes WHERE id = ?], with ON DELETE CASCADE on note_tags. *)
Definition delete_from_notes (id : Z) : M unit := fun d =>
  match notes d !! id with
  | Some old =>
      let d1 := with_notes (delete id (notes d)) d in
      let d2 := with_note_tags (filter (fun p => p.1 <> id) (note_tags d1)) d1 in
      (notes_ad id old d2, Ok tt)
  | None => (d, Ok tt)
  end.

(** [SELECT id FROM tags WHERE name = ?], [fetchone()] *)
Definition select_tag_id (name : pystr) (d : db) : option Z :=
  (fun r => r.2.1) <$> list_find (fun p => p.2 = name) (map_to_list (tags d)).

(** [INSERT OR IGNORE INTO tags(name)]: the row is skipped when the name is
    taken (name is UNIQUE).  AUTOINCREMENT draws the rowid before the
    constraint is checked, so a skipped row still advances the counter: the
    rowids of tags increase but may leave gaps. *)
Definition insert_or_ignore_into_tags (name : pystr) : M unit := fun d =>
  let id := next_rowid (tags_seq d) (tags d) in
  match select_tag_id name d with
  | Some _ => (with_tags_seq id d, Ok tt)
  | None => (with_tags_seq id (with_tags (<[id := name]> (tags d)) d), Ok tt)
  end.

(** [DELETE FROM note_tags WHERE note_id = ?] *)
Definition delete_from_note_tags (note_id : Z) : M unit :=
  exec (fun d => with_note_tags (filter (fun p => p.1 <> note_id) (note_tags d)) d).

(** [INSERT OR IGNORE INTO note_tags(note_id, tag_id)]: a row that is there
    already is skipped (primary key); a new row must satisfy both foreign
    keys, which OR IGNORE does not cover, and the connection enforces
    ([connect] sets PRAGMA foreign_keys = ON). *)
Definition insert_or_ignore_into_note_tags (note_id tag_id : Z) : M unit := fun d =>
  if bool_decide ((note_id, tag_id) ∈ note_tags d) then (d, Ok tt)
  else if bool_decide (is_Some (notes d !! note_id))
          && bool_decide (is_Some (tags d !! tag_id))
       then (with_note_tags (note_tags d ∪ {[ (note_id, tag_id) ]}) d, Ok tt)
       else (d, Raise IntegrityError).


(** *** repo.py: the repository *)

Definition UNTITLED : pystr := str "Untitled".

Definition _ensure_tag (name : pystr) : M Z :=
  insert_or_ignore_into_tags name ;;;
  fun d => match select_tag_id name d with
           | Some id => (d, Ok id)
           | None => (d, Raise AssertionError)     (* assert row is not None *)
           end.

(** The loop [for name in tags] of [_set_note_tags]. *)
Fixpoint set_note_tags_loop (note_id : Z) (names : list pystr) : M unit :=
  match names with
  | [] => ret tt
  | name :: rest =>
      tag_id <- _ensure_tag name ;;
      insert_or_ignore_into_note_tags note_id tag_id ;;;
      set_note_tags_loop note_id rest
  end.

Definition _set_note_tags (note_id : Z) (tags : list pystr) : M unit :=
  delete_from_note_tags note_id ;;;
  set_note_tags_loop note_id tags.

(** [now] is the value [_now_iso()] returns during the call. *)
Definition create_note (title content : pystr) (tags : list pystr) (now : pystr) : M Z :=
  note_id <- insert_into_notes
               (NoteRow (str_or (strip title) UNTITLED) (str_or content []) 0 now now) ;;
  _set_note_tags note_id tags ;;;
  ret note_id.

Definition update_note (note_id : Z) (title content : pystr) (tags : list pystr)
    (now : pystr) : M unit :=
  update_notes
    (fun r => NoteRow (str_or (strip title) UNTITLED) (str_or content [])
                      (pinned r) (created_at r) now)
    note_id ;;;
  _set_note_tags note_id tags.

Definition delete_note (note_id : Z) : M unit := delete_from_notes note_id.

Definition toggle_pin (note_id : Z) (now : pystr) : M unit :=
  update_notes
    (fun r => NoteRow (title r) (content r) (if pinned r =? 1 then 0 else 1)
                      (created_at r) (updated_at r))
    note_id ;;;
  update_notes
    (fun r => NoteRow (title r) (content r) (pinned r) (created_at r) now)
    note_id.

(** [SELECT t.name FROM tags t JOIN note_tags nt ON nt.tag_id = t.id
     WHERE nt.note_id = ? ORDER BY t.name] *)
Definition _get_tags_for_note (d : db) (note_id : Z) : list pystr :=
  merge_sort str_le
    (omap (fun nt => if bool_decide (nt.1 = note_id) then tags d !! nt.2 else None)
          (elements (note_tags d))).

(** The dict [get_note] returns. *)
Record note_dict := NoteDict {
  d_id : Z;
  d_title : pystr;
  d_content : pystr;
  d_pinned : bool;
  d_created_at : pystr;
  d_updated_at : pystr;
  d_tags : list pystr
}.

(** [bool(row["pinned"])] *)
Definition py_bool (z : Z) : bool := negb (z =? 0).

Definition get_note (d : db) (note_id : Z) : option note_dict :=
  match notes d !! note_id with
  | None => None
  | Some row =>
      Some (NoteDict note_id (title row) (content row) (py_bool (pinned row))
              (created_at row) (updated_at row) (_get_tags_for_note d note_id))
  end.

(** The dicts [list_notes] and [search_notes] return. *)
Record summary := Summary {
  s_id : Z;
  s_title : pystr;
  s_excerpt : pystr;
  s_pinned : bool;
  s_created_at : pystr;
  s_updated_at : pystr;
  s_tags : list pystr
}.

(** [content.strip().replace(newline, space)], cut to [width] characters with an
    ellipsis when longer. *)
Definition excerpt (width : nat) (text : pystr) : pystr :=
  let e := replace NEWLINE SPACE (strip (str_or text [])) in
  if (width <? length e)%nat then take width e ++ [ELLIPSIS] else e.

(** The body of the loop [for r in rows] of both functions. *)
Definition summarize (width : nat) (d : db) (r : Z * note_row) : summary :=
  Summary r.1 (title r.2) (excerpt width (content r.2)) (py_bool (pinned r.2))
    (created_at r.2) (updated_at r.2) (_get_tags_for_note d r.1).

(** [ORDER BY pinned DESC, updated_at DESC]: [a] may come before [b]. *)
Definition list_order (a b : Z * note_row) : Prop :=
  pinned b.2 < pinned a.2
  \/ (pinned a.2 = pinned b.2 /\ str_le (updated_at b.2) (updated_at a.2)).

#[global] Instance list_order_dec a b : Decision (list_order a b).
Proof. unfold list_order. apply _. Defined.

(** [LIMIT ?]: a negative limit is no limit. *)
Definition sql_limit {A} (limit : Z) (rows : list A) : list A :=
  if limit <? 0 then rows else take (Z.to_nat limit) rows.

(** [FROM notes n JOIN note_tags nt ON nt.note_id = n.id
     JOIN tags t ON t.id = nt.tag_id WHERE t.name = ?] *)
Definition select_notes_by_tag (name : pystr) (d : db) : list (Z * note_row) :=
  omap (fun nt =>
          match tags d !! nt.2, notes d !! nt.1 with
          | Some tname, Some r =>
              if bool_decide (tname = name) then Some (nt.1, r) else None
          | _, _ => None
          end)
       (elements (note_tags d)).

(** [if tag:] on [str | None]: [None] and the empty string are falsy. *)
Definition py_truthy (tag : option pystr) : bool :=
  match tag with
  | Some (_ :: _) => true
  | _ => false
  end.

(** [tag] is [None] or a string.
    Rows that tie in the ORDER BY come in the order the sort leaves them; SQL
    does not fix it and nothing below depends on it. *)
Definition list_notes (d : db) (tag : option pystr) (limit : Z) : list summary :=
  let rows :=
    if py_truthy tag
    then sql_limit limit
           (merge_sort list_order (select_notes_by_tag (py_lower (default [] tag)) d))
    else sql_limit limit (merge_sort list_order (map_to_list (notes d))) in
  summarize 160 d <$> rows.

(** *** repo.py: search *)

(** The FTS5 engine of SQLite is not part of the repository.  Whether a MATCH
    expression parses, whether the documents [(title, content)] indexed
    under a rowid satisfy it, and the order [bm25] gives the hits are taken
    as they come; of the order only that it rearranges the hits is used. *)
Variable fts5_syntax_ok : pystr -> bool.
Variable fts5_match : pystr -> list (pystr * pystr) -> bool.
Variable bm25_order : pystr -> gmap Z (list (pystr * pystr)) -> list Z -> list Z.
Hypothesis bm25_order_perm : forall q idx l, bm25_order q idx l ≡ₚ l.

Definition AND : pystr := str " AND ".

(** The tokeniser of the index (unicode61), and the tokens the index holds
    for a rowid: those of the title and of the content of every document
    inserted under it and not deleted. *)
Variable fts5_tokens : pystr -> list pystr.

Definition postings (docs : list (pystr * pystr)) : list pystr :=
  docs ≫= (fun doc => fts5_tokens doc.1 ++ fts5_tokens doc.2).

(** What is used of the query language: plain words (up to a hundred)
    joined by AND form an expression the engine accepts, and a rowid
    satisfies it when the index holds every one of the words for it. *)
Hypothesis fts5_words :
  forall (ws : list pystr) (docs : list (pystr * pystr)),
    ws <> [] -> (length ws <= 100)%nat -> Forall is_word ws ->
    fts5_syntax_ok (join AND ws) = true
    /\ (fts5_match (join AND ws) docs = true <-> forall w, w ∈ ws -> w ∈ postings docs).

(** The MATCH expression [search_notes] builds from a stripped query. *)
Definition match_expr (q : pystr) : pystr :=
  let tokens := filter (fun t => t <> []) (split SPACE (replace IDEOGRAPHIC_SPACE SPACE q)) in
  join AND tokens.

(** [FROM notes_fts JOIN notes n ON n.id = notes_fts.rowid
     WHERE notes_fts MATCH ? ORDER BY rank] *)
Definition select_fts (expr : pystr) (d : db) : list (Z * note_row) :=
  let hits := (filter (fun e => fts5_match expr e.2 = true) (map_to_list (notes_fts d))).*1 in
  omap (fun id => (fun r => (id, r)) <$> notes d !! id)
       (bm25_order expr (notes_fts d) hits).

Definition search_notes (d : db) (query : pystr) (limit : Z) : result (list summary) :=
  let q := strip (str_or query []) in
  match q with
  | [] => Ok []
  | _ =>
      let expr := match_expr q in
      if fts5_syntax_ok expr
      then Ok (summarize 180 d <$> sql_limit limit (select_fts expr d))
      else Raise OperationalError
  end.

(** *** repo.py: list_tags *)

(** [ORDER BY cnt DESC, name ASC] on rows [(name, cnt)]. *)
Definition tags_order (a b : pystr * Z) : Prop :=
  b.2 < a.2 \/ (a.2 = b.2 /\ str_le a.1 b.1).

#[global] Instance tags_order_dec a b : Decision (tags_order a b).
Proof. unfold tags_order. apply _. Defined.

(** [COUNT(nt.note_id)] of the group of tag [tag_id] in the LEFT JOIN. *)
Definition tag_count (d : db) (tag_id : Z) : Z :=
  Z.of_nat (size (filter (fun nt => nt.2 = tag_id) (note_tags d))).

Definition list_tags (d : db) : list (pystr * Z) :=
  merge_sort tags_order
    ((fun t => (t.2, tag_count d t.1)) <$> map_to_list (tags d)).

(** *** db.py: connect *)

(** A connection: the database file and the state of the open transaction. *)
Record connection := Conn {
  file : db;
  txn : db
}.

Definition sqlite3_connect (f : db) : connection := Conn f f.
Definition commit (c : connection) : connection := Conn (txn c) (txn c).
Definition rollback (c : connection) : connection := Conn (file c) (file c).
Definition close (c : connection) : db := file c.

(** [with connect(db_path) as conn: body(conn)] on the database file [f]:
    the file afterwards, and what the block returns or raises. *)
Definition connect {A} (body : M A) (f : db) : db * result A :=
  let conn := sqlite3_connect f in
  match body (txn conn) with
  | (t, Ok a) => (close (commit (Conn (file conn) t)), Ok a)
  | (t, Raise e) => (close (rollback (Conn (file conn) t)), Raise e)
  end.

(** *** Sequences of repository operations *)

Inductive op :=
| CreateNote (title content : pystr) (tags : list pystr) (now : pystr)
| UpdateNote (note_id : Z) (title content : pystr) (tags : list pystr) (now : pystr)
| DeleteNote (note_id : Z)
| TogglePin (note_id : Z) (now : pystr).

Definition run_op (o : op) : M unit :=
  match o with
  | CreateNote t c tg now => create_note t c tg now ;;; ret tt
  | UpdateNote i t c tg now => update_note i t c tg now
  | DeleteNote i => delete_note i
  | TogglePin i now => toggle_pin i now
  end.

(** The tag list an operation passes to the repository. *)
Definition op_tags (o : op) : list pystr :=
  match o with
  | CreateNote _ _ tg _ => tg
  | UpdateNote _ _ _ tg _ => tg
  | _ => []
  end.

(** The states a connection can be in after operations that satisfy [P], from
    the database [init_db] creates.  An operation that raises leaves the state
    of its transaction, which a caller that catches the exception can go on
    from; under [connect] it is rolled back to a state reached before. *)
Inductive reachable_by (P : op -> Prop) : db -> Prop :=
| reachable_init : reachable_by P empty_db
| reachable_step d o : reachable_by P d -> P o -> reachable_by P (run_op o d).1.

Definition reachable : db -> Prop := reachable_by (fun _ => True).


(** *** Invariants of the statements *)

(** [m] keeps [I]: whatever state it leaves, also when it raises. *)
Definition preserves {A} (I : db -> Prop) (m : M A) : Prop :=
  forall d, I d -> I (m d).1.

(** [I] is kept by every statement the repository executes, tag names being
    inserted only when they satisfy [Q]. *)
Record stmt_invariant (Q : pystr -> Prop) (I : db -> Prop) : Prop := StmtInvariant {
  inv_insert_notes :
    forall t c now, preserves I (insert_into_notes (NoteRow t c 0 now now));
  inv_update_notes :
    forall set id,
      (forall r, pinned (set r) = pinned r
                 \/ pinned (set r) = (if pinned r =? 1 then 0 else 1)) ->
      preserves I (update_notes set id);
  inv_delete_notes : forall id, preserves I (delete_from_notes id);
  inv_delete_note_tags : forall id, preserves I (delete_from_note_tags id);
  inv_insert_tags :
    forall name, Q name -> preserves I (insert_or_ignore_into_tags name);
  inv_insert_note_tags :
    forall n t, preserves I (insert_or_ignore_into_note_tags n t)
}.

(** The document the index holds for a row of notes. *)
Definition fts_doc (r : note_row) : pystr * pystr := (title r, content r).

(** The index mirrors the notes table: one entry per row, by id, holding the
    row's title and content and nothing else. *)
Definition fts_synced (d : db) : Prop :=
  notes_fts d = (fun r => [fts_doc r]) <$> notes d.

Definition pinned_01 (d : db) : Prop :=
  forall id r, notes d !! id = Some r -> pinned r = 0 \/ pinned r = 1.

(** Both foreign keys of note_tags hold. *)
Definition fk_ok (d : db) : Prop :=
  forall p, p ∈ note_tags d -> is_Some (notes d !! p.1) /\ is_Some (tags d !! p.2).

(** tags.name is UNIQUE. *)
Definition tags_unique (d : db) : Prop :=
  forall i j name, tags d !! i = Some name -> tags d !! j = Some name -> i = j.

Definition tags_all (Q : pystr -> Prop) (d : db) : Prop :=
  forall id name, tags d !! id = Some name -> Q name.

(** A tag name as the normaliser leaves it. *)
Definition normalized (t : pystr) : Prop :=
  py_lower t = t /\ (length t <= 32)%nat.

(** The operation passes a tag list that [parse_tags] produced, as the
    HTTP layer does. *)
Definition tags_parsed (o : op) : Prop := exists raw, op_tags o = parse_tags raw.

(** What the rest of the database keeps while tags are attached. *)
Definition same_notes (d d' : db) : Prop :=
  notes d' = notes d /\ notes_seq d' = notes_seq d /\ notes_fts d' = notes_fts d.

(** The query is not blank and FTS5 accepts the expression built from it. *)
Definition query_ok (query : pystr) : Prop :=
  strip query <> [] /\ fts5_syntax_ok (match_expr (strip query)) = true.

(** The row satisfies the expression built from the query. *)
Definition matches (query : pystr) (r : note_row) : Prop :=
  fts5_match (match_expr (strip query)) [fts_doc r] = true.

(** The tokens of a row of notes: those of its title and of its content. *)
Definition note_tokens (r : note_row) : list pystr :=
  fts5_tokens (title r) ++ fts5_tokens (content r).

(** [w] is a unique token of the content of note [note_id]: a plain word
    among the tokens of that content and among the tokens of no other note. *)
Definition unique_token (w : pystr) (d : db) (note_id : Z) : Prop :=
  is_word w
  /\ (exists r, notes d !! note_id = Some r /\ w ∈ fts5_tokens (content r))
  /\ (forall id r, notes d !! id = Some r -> id <> note_id -> w ∉ note_tokens r).

(** The parameters of the statements an operation executes convert. *)
Definition binds_op (o : op) : Prop :=
  match o with
  | CreateNote t c tg now =>
      binds_text t /\ binds_text c /\ Forall binds_text tg /\ binds_text now
  | UpdateNote i t c tg now =>
      binds_int i /\ binds_text t /\ binds_text c /\ Forall binds_text tg /\ binds_text now
  | DeleteNote i => binds_int i
  | TogglePin i now => binds_int i /\ binds_text now
  end.

#[global] Instance binds_op_dec o : Decision (binds_op o).
Proof. destruct o; simpl; apply _. Defined.

(** Two notes, the first tagged with the empty tag name, the second with
    another tag. *)
Definition two_notes_db : db :=
  (create_note (str "second") (str "y") [str "t"] (str "2026-01-02T00:00:00+00:00")
     (create_note (str "first") (str "x") [[]] (str "2026-01-01T00:00:00+00:00")
        empty_db).1).1.

(** ** The rest of repo.py, and its callers in web.py and config.py *)

(** *** repo.py: export_all *)

(** [ORDER BY updated_at DESC] *)
Definition updated_order (a b : Z * note_row) : Prop :=
  str_le (updated_at b.2) (updated_at a.2).

#[global] Instance updated_order_dec a b : Decision (updated_order a b).
Proof. unfold updated_order. apply _. Defined.

(** The dict of one row, with its tags: what [get_note] and [export_all]
    both build. *)
Definition note_to_dict (d : db) (r : Z * note_row) : note_dict :=
  NoteDict r.1 (title r.2) (content r.2) (py_bool (pinned r.2))
    (created_at r.2) (updated_at r.2) (_get_tags_for_note d r.1).

Definition export_all (d : db) : list note_dict :=
  note_to_dict d <$> merge_sort updated_order (map_to_list (notes d)).

(** A sequence of operations on one connection, whatever each returns. *)
Definition run_ops (os : list op) (d : db) : db :=
  foldl (fun d o => (run_op o d).1) d os.

(** The note an operation is aimed at; [create_note] makes its own. *)
Definition op_note (o : op) : option Z :=
  match o with
  | CreateNote _ _ _ _ => None
  | UpdateNote i _ _ _ _ => Some i
  | DeleteNote i => Some i
  | TogglePin i _ => Some i
  end.

(** *** web.py: the handlers that write *)

(** [str(n)] of an integer: its decimal digits, with a minus sign. *)
Fixpoint uint_chars (u : Decimal.uint) : pystr :=
  match u with
  | Decimal.Nil => []
  | Decimal.D0 u => 48%N :: uint_chars u
  | Decimal.D1 u => 49%N :: uint_chars u
  | Decimal.D2 u => 50%N :: uint_chars u
  | Decimal.D3 u => 51%N :: uint_chars u
  | Decimal.D4 u => 52%N :: uint_chars u
  | Decimal.D5 u => 53%N :: uint_chars u
  | Decimal.D6 u => 54%N :: uint_chars u
  | Decimal.D7 u => 55%N :: uint_chars u
  | Decimal.D8 u => 56%N :: uint_chars u
  | Decimal.D9 u => 57%N :: uint_chars u
  end.

Definition py_str_int (n : Z) : pystr :=
  match Z.to_int n with
  | Decimal.Pos u => uint_chars u
  | Decimal.Neg u => 45%N :: uint_chars u
  end.

(** A block run on a connection that may also raise [HTTPException]. *)
Definition W (A : Type) : Type := db -> db * wresult A.

(** A repository call inside such a block. *)
Definition lift {A} (m : M A) : W A := fun d =>
  match m d with
  | (d', Ok a) => (d', WOk a)
  | (d', Raise e) => (d', WRaise (StorageError e))
  end.

(** [connect] around such a block: [except Exception] rolls back on an
    [HTTPException] as on any other exception. *)
Definition connect_w {A} (body : W A) (f : db) : db * wresult A :=
  let conn := sqlite3_connect f in
  match body (txn conn) with
  | (t, WOk a) => (close (commit (Conn (file conn) t)), WOk a)
  | (t, WRaise e) => (close (rollback (Conn (file conn) t)), WRaise e)
  end.

(** A value of a template context. *)
Inductive ctx_value :=
| VRequest
| VNote (n : note_dict)
| VBool (b : bool).

Inductive response :=
| RedirectResponse (url : pystr) (status_code : Z)
| HTMLResponse (body : pystr) (status_code : Z)
| TemplateResponse (name : pystr) (context : list (pystr * ctx_value)).

Definition NOT_FOUND : web_exn := HTTPException 404 (str "Note not found").

(** [create_note_action]: the form fields as received. *)
Definition create_note_action (title content tags now : pystr) (f : db)
  : db * wresult response :=
  let tag_list := parse_tags tags in
  match connect_w (lift (create_note title content tag_list now)) f with
  | (f', WOk nid) =>
      (f', WOk (RedirectResponse (str "/notes/" ++ py_str_int nid) 303))
  | (f', WRaise e) => (f', WRaise e)
  end.

(** What other connections commit, one operation in each. *)
Definition commits (os : list op) (f : db) : db :=
  foldl (fun f o => (connect (run_op o) f).1) f os.

(** [update_note_action]: the existence check and the update share one
    connection.  [get_note] only reads, and a read opens no transaction: the
    binding begins one before the UPDATE of [update_note].  [between] is
    what other connections commit after the check and before that UPDATE,
    which runs on the file as they leave it; from then on the write lock
    keeps them out until the commit or the rollback. *)
Definition update_note_action (between : list op) (note_id : Z)
    (title content tags now : pystr) (f : db) : db * wresult response :=
  let tag_list := parse_tags tags in
  match get_note f note_id with
  | None => (f, WRaise NOT_FOUND)
  | Some _ =>
      match connect_w (lift (update_note note_id title content tag_list now))
              (commits between f) with
      | (f', WOk _) =>
          (f', WOk (RedirectResponse (str "/notes/" ++ py_str_int note_id) 303))
      | (f', WRaise e) => (f', WRaise e)
      end
  end.

(** [_is_htmx]: the header HX-Request, absent as the empty string. *)
Definition _is_htmx (hx_request : option pystr) : bool :=
  bool_decide (py_lower (default [] hx_request) = str "true").

Definition delete_note_action (hx_request : option pystr) (note_id : Z) (f : db)
  : db * wresult response :=
  match connect_w (lift (delete_note note_id)) f with
  | (f', WOk _) =>
      if _is_htmx hx_request
      then (f', WOk (HTMLResponse [] 200))
      else (f', WOk (RedirectResponse (str "/") 303))
  | (f', WRaise e) => (f', WRaise e)
  end.

(** [pin_note_action]: the note is read back on the same connection; the
    404 is raised after the block, once it is committed. *)
Definition pin_note_action (note_id : Z) (now : pystr) (f : db)
  : db * wresult response :=
  let body : W (option note_dict) := fun conn =>
    match lift (toggle_pin note_id now) conn with
    | (conn', WOk _) => (conn', WOk (get_note conn' note_id))
    | (conn', WRaise e) => (conn', WRaise e)
    end in
  match connect_w body f with
  | (f', WOk None) => (f', WRaise NOT_FOUND)
  | (f', WOk (Some note)) =>
      (f', WOk (TemplateResponse (str "_note_card.html")
                    [(str "request", VRequest); (str "n", VNote note);
                     (str "compact", VBool true)]))
  | (f', WRaise e) => (f', WRaise e)
  end.

(** *** config.py and the authentication of web.py *)

Record Settings := MkSettings {
  db_path : pystr;
  host : pystr;
  port : Z;
  auth_user : option pystr;
  auth_pass : option pystr
}.

(** [x or None] on an optional string: the empty string becomes [None]. *)
Definition or_none (x : option pystr) : option pystr :=
  match x with
  | Some (c :: s) => Some (c :: s)
  | _ => None
  end.

(** [bool(self.auth_user and self.auth_pass)] *)
Definition auth_enabled (s : Settings) : bool :=
  match or_none (auth_user s), or_none (auth_pass s) with
  | Some _, Some _ => true
  | _, _ => false
  end.

(** What [load_settings] raises: the RuntimeError of [Path.expanduser], or
    its own ValueError with its message. *)
Inductive config_exn :=
| RuntimeError
| ValueError (msg : pystr).

(** [load_settings(environ)].  [Path(p).expanduser()] and [int(port_raw)] are
    the runtime's and are arguments: [expanduser] gives [None] where
    [Path.expanduser] raises RuntimeError (no home directory to put for the
    tilde), [py_int] gives [None] where [int] raises ValueError.
    [os_environ] is the environment of the process, read when [environ] is
    [None] or empty.  The path is expanded before the port is read. *)
Definition load_settings (py_int : pystr -> option Z)
    (expanduser : pystr -> option pystr)
    (os_environ : gmap pystr pystr) (environ : option (gmap pystr pystr))
  : Settings + config_exn :=
  let env :=
    match environ with
    | Some e => if bool_decide (e = ∅) then os_environ else e
    | None => os_environ
    end in
  match expanduser (default (str "./mintmemo.db") (env !! str "MINTMEMO_DB_PATH")) with
  | None => inr RuntimeError
  | Some db_path =>
      let host := default (str "127.0.0.1") (env !! str "MINTMEMO_HOST") in
      let port_raw := default (str "8000") (env !! str "MINTMEMO_PORT") in
      match py_int port_raw with
      | None => inr (ValueError (str "Invalid MINTMEMO_PORT: " ++ port_raw))
      | Some port =>
          inl (MkSettings db_path host port
                 (or_none (env !! str "MINTMEMO_AUTH_USER"))
                 (or_none (env !! str "MINTMEMO_AUTH_PASS")))
      end
  end.

(** [require_auth]: the credentials are the user name and password of the
    Basic header, [None] when there is none. *)
Definition require_auth (settings : Settings) (credentials : option (pystr * pystr))
  : wresult unit :=
  if negb (auth_enabled settings) then WOk tt
  else match credentials with
       | None => WRaise (HTTPException 401 (str "Authentication required"))
       | Some (username, password) =>
           if bool_decide (Some username <> auth_user settings)
              || bool_decide (Some password <> auth_pass settings)
           then WRaise (HTTPException 401 (str "Invalid credentials"))
           else WOk tt
       end.

(** *** What an operation leaves alone *)

(** Between [d0] and [d'] the row of note [j] and its associations are the
    same, and no row of tags has gone or changed. *)
Definition untouched (j : Z) (d0 d' : db) : Prop :=
  notes d' !! j = notes d0 !! j
  /\ tags d0 ⊆ tags d'
  /\ (forall t, (j, t) ∈ note_tags d' <-> (j, t) ∈ note_tags d0).

(** Every rowid of notes is positive and at most the counter. *)
Definition ids_below_seq (d : db) : Prop :=
  forall id r, notes d !! id = Some r -> 1 <= id <= notes_seq d.

(** The note carries the tag name: it is among the tags [get_note] reads. *)
Definition carries (d : db) (name : pystr) (note_id : Z) : Prop :=
  name ∈ _get_tags_for_note d note_id.

#[global] Instance carries_dec d name note_id : Decision (carries d name note_id).
Proof. unfold carries. apply _. Defined.

(** The environment [load_settings] reads: [environ or os.environ]. *)
Definition effective_env (os_environ : gmap pystr pystr)
    (environ : option (gmap pystr pystr)) : gmap pystr pystr :=
  match environ with
  | Some e => if bool_decide (e = ∅) then os_environ else e
  | None => os_environ
  end.

(** The ids of the notes a search returns, none when it raises. *)
Definition result_ids (r : result (list summary)) : list Z :=
  match r with
  | Ok l => s_id <$> l
  | Raise _ => []
  end.

(** *** Example databases *)

Definition TS1 : pystr := str "2026-01-01T10:00:00+00:00".
Definition TS2 : pystr := str "2026-01-02T10:00:00+00:00".
Definition TS3 : pystr := str "2026-01-03T10:00:00+00:00".
Definition TS4 : pystr := str "2026-01-01T09:00:00+00:00".

(** The note of the end-to-end scenario, its tags as [parse_tags] gives them. *)
Definition hello_op : op :=
  CreateNote (str "Hello") (str "# Hi" ++ [NEWLINE] ++ str "This is a test note.")
    [str "study"; str "demo"] TS1.

Definition hello_db : db := (run_op hello_op empty_db).1.

(** A note whose content is 200 letters, and one whose content is a letter
    followed by 199 spaces. *)
Definition long_db : db :=
  (create_note (str "Hello") (replicate 200 97%N) [] TS1 empty_db).1.

Definition padded_db : db :=
  (create_note (str "Hello") (97%N :: replicate 199 32%N) [] TS1 empty_db).1.

(** Three notes, the second pinned at a time before all of them were
    written. *)
Definition three_notes_db : db :=
  (toggle_pin 2 TS4
     (create_note (str "c") (str "third") [] TS3
        (create_note (str "b") (str "second") [] TS2
           (create_note (str "a") (str "first") [] TS1 empty_db).1).1).1).1.

(** * Properties *)

(** ** The order on strings *)

Lemma str_cmp_refl (a : pystr) : str_cmp a a = Eq.
Proof. induction a as [| x a IH]; simpl; [done |]. by rewrite N.compare_refl. Qed.

Lemma str_cmp_eq (a : pystr) : forall b, str_cmp a b = Eq -> a = b.
Proof.
  induction a as [| x a IH]; intros [| y b]; simpl; try done.
  destruct (N.compare_spec x y) as [-> | |]; try done.
  intros H. by rewrite (IH b H).
Qed.

Lemma str_cmp_opp (a : pystr) : forall b, str_cmp b a = CompOpp (str_cmp a b).
Proof.
  induction a as [| x a IH]; intros [| y b]; simpl; try done.
  rewrite (N.compare_antisym x y).
  destruct (x ?= y)%N; simpl; auto.
Qed.

Lemma str_cmp_lt_trans (a : pystr) :
  forall b c, str_cmp a b = Lt -> str_cmp b c = Lt -> str_cmp a c = Lt.
Proof.
  induction a as [| x a IH]; intros [| y b] [| z c]; simpl; try done.
  destruct (N.compare_spec x y) as [-> | Hxy | Hxy]; try done.
  - destruct (N.compare_spec y z) as [-> | Hyz | Hyz]; try done. apply IH.
  - destruct (N.compare_spec y z) as [-> | Hyz | Hyz]; try done.
    + intros _ _. by rewrite (proj2 (N.compare_lt_iff x z)).
    + intros _ _. rewrite (proj2 (N.compare_lt_iff x z)); [done | lia].
Qed.

#[global] Instance str_le_refl : Reflexive str_le.
Proof. intros a. unfold str_le, str_leb. by rewrite str_cmp_refl. Qed.

#[global] Instance str_le_total : Total str_le.
Proof.
  intros a b. unfold str_le, str_leb. rewrite (str_cmp_opp a b).
  destruct (str_cmp a b); simpl; auto.
Qed.

#[global] Instance str_le_trans : Transitive str_le.
Proof.
  intros a b c. unfold str_le, str_leb.
  destruct (str_cmp a b) eqn:Hab; try done; intros _.
  - by rewrite (str_cmp_eq _ _ Hab).
  - destruct (str_cmp b c) eqn:Hbc; try done; intros _.
    + by rewrite <- (str_cmp_eq _ _ Hbc), Hab.
    + by rewrite (str_cmp_lt_trans _ _ _ Hab Hbc).
Qed.

#[global] Instance str_le_antisym : AntiSymm (=) str_le.
Proof.
  intros a b. unfold str_le, str_leb. rewrite (str_cmp_opp a b).
  destruct (str_cmp a b) eqn:Hab; simpl; try done.
  intros _ _. by apply str_cmp_eq.
Qed.

#[global] Instance list_order_total : Total list_order.
Proof.
  intros a b. unfold list_order.
  destruct (Z.lt_trichotomy (pinned a.2) (pinned b.2)) as [? | [Heq | ?]]; auto.
  destruct (total str_le (updated_at a.2) (updated_at b.2)); auto.
Qed.

#[global] Instance list_order_trans : Transitive list_order.
Proof.
  intros a b c. unfold list_order.
  intros [? | [Hab ?]] [? | [Hbc ?]]; try (left; lia).
  right. split; [lia |]. by transitivity (updated_at b.2).
Qed.

#[global] Instance tags_order_total : Total tags_order.
Proof.
  intros a b. unfold tags_order.
  destruct (Z.lt_trichotomy a.2 b.2) as [? | [Heq | ?]]; auto.
  destruct (total str_le a.1 b.1); auto.
Qed.

#[global] Instance tags_order_trans : Transitive tags_order.
Proof.
  intros a b c. unfold tags_order.
  intros [? | [Hab ?]] [? | [Hbc ?]]; try (left; lia).
  right. split; [lia |]. by transitivity b.1.
Qed.

Lemma StronglySorted_lookup_lt {A} (R : relation A) (l : list A) :
  StronglySorted R l ->
  forall i j x y, (i < j)%nat -> l !! i = Some x -> l !! j = Some y -> R x y.
Proof.
  induction 1 as [| a l Hs IH Hall]; intros i j x y Hij Hi Hj.
  { by rewrite lookup_nil in Hi. }
  destruct j as [| j]; [lia |].
  destruct i as [| i]; simpl in *.
  - injection Hi as <-. rewrite Forall_forall in Hall. apply Hall.
    eapply list_elem_of_lookup_2. eassumption.
  - apply (IH i j); [lia | done | done].
Qed.

Lemma StronglySorted_take {A} (R : relation A) (l : list A) n :
  StronglySorted R l -> StronglySorted R (take n l).
Proof.
  intros H. rewrite <- (take_drop n l) in H.
  by apply StronglySorted_app_1_l in H.
Qed.

Lemma sql_limit_sorted {A} (R : relation A) (l : list A) limit :
  StronglySorted R l -> StronglySorted R (sql_limit limit l).
Proof. unfold sql_limit. destruct (limit <? 0); [done | apply StronglySorted_take]. Qed.

Lemma sql_limit_elem_of {A} (l : list A) limit x : x ∈ sql_limit limit l -> x ∈ l.
Proof.
  unfold sql_limit. destruct (limit <? 0); [done |].
  intros H. rewrite <- (take_drop (Z.to_nat limit) l). apply elem_of_app. by left.
Qed.

Lemma sql_limit_cons {A} (x : A) (l : list A) limit :
  limit <> 0 -> exists l', sql_limit limit (x :: l) = x :: l'.
Proof.
  intros Hl. unfold sql_limit. destruct (Z.ltb_spec limit 0); [by eexists |].
  destruct (Z.to_nat limit) as [| n] eqn:Hn; [lia |]. simpl. by eexists.
Qed.


(** ** Rowids and lookups by name *)

Lemma foldr_max_ge (l : list Z) k : k ∈ l -> k <= foldr Z.max 0 l.
Proof.
  induction l as [| x l IH]; intros Hk; [by apply elem_of_nil in Hk |].
  simpl. apply elem_of_cons in Hk as [-> | Hk]; [lia |].
  specialize (IH Hk). lia.
Qed.

Lemma max_rowid_ge {A} (m : gmap Z A) k x : m !! k = Some x -> k <= max_rowid m.
Proof.
  intros H. apply foldr_max_ge. apply list_elem_of_fmap.
  exists (k, x). split; [done |]. by apply elem_of_map_to_list.
Qed.

Lemma next_rowid_fresh {A} seq (m : gmap Z A) : m !! next_rowid seq m = None.
Proof.
  destruct (m !! next_rowid seq m) as [x |] eqn:H; [| done].
  apply max_rowid_ge in H. unfold next_rowid in H. lia.
Qed.

Lemma select_tag_id_Some name d id :
  select_tag_id name d = Some id -> tags d !! id = Some name.
Proof.
  unfold select_tag_id. intros H.
  apply fmap_Some in H as [[i [k v]] [Hf ->]].
  apply list_find_Some in Hf as (Hl & Hv & _). simpl in *. subst v.
  apply elem_of_map_to_list. eapply list_elem_of_lookup_2. eassumption.
Qed.

Lemma select_tag_id_None name d id :
  select_tag_id name d = None -> tags d !! id <> Some name.
Proof.
  unfold select_tag_id. intros H Hid.
  apply fmap_None in H. apply list_find_None in H.
  rewrite Forall_forall in H. apply (H (id, name)); [| done].
  by apply elem_of_map_to_list.
Qed.

Lemma select_tag_id_is_Some name d id :
  tags d !! id = Some name -> is_Some (select_tag_id name d).
Proof.
  intros H. destruct (select_tag_id name d) eqn:Hs; [by eexists |].
  by apply (select_tag_id_None _ _ id) in Hs.
Qed.

(** ** Composition of invariants *)

Lemma preserves_ret {A} I (a : A) : preserves I (ret a).
Proof. by intros d. Qed.

Lemma preserves_bind {A B} I (m : M A) (k : A -> M B) :
  preserves I m -> (forall a, preserves I (k a)) -> preserves I (bind m k).
Proof.
  intros Hm Hk d Hd. unfold bind. specialize (Hm d Hd).
  destruct (m d) as [d' [a | e]]; simpl in *; [by apply Hk | done].
Qed.

Lemma preserves_ensure_tag I name :
  preserves I (insert_or_ignore_into_tags name) -> preserves I (_ensure_tag name).
Proof.
  intros H. unfold _ensure_tag. apply preserves_bind; [done |].
  intros _ d Hd. by destruct (select_tag_id name d).
Qed.

Section Invariant.
Context (Q : pystr -> Prop) (I : db -> Prop) (HI : stmt_invariant Q I).

Lemma preserves_set_note_tags_loop note_id names :
  Forall Q names -> preserves I (set_note_tags_loop note_id names).
Proof using HI.
  induction 1 as [| name names Hq _ IH]; simpl; [apply preserves_ret |].
  apply preserves_bind.
  - apply preserves_ensure_tag. by apply (inv_insert_tags Q I HI).
  - intros tid. apply preserves_bind; [apply (inv_insert_note_tags Q I HI) | done].
Qed.

Lemma preserves_set_note_tags note_id names :
  Forall Q names -> preserves I (_set_note_tags note_id names).
Proof using HI.
  intros H. unfold _set_note_tags. apply preserves_bind.
  - apply (inv_delete_note_tags Q I HI).
  - intros _. by apply preserves_set_note_tags_loop.
Qed.

Lemma preserves_run_op o : Forall Q (op_tags o) -> preserves I (run_op o).
Proof using HI.
  destruct o as [t c tg now | i t c tg now | i | i now]; simpl; intros Htg.
  - unfold create_note. repeat apply preserves_bind.
    + apply (inv_insert_notes Q I HI).
    + intros id. apply preserves_bind; [by apply preserves_set_note_tags |].
      intros _. apply preserves_ret.
    + intros _. apply preserves_ret.
  - unfold update_note. apply preserves_bind.
    + apply (inv_update_notes Q I HI). intros r. by left.
    + intros _. by apply preserves_set_note_tags.
  - apply (inv_delete_notes Q I HI).
  - unfold toggle_pin. apply preserves_bind.
    + apply (inv_update_notes Q I HI). intros r. by right.
    + intros _. apply (inv_update_notes Q I HI). intros r. by left.
Qed.

Lemma reachable_by_invariant (P : op -> Prop) :
  I empty_db -> (forall o, P o -> Forall Q (op_tags o)) ->
  forall d, reachable_by P d -> I d.
Proof using HI.
  intros H0 HP d Hd. induction Hd as [| d o Hd IH Ho]; [done |].
  apply preserves_run_op; auto.
Qed.

End Invariant.


(** ** The invariants, statement by statement *)

Lemma fts_synced_inv : stmt_invariant (fun _ => True) fts_synced.
Proof.
  unfold fts_synced. constructor.
  - intros t c now d Hd. unfold insert_into_notes, notes_ai, fts_insert. simpl.
    by rewrite Hd, lookup_fmap, next_rowid_fresh, fmap_insert.
  - intros set id _ d Hd. unfold update_notes.
    destruct (notes d !! id) as [old |] eqn:Hold; [| done].
    unfold notes_au, fts_insert, fts_delete. simpl.
    rewrite bool_decide_eq_true_2 by (by rewrite Hd, lookup_fmap, Hold).
    simpl. by rewrite lookup_delete_eq, Hd, insert_delete_eq, fmap_insert.
  - intros id d Hd. unfold delete_from_notes.
    destruct (notes d !! id) as [old |] eqn:Hold; [| done].
    unfold notes_ad, fts_delete. simpl.
    rewrite bool_decide_eq_true_2 by (by rewrite Hd, lookup_fmap, Hold).
    simpl. by rewrite Hd, fmap_delete.
  - by intros id d Hd.
  - intros name _ d Hd. unfold insert_or_ignore_into_tags.
    by destruct (select_tag_id name d).
  - intros n t d Hd. unfold insert_or_ignore_into_note_tags.
    case_bool_decide; [done |]. by destruct (_ && _).
Qed.

Lemma pinned_01_inv : stmt_invariant (fun _ => True) pinned_01.
Proof.
  unfold pinned_01. constructor.
  - intros t c now d Hd id r. unfold insert_into_notes, notes_ai, fts_insert. simpl.
    rewrite lookup_insert. case_decide; [| by apply Hd].
    intros [= <-]. by left.
  - intros set i Hset d Hd id r. unfold update_notes.
    destruct (notes d !! i) as [old |] eqn:Hold; [| by apply Hd].
    unfold notes_au, fts_insert, fts_delete. simpl.
    assert (notes (if bool_decide (notes_fts d !! i = Some [(title old, content old)])
                   then with_notes_fts (delete i (notes_fts d))
                          (with_notes (<[i:=set old]> (notes d)) d)
                   else with_notes (<[i:=set old]> (notes d)) d)
            = <[i := set old]> (notes d)) as -> by (by case_bool_decide).
    rewrite lookup_insert. case_decide; [| by apply Hd].
    intros [= <-]. specialize (Hd _ _ Hold).
    destruct (Hset old) as [-> | ->]; [done |].
    destruct (pinned old =? 1); auto.
  - intros i d Hd id r. unfold delete_from_notes.
    destruct (notes d !! i) as [old |] eqn:Hold; [| by apply Hd].
    unfold notes_ad, fts_delete. simpl.
    case_bool_decide; simpl; rewrite lookup_delete; case_decide; try done; by apply Hd.
  - intros i d Hd. by apply Hd.
  - intros name _ d Hd. unfold insert_or_ignore_into_tags.
    destruct (select_tag_id name d); by apply Hd.
  - intros n t d Hd. unfold insert_or_ignore_into_note_tags.
    case_bool_decide; [by apply Hd |]. destruct (_ && _); by apply Hd.
Qed.


(** ** What each statement does to each table *)

Lemma fts_delete_frame i t c d :
  notes (fts_delete i t c d) = notes d
  /\ notes_seq (fts_delete i t c d) = notes_seq d
  /\ tags (fts_delete i t c d) = tags d
  /\ tags_seq (fts_delete i t c d) = tags_seq d
  /\ note_tags (fts_delete i t c d) = note_tags d.
Proof. unfold fts_delete. by case_bool_decide. Qed.

Lemma update_notes_ok set i d : (update_notes set i d).2 = Ok tt.
Proof. unfold update_notes. by destruct (notes d !! i). Qed.

Lemma update_notes_notes set i d :
  notes (update_notes set i d).1 = alter set i (notes d).
Proof.
  unfold update_notes. destruct (notes d !! i) as [old |] eqn:Hold; simpl.
  - unfold notes_au, fts_insert. simpl.
    destruct (fts_delete_frame i (title old) (content old)
                (with_notes (<[i:=set old]> (notes d)) d)) as (-> & _).
    simpl. apply map_eq. intros j. rewrite lookup_insert, lookup_alter.
    case_decide; [by rewrite Hold | done].
  - apply map_eq. intros j. rewrite lookup_alter.
    case_decide; [subst; by rewrite Hold | done].
Qed.

Lemma update_notes_frame set i d :
  tags (update_notes set i d).1 = tags d
  /\ tags_seq (update_notes set i d).1 = tags_seq d
  /\ note_tags (update_notes set i d).1 = note_tags d
  /\ notes_seq (update_notes set i d).1 = notes_seq d.
Proof.
  unfold update_notes. destruct (notes d !! i) as [old |]; simpl; [| done].
  unfold notes_au, fts_insert. simpl.
  by destruct (fts_delete_frame i (title old) (content old)
                 (with_notes (<[i:=set old]> (notes d)) d)) as (_ & -> & -> & -> & ->).
Qed.

Lemma update_notes_missing set i d :
  notes d !! i = None -> update_notes set i d = (d, Ok tt).
Proof. intros H. unfold update_notes. by rewrite H. Qed.

Lemma delete_from_notes_ok i d : (delete_from_notes i d).2 = Ok tt.
Proof. unfold delete_from_notes. by destruct (notes d !! i). Qed.

Lemma delete_from_notes_notes i d :
  notes (delete_from_notes i d).1 = delete i (notes d).
Proof.
  unfold delete_from_notes. destruct (notes d !! i) as [old |] eqn:Hold; simpl.
  - unfold notes_ad.
    by destruct (fts_delete_frame i (title old) (content old)
                   (with_note_tags (filter (fun p => p.1 <> i) (note_tags d))
                      (with_notes (delete i (notes d)) d))) as (-> & _).
  - symmetry. by apply delete_id.
Qed.

Lemma delete_from_notes_tags i d : tags (delete_from_notes i d).1 = tags d.
Proof.
  unfold delete_from_notes. destruct (notes d !! i) as [old |]; simpl; [| done].
  unfold notes_ad.
  by destruct (fts_delete_frame i (title old) (content old)
                 (with_note_tags (filter (fun p => p.1 <> i) (note_tags d))
                    (with_notes (delete i (notes d)) d))) as (_ & _ & -> & _).
Qed.

Lemma delete_from_notes_note_tags i d :
  is_Some (notes d !! i) ->
  note_tags (delete_from_notes i d).1 = filter (fun p => p.1 <> i) (note_tags d).
Proof.
  intros [old Hold]. unfold delete_from_notes. rewrite Hold. simpl.
  unfold notes_ad.
  by destruct (fts_delete_frame i (title old) (content old)
                 (with_note_tags (filter (fun p => p.1 <> i) (note_tags d))
                    (with_notes (delete i (notes d)) d))) as (_ & _ & _ & _ & ->).
Qed.

Lemma delete_from_notes_note_tags_subseteq i d :
  note_tags (delete_from_notes i d).1 ⊆ note_tags d.
Proof.
  destruct (notes d !! i) as [old |] eqn:Hold.
  - rewrite delete_from_notes_note_tags by (by eexists).
    intros p Hp. by apply elem_of_filter in Hp as [_ ?].
  - unfold delete_from_notes. by rewrite Hold.
Qed.

Lemma insert_or_ignore_into_tags_ok name d :
  (insert_or_ignore_into_tags name d).2 = Ok tt.
Proof. unfold insert_or_ignore_into_tags. by destruct (select_tag_id name d). Qed.

Lemma insert_or_ignore_into_tags_frame name d :
  same_notes d (insert_or_ignore_into_tags name d).1
  /\ note_tags (insert_or_ignore_into_tags name d).1 = note_tags d.
Proof.
  unfold insert_or_ignore_into_tags, same_notes.
  by destruct (select_tag_id name d).
Qed.

(** The tags table only grows, and afterwards holds the name. *)
Lemma insert_or_ignore_into_tags_tags name d :
  tags d ⊆ tags (insert_or_ignore_into_tags name d).1
  /\ is_Some (select_tag_id name (insert_or_ignore_into_tags name d).1).
Proof.
  unfold insert_or_ignore_into_tags.
  destruct (select_tag_id name d) as [tid |] eqn:Hsel; simpl.
  - split; [done |]. apply (select_tag_id_is_Some _ _ tid). simpl.
    by apply select_tag_id_Some.
  - split.
    + apply insert_subseteq, next_rowid_fresh.
    + apply (select_tag_id_is_Some _ _ (next_rowid (tags_seq d) (tags d))).
      simpl. apply lookup_insert_eq.
Qed.

Lemma insert_or_ignore_into_note_tags_frame n t d :
  same_notes d (insert_or_ignore_into_note_tags n t d).1
  /\ tags (insert_or_ignore_into_note_tags n t d).1 = tags d
  /\ note_tags d ⊆ note_tags (insert_or_ignore_into_note_tags n t d).1
  /\ note_tags (insert_or_ignore_into_note_tags n t d).1 ⊆ note_tags d ∪ {[ (n, t) ]}.
Proof.
  clear fts5_words fts5_tokens py_lower_ascii py_lower_take bm25_order_perm py_lower
    bm25_order.
  unfold insert_or_ignore_into_note_tags, same_notes.
  case_bool_decide; simpl; [set_solver |].
  destruct (_ && _); simpl; set_solver.
Qed.

Lemma insert_or_ignore_into_note_tags_ok n t d :
  is_Some (notes d !! n) -> is_Some (tags d !! t) ->
  (insert_or_ignore_into_note_tags n t d).2 = Ok tt
  /\ (n, t) ∈ note_tags (insert_or_ignore_into_note_tags n t d).1.
Proof.
  clear fts5_words fts5_tokens py_lower_ascii py_lower_take bm25_order_perm py_lower
    bm25_order.
  intros Hn Ht. unfold insert_or_ignore_into_note_tags.
  case_bool_decide; simpl; [done |].
  rewrite !bool_decide_eq_true_2 by done. simpl. split; [done | set_solver].
Qed.

Lemma insert_or_ignore_into_note_tags_fk n t d :
  notes d !! n = None -> (n, t) ∉ note_tags d ->
  insert_or_ignore_into_note_tags n t d = (d, Raise IntegrityError).
Proof.
  intros Hn Hnt. unfold insert_or_ignore_into_note_tags.
  rewrite bool_decide_eq_false_2 by done.
  rewrite (bool_decide_eq_false_2 (is_Some (notes d !! n))); [done |].
  rewrite Hn. by intros [? ?].
Qed.


Lemma fk_ok_inv : stmt_invariant (fun _ => True) fk_ok.
Proof.
  unfold fk_ok. constructor.
  - intros t c now d Hd p Hp. unfold insert_into_notes, notes_ai, fts_insert in *.
    simpl in *. destruct (Hd p Hp) as [[r Hr] Ht]. split; [| done].
    rewrite lookup_insert. case_decide; by eexists.
  - intros set i _ d Hd p.
    destruct (update_notes_frame set i d) as (-> & _ & -> & _).
    rewrite update_notes_notes. intros Hp. destruct (Hd p Hp) as [[r Hr] Ht].
    split; [| done]. rewrite lookup_alter. case_decide; subst; rewrite Hr; by eexists.
  - intros i d Hd p Hp. rewrite delete_from_notes_notes, delete_from_notes_tags.
    destruct (notes d !! i) as [old |] eqn:Hold.
    + rewrite delete_from_notes_note_tags in Hp by (by eexists).
      apply elem_of_filter in Hp as [Hne Hp]. destruct (Hd p Hp) as [Hn Ht].
      split; [| done]. by rewrite lookup_delete_ne.
    + unfold delete_from_notes in Hp. rewrite Hold in Hp. simpl in Hp.
      destruct (Hd p Hp) as [Hn Ht]. split; [| done].
      rewrite lookup_delete_ne; [done |]. intros Heq. rewrite <- Heq, Hold in Hn.
      by destruct Hn.
  - intros i d Hd p Hp. simpl in *. apply elem_of_filter in Hp as [_ Hp]. by apply Hd.
  - intros name _ d Hd p.
    destruct (insert_or_ignore_into_tags_frame name d) as ((-> & _ & _) & ->).
    destruct (insert_or_ignore_into_tags_tags name d) as (Hsub & _).
    intros Hp. destruct (Hd p Hp) as [Hn [x Ht]]. split; [done |].
    exists x. by eapply lookup_weaken.
  - intros n t d Hd p. unfold insert_or_ignore_into_note_tags.
    case_bool_decide; [by apply Hd |].
    destruct (bool_decide (is_Some (notes d !! n))) eqn:Hn;
      destruct (bool_decide (is_Some (tags d !! t))) eqn:Ht; simpl; try by apply Hd.
    apply bool_decide_eq_true_1 in Hn, Ht.
    intros Hp. apply elem_of_union in Hp as [Hp | Hp]; [by apply Hd |].
    apply elem_of_singleton in Hp as ->. done.
Qed.

Lemma insert_or_ignore_into_tags_new name d id x :
  tags (insert_or_ignore_into_tags name d).1 !! id = Some x ->
  tags d !! id = Some x \/ (x = name /\ forall j, tags d !! j <> Some name).
Proof.
  unfold insert_or_ignore_into_tags.
  destruct (select_tag_id name d) as [tid |] eqn:Hsel; simpl; [by left |].
  rewrite lookup_insert. case_decide; [| by left].
  intros [= <-]. right. split; [done |]. intros j. by apply select_tag_id_None.
Qed.

Lemma tags_unique_inv : stmt_invariant (fun _ => True) tags_unique.
Proof.
  unfold tags_unique. constructor.
  - intros t c now d Hd. apply Hd.
  - intros set i _ d Hd. destruct (update_notes_frame set i d) as (-> & _). apply Hd.
  - intros i d Hd. rewrite delete_from_notes_tags. apply Hd.
  - intros i d Hd. apply Hd.
  - intros name _ d Hd i j x Hi Hj.
    apply insert_or_ignore_into_tags_new in Hi as Hi'.
    apply insert_or_ignore_into_tags_new in Hj as Hj'.
    destruct Hi' as [Hi' | [-> Hno]].
    + destruct Hj' as [Hj' | [-> Hno]]; [by eapply Hd | by apply Hno in Hi'].
    + destruct Hj' as [Hj' | [_ _]]; [by apply Hno in Hj' |].
      revert Hi Hj. unfold insert_or_ignore_into_tags.
      destruct (select_tag_id name d) as [tid |] eqn:Hsel; simpl.
      * intros Hi. by apply Hno in Hi.
      * rewrite !lookup_insert.
        repeat case_decide; try congruence; intros Hi Hj;
          try (by apply Hno in Hi); by apply Hno in Hj.
  - intros n t d Hd.
    destruct (insert_or_ignore_into_note_tags_frame n t d) as (_ & -> & _). apply Hd.
Qed.

Lemma tags_all_inv (Q : pystr -> Prop) : stmt_invariant Q (tags_all Q).
Proof.
  unfold tags_all. constructor.
  - intros t c now d Hd. apply Hd.
  - intros set i _ d Hd. destruct (update_notes_frame set i d) as (-> & _). apply Hd.
  - intros i d Hd. rewrite delete_from_notes_tags. apply Hd.
  - intros i d Hd. apply Hd.
  - intros name Hq d Hd i x Hi.
    apply insert_or_ignore_into_tags_new in Hi as [Hi | [-> _]]; [by eapply Hd | done].
  - intros n t d Hd.
    destruct (insert_or_ignore_into_note_tags_frame n t d) as (_ & -> & _). apply Hd.
Qed.


(** ** Attaching tags to a note *)

Lemma same_notes_trans d1 d2 d3 : same_notes d1 d2 -> same_notes d2 d3 -> same_notes d1 d3.
Proof. unfold same_notes. intros (? & ? & ?) (? & ? & ?). repeat split; congruence. Qed.

Lemma _ensure_tag_spec name d :
  exists d1 tid,
    _ensure_tag name d = (d1, Ok tid)
    /\ same_notes d d1 /\ note_tags d1 = note_tags d
    /\ tags d ⊆ tags d1 /\ tags d1 !! tid = Some name.
Proof.
  unfold _ensure_tag, bind.
  pose proof (insert_or_ignore_into_tags_ok name d) as Hok.
  pose proof (insert_or_ignore_into_tags_frame name d) as [Hsame Hnt].
  pose proof (insert_or_ignore_into_tags_tags name d) as [Hsub [tid Hsel]].
  destruct (insert_or_ignore_into_tags name d) as [d1 r]. simpl in *. subst r.
  rewrite Hsel. exists d1, tid. repeat split; try done; try apply Hsame.
  by apply select_tag_id_Some.
Qed.

Lemma set_note_tags_loop_spec note_id names :
  forall d, is_Some (notes d !! note_id) ->
  exists d',
    set_note_tags_loop note_id names d = (d', Ok tt)
    /\ same_notes d d' /\ tags d ⊆ tags d' /\ note_tags d ⊆ note_tags d'
    /\ (forall p, p ∈ note_tags d' ->
          p ∈ note_tags d
          \/ (p.1 = note_id /\ exists name, name ∈ names /\ tags d' !! p.2 = Some name))
    /\ (forall name, name ∈ names ->
          exists t, (note_id, t) ∈ note_tags d' /\ tags d' !! t = Some name).
Proof.
  induction names as [| name names IH]; intros d Hnote; simpl.
  { exists d. unfold same_notes. repeat split; try done.
    - intros p Hp. by left.
    - intros name Hn. by apply elem_of_nil in Hn. }
  destruct (_ensure_tag_spec name d) as (d1 & tid & He & Hs1 & Hnt1 & Hsub1 & Htid).
  unfold bind at 1. rewrite He.
  assert (is_Some (notes d1 !! note_id)) as Hnote1.
  { destruct Hs1 as (-> & _). done. }
  pose proof (insert_or_ignore_into_note_tags_frame note_id tid d1)
    as (Hs2 & Ht2 & Hsub2 & Hsup2).
  destruct (insert_or_ignore_into_note_tags_ok note_id tid d1 Hnote1)
    as [Hok2 Hin2]; [by eexists |].
  unfold bind at 1.
  destruct (insert_or_ignore_into_note_tags note_id tid d1) as [d2 r2].
  simpl in *. subst r2.
  assert (is_Some (notes d2 !! note_id)) as Hnote2.
  { destruct Hs2 as (-> & _). done. }
  destruct (IH d2 Hnote2) as (d' & Hrun & Hs3 & Hsub3 & Hnts3 & Hfrom & Hto).
  exists d'. split; [done |].
  split; [eauto using same_notes_trans |].
  split; [rewrite <- Hsub3, Ht2; done |].
  split; [rewrite <- Hnts3, <- Hsub2, Hnt1; done |].
  split.
  - intros p Hp. destruct (Hfrom p Hp) as [Hp2 | (Hp1 & x & Hx & Htx)].
    + apply Hsup2 in Hp2. apply elem_of_union in Hp2 as [Hp2 | Hp2].
      * left. by rewrite <- Hnt1.
      * apply elem_of_singleton in Hp2 as ->. right. split; [done |].
        exists name. split; [by left |]. simpl.
        eapply lookup_weaken; [| exact Hsub3]. by rewrite Ht2.
    + right. split; [done |]. exists x. split; [by right | done].
  - intros x Hx. apply elem_of_cons in Hx as [-> | Hx]; [| by apply Hto].
    exists tid. split; [by apply Hnts3 |].
    eapply lookup_weaken; [| exact Hsub3]. by rewrite Ht2.
Qed.

(** [create_note] in any state: the row it inserts and the tags it attaches. *)
Lemma create_note_spec t c tg now d :
  let id := next_rowid (notes_seq d) (notes d) in
  let row := NoteRow (str_or (strip t) UNTITLED) (str_or c []) 0 now now in
  exists d',
    create_note t c tg now d = (d', Ok id)
    /\ notes d' = <[id := row]> (notes d)
    /\ notes_fts d'
       = <[id := default [] (notes_fts d !! id) ++ [fts_doc row]]> (notes_fts d)
    /\ tags d ⊆ tags d'
    /\ (forall p, p ∈ note_tags d' -> p.1 = id ->
          exists name, name ∈ tg /\ tags d' !! p.2 = Some name)
    /\ (forall p, p ∈ note_tags d' -> p.1 <> id -> p ∈ note_tags d)
    /\ (forall name, name ∈ tg ->
          exists tid, (id, tid) ∈ note_tags d' /\ tags d' !! tid = Some name).
Proof.
  intros id row. unfold create_note, bind at 1.
  unfold insert_into_notes at 1. fold id. fold row.
  set (d1 := notes_ai id row _).
  unfold _set_note_tags, bind at 1, bind at 1, delete_from_note_tags, exec.
  set (d2 := with_note_tags _ d1).
  assert (is_Some (notes d2 !! id)) as Hnote.
  { simpl. rewrite lookup_insert_eq. by eexists. }
  destruct (set_note_tags_loop_spec id tg d2 Hnote)
    as (d' & Hrun & (Hn & _ & Hf) & Hsub & Hnts & Hfrom & Hto).
  rewrite Hrun. exists d'. split; [done |].
  split; [by rewrite Hn |]. split; [by rewrite Hf |]. split; [done |].
  split; [| split; [| done]].
  - intros p Hp Hid. destruct (Hfrom p Hp) as [Hp2 | (_ & Hx)]; [| done].
    simpl in Hp2. apply elem_of_filter in Hp2 as [Hne _]. done.
  - intros p Hp Hid. destruct (Hfrom p Hp) as [Hp2 | (Hp1 & _)]; [| done].
    simpl in Hp2. by apply elem_of_filter in Hp2 as [_ ?].
Qed.


(** ** Reading the tags of a note *)

Lemma elem_of_get_tags_for_note d note_id x :
  x ∈ _get_tags_for_note d note_id
  <-> exists tid, (note_id, tid) ∈ note_tags d /\ tags d !! tid = Some x.
Proof.
  unfold _get_tags_for_note. rewrite merge_sort_Permutation, list_elem_of_omap.
  split.
  - intros ([n tid] & Hin & Hf). simpl in Hf. case_bool_decide; [| done]. subst n.
    exists tid. split; [by apply elem_of_elements | done].
  - intros (tid & Hin & Ht). exists (note_id, tid).
    split; [by apply elem_of_elements |]. simpl.
    by rewrite bool_decide_eq_true_2.
Qed.

Lemma get_tags_for_note_sorted d note_id :
  StronglySorted str_le (_get_tags_for_note d note_id).
Proof. apply StronglySorted_merge_sort; apply _. Qed.

Lemma NoDup_omap_inj {A B} (f : A -> option B) (l : list A) :
  (forall a b y, a ∈ l -> b ∈ l -> f a = Some y -> f b = Some y -> a = b) ->
  NoDup l -> NoDup (omap f l).
Proof.
  intros Hinj Hnd. induction Hnd as [| a l Hnotin Hnd IH]; simpl; [constructor |].
  assert (NoDup (omap f l)) as Hrec.
  { apply IH. intros u v y Hu Hv. apply Hinj; by right. }
  destruct (f a) as [y |] eqn:Hfa; [| done].
  constructor; [| done].
  intros Hy. apply list_elem_of_omap in Hy as (b & Hb & Hfb).
  assert (a = b) as -> by (eapply Hinj; [by left | by right | done | done]).
  done.
Qed.

Lemma get_tags_for_note_NoDup d note_id :
  tags_unique d -> NoDup (_get_tags_for_note d note_id).
Proof.
  intros Hu. unfold _get_tags_for_note. rewrite merge_sort_Permutation.
  apply NoDup_omap_inj; [| apply NoDup_elements].
  intros [n1 t1] [n2 t2] y _ _. simpl.
  repeat case_bool_decide; try done. subst.
  intros H1 H2. by rewrite (Hu _ _ _ H1 H2).
Qed.

Lemma bind_ret_state {A} (m : M A) d : (bind m (fun _ => ret tt) d).1 = (m d).1.
Proof. unfold bind, ret. by destruct (m d) as [d' [a | e]]. Qed.

Lemma str_or_nil (x : pystr) : str_or x [] = x.
Proof. by destruct x. Qed.

(** ** Create, then get *)

(** C2. For every state, title, content and tag list, [create_note] returns an
    id, and [get_note] on it gives the title trimmed (Untitled when the trimmed
    title is empty), the content as given, and exactly the tags passed, in
    alphabetical order; when the tag list has no repetition (as a normalised
    one has) and tag names are unique in the table, the tags read are a
    rearrangement of the list passed. *)
Theorem create_note_get_note (d : db) (t c : pystr) (tg : list pystr) (now : pystr) :
  exists id n,
    (create_note t c tg now d).2 = Ok id
    /\ get_note (create_note t c tg now d).1 id = Some n
    /\ d_id n = id
    /\ (strip t = [] -> d_title n = str "Untitled")
    /\ (strip t <> [] -> d_title n = strip t)
    /\ d_content n = c
    /\ d_pinned n = false
    /\ (forall x, x ∈ d_tags n <-> x ∈ tg)
    /\ StronglySorted str_le (d_tags n)
    /\ (tags_unique d -> NoDup tg -> d_tags n ≡ₚ tg).
Proof.
  destruct (create_note_spec t c tg now d)
    as (d' & Hrun & Hnotes & _ & _ & Hfrom & _ & Hto).
  set (id := next_rowid (notes_seq d) (notes d)) in *.
  assert (forall x, x ∈ _get_tags_for_note d' id <-> x ∈ tg) as Hset.
  { intros x. rewrite elem_of_get_tags_for_note. split.
    - intros (tid & Hin & Ht). destruct (Hfrom _ Hin eq_refl) as (name & Hname & Ht').
      simpl in Ht'. congruence.
    - intros Hx. by apply Hto. }
  rewrite Hrun. cbn [fst snd]. unfold get_note. rewrite Hnotes.
  eexists id, _. rewrite lookup_insert_eq. split; [done |]. split; [done |].
  cbn [d_id d_title d_content d_pinned d_tags title content pinned].
  split; [done |].
  split; [by intros -> |].
  split; [intros Hne; by destruct (strip t) |].
  split; [apply str_or_nil |].
  split; [done |].
  split; [done |].
  split; [apply get_tags_for_note_sorted |].
  intros Hu Hnd. apply NoDup_Permutation; [| done | done].
  apply get_tags_for_note_NoDup.
  pose proof (preserves_run_op _ _ tags_unique_inv (CreateNote t c tg now)) as Hp.
  specialize (Hp (Forall_true _ _ (fun _ => I)) d Hu).
  simpl in Hp. rewrite bind_ret_state, Hrun in Hp. apply Hp.
Qed.


(** ** The tag normaliser *)

Lemma truncate_32 (t : pystr) :
  (if (32 <? length t)%nat then take 32 t else t) = take 32 t.
Proof.
  destruct (Nat.ltb_spec 32 (length t)) as [Hlt | Hle]; [done |].
  by rewrite take_ge.
Qed.

Lemma parse_tags_loop (items : list pystr) :
  forall (dedup : list pystr) (seen : gset pystr) (seenl : list pystr),
    (forall t, t ∈ seen <-> t ∈ seenl) ->
    (foldl parse_tags_step (dedup, seen) items).1
    = dedup ++ dedup_first seenl (filter (fun t => t <> []) (take 32 <$> items)).
Proof.
  clear fts5_words fts5_tokens fts5_syntax_ok fts5_match.
  induction items as [| t items IH]; intros dedup seen seenl Hseen; simpl.
  { by rewrite app_nil_r. }
  destruct t as [| c t'].
  { simpl. rewrite filter_cons_False by (intros H; by apply H). by apply IH. }
  unfold parse_tags_step at 2.
  rewrite truncate_32.
  rewrite filter_cons_True by (simpl; congruence).
  cbn [fst snd dedup_first].
  destruct (decide (take 32 (c :: t') ∈ seen)) as [Hin | Hnin].
  - rewrite bool_decide_eq_true_2 by done.
    rewrite bool_decide_eq_true_2 by (by apply Hseen).
    by apply IH.
  - rewrite bool_decide_eq_false_2 by done.
    rewrite bool_decide_eq_false_2 by (by rewrite <- Hseen).
    rewrite (IH _ _ (take 32 (c :: t') :: seenl)).
    + by rewrite <- app_assoc.
    + intros u. rewrite elem_of_union, elem_of_singleton, elem_of_cons, Hseen. tauto.
Qed.

Lemma dedup_first_spec (l : list pystr) :
  forall seen,
    NoDup (dedup_first seen l)
    /\ forall t, t ∈ dedup_first seen l -> t ∈ l /\ t ∉ seen.
Proof.
  induction l as [| x l IH]; intros seen; simpl.
  { split; [constructor | intros t Ht; by apply elem_of_nil in Ht]. }
  case_bool_decide as Hx.
  - destruct (IH seen) as [Hnd Hin]. split; [done |].
    intros t Ht. destruct (Hin t Ht). split; [by right | done].
  - destruct (IH (x :: seen)) as [Hnd Hin]. split.
    + constructor; [| done]. intros Hx'. destruct (Hin x Hx') as [_ Hn].
      apply Hn. by left.
    + intros t Ht. apply elem_of_cons in Ht as [-> | Ht]; [split; [by left | done] |].
      destruct (Hin t Ht) as [? Hn]. split; [by right |].
      intros ?. apply Hn. by right.
Qed.

Lemma parse_tags_refines (raw : pystr) : parse_tags raw = normalize_tags_spec raw.
Proof using py_lower_ascii.
  clear fts5_words fts5_tokens py_lower_take bm25_order_perm fts5_syntax_ok fts5_match
    bm25_order.
  unfold parse_tags, normalize_tags_spec.
  destruct raw as [| c raw].
  { cbn. rewrite (py_lower_ascii []) by constructor. by vm_compute. }
  rewrite (parse_tags_loop _ [] ∅ []) by set_solver.
  simpl app. f_equal. f_equal.
  by rewrite <- !list_fmap_compose.
Qed.

Lemma parse_tags_normalized (raw : pystr) :
  Forall (fun t => t <> [] /\ normalized t) (parse_tags raw).
Proof using py_lower_ascii py_lower_take.
  rewrite parse_tags_refines. unfold normalize_tags_spec.
  apply Forall_forall. intros t Ht.
  apply dedup_first_spec in Ht as [Ht _].
  apply list_elem_of_filter in Ht as [Hne Ht]. split; [done |].
  apply list_elem_of_fmap in Ht as (u & -> & Hu).
  apply list_elem_of_fmap in Hu as (v & -> & _).
  split; [apply py_lower_take |]. rewrite length_take. lia.
Qed.

(** C4. For every input string, [parse_tags] returns a list (it is a total
    function) that is the one the normaliser of the specification gives:
    split on both commas, trim, lowercase, truncate to 32 characters, drop
    the empty tokens, keep first occurrences in order.  The list has no
    duplicates, its entries are non-empty, lowercase and at most 32
    characters long, and the example of the specification comes out as
    stated. *)
Theorem parse_tags_correct (raw : pystr) :
  parse_tags raw = normalize_tags_spec raw
  /\ NoDup (parse_tags raw)
  /\ Forall (fun t => t <> [] /\ py_lower t = t /\ (length t <= 32)%nat) (parse_tags raw)
  /\ parse_tags [] = []
  /\ parse_tags (str "Study, Demo, study") = [str "study"; str "demo"].
Proof using py_lower_ascii py_lower_take.
  split; [apply parse_tags_refines |].
  split; [rewrite parse_tags_refines; apply dedup_first_spec |].
  split; [apply parse_tags_normalized |].
  split; [done |].
  unfold parse_tags.
  change (str "Study, Demo, study") with (83 :: str "tudy, Demo, study")%N.
  cbv beta iota zeta.
  replace (split COMMA (replace FULLWIDTH_COMMA COMMA (83%N :: str "tudy, Demo, study")))
    with [str "Study"; str " Demo"; str " study"] by (by vm_compute).
  cbn [fmap list_fmap].
  rewrite !py_lower_ascii by (vm_compute; repeat constructor).
  by vm_compute.
Qed.

(** ** Tag rows *)

(** C5, as the code has it.  The repository stores the tag names it is given;
    it is [parse_tags], called by the HTTP layer, that normalises them.  In
    every state reached by operations whose tag lists come from [parse_tags],
    every tag name is lowercase and at most 32 characters long; whatever the
    tag lists passed, two rows of tags never share a name. *)
Theorem tag_names_invariant :
  (forall d, reachable_by tags_parsed d ->
     forall id name, tags d !! id = Some name ->
       py_lower name = name /\ (length name <= 32)%nat)
  /\ (forall d, reachable d ->
       forall i j name, tags d !! i = Some name -> tags d !! j = Some name -> i = j).
Proof using py_lower_ascii py_lower_take.
  split.
  - intros d Hd.
    apply (reachable_by_invariant normalized (tags_all normalized)
             (tags_all_inv normalized) tags_parsed); [| | done].
    + intros id name H. cbn in H. by rewrite lookup_empty in H.
    + intros o [raw ->]. eapply Forall_impl; [apply parse_tags_normalized |].
      by intros t [_ ?].
  - intros d Hd.
    apply (reachable_by_invariant (fun _ => True) tags_unique tags_unique_inv
             (fun _ => True)); [| | done].
    + intros i j name H. cbn in H. by rewrite lookup_empty in H.
    + intros o _. by apply Forall_true.
Qed.


(** ** Updating a note that does not exist *)

Lemma with_note_tags_id d : with_note_tags (note_tags d) d = d.
Proof. by destruct d. Qed.

Lemma fk_ok_no_rows d note_id :
  fk_ok d -> notes d !! note_id = None ->
  filter (fun p => p.1 <> note_id) (note_tags d) = note_tags d.
Proof.
  intros Hfk Hnone. apply set_eq. intros p. rewrite elem_of_filter.
  split; [by intros [_ ?] |]. intros Hp. split; [| done].
  intros Heq. destruct (Hfk p Hp) as [[r Hr] _]. congruence.
Qed.

(** With a tag to attach, the foreign key of note_tags stops the call, after
    the tag row has been inserted. *)
Lemma update_note_missing_raises note_id t c name rest now d :
  notes d !! note_id = None ->
  exists d',
    update_note note_id t c (name :: rest) now d = (d', Raise IntegrityError)
    /\ same_notes d d' /\ tags d ⊆ tags d'
    /\ (exists tid, tags d' !! tid = Some name).
Proof.
  intros Hnone. unfold update_note, bind at 1.
  rewrite update_notes_missing by done.
  unfold _set_note_tags, bind at 1, delete_from_note_tags, exec.
  set (d0 := with_note_tags _ d). simpl set_note_tags_loop.
  destruct (_ensure_tag_spec name d0) as (d1 & tid & He & Hs1 & Hnt1 & Hsub1 & Htid).
  unfold bind at 1. rewrite He. unfold bind at 1.
  rewrite insert_or_ignore_into_note_tags_fk.
  - exists d1. split; [done |]. split; [done |]. split; [done |]. by exists tid.
  - destruct Hs1 as (-> & _). done.
  - rewrite Hnt1. subst d0. simpl. rewrite elem_of_filter. by intros [? _].
Qed.

Lemma connect_raise {A} (body : M A) f t e :
  body f = (t, Raise e) -> connect body f = (f, Raise e).
Proof. intros H. unfold connect. simpl. by rewrite H. Qed.

Lemma connect_ok {A} (body : M A) f t a :
  body f = (t, Ok a) -> connect body f = (t, Ok a).
Proof. intros H. unfold connect. simpl. by rewrite H. Qed.

(** C3, as the code has it.  The parameters being such as the statements
    take (the id a signed 64-bit integer, no surrogate in the strings): on a
    state whose foreign keys hold and an id that is not in notes,
    [update_note] with an empty tag list returns without error and changes
    nothing.  With a non-empty tag list it raises IntegrityError, the
    foreign key of note_tags refusing the first association; run under
    [connect], the error reaches the caller and the database file is as
    before. *)
Theorem update_note_missing_id (d : db) (note_id : Z) (t c : pystr)
    (tg : list pystr) (now : pystr) :
  binds_op (UpdateNote note_id t c tg now) ->
  notes d !! note_id = None -> fk_ok d ->
  update_note note_id t c [] now d = (d, Ok tt)
  /\ (tg <> [] ->
      (update_note note_id t c tg now d).2 = Raise IntegrityError
      /\ connect (update_note note_id t c tg now) d = (d, Raise IntegrityError)).
Proof.
  intros _ Hnone Hfk. split.
  - unfold update_note, bind. rewrite update_notes_missing by done.
    unfold _set_note_tags, bind, delete_from_note_tags, exec. simpl.
    unfold ret. by rewrite fk_ok_no_rows, with_note_tags_id.
  - intros Htg. destruct tg as [| name rest]; [done |].
    destruct (update_note_missing_raises note_id t c name rest now d Hnone)
      as (d' & Hrun & _).
    split; [by rewrite Hrun |]. by apply (connect_raise _ _ d').
Qed.

(** ** Transactions *)

(** C6. Under [connect], a block that raises leaves the database file as it
    was and the caller gets the exception; a block that returns is committed.
    This holds for every repository operation.  In particular [update_note]
    on a missing id with a new tag name inserts the tag row in its
    transaction, then fails on the foreign key, and the row is gone from the
    file afterwards. *)
Theorem connect_rolls_back :
  (forall A (body : M A) f t e,
     body f = (t, Raise e) -> connect body f = (f, Raise e))
  /\ (forall A (body : M A) f t a,
       body f = (t, Ok a) -> connect body f = (t, Ok a))
  /\ (forall o f,
       (exists e, connect (run_op o) f = (f, Raise e) /\ (run_op o f).2 = Raise e)
       \/ connect (run_op o) f = ((run_op o f).1, Ok tt))
  /\ (forall f note_id t c name rest now,
       notes f !! note_id = None -> (forall i, tags f !! i <> Some name) ->
       exists txn',
         update_note note_id t c (name :: rest) now f = (txn', Raise IntegrityError)
         /\ (exists tid, tags txn' !! tid = Some name /\ tags f !! tid = None)
         /\ connect (update_note note_id t c (name :: rest) now) f
            = (f, Raise IntegrityError)).
Proof.
  split; [intros A body f t e; apply connect_raise |].
  split; [intros A body f t a; apply connect_ok |].
  split.
  - intros o f. destruct (run_op o f) as [t [[] | e]] eqn:Hrun.
    + right. by apply connect_ok.
    + left. exists e. split; [by apply (connect_raise _ _ t) | done].
  - intros f note_id t c name rest now Hnone Hnew.
    destruct (update_note_missing_raises note_id t c name rest now f Hnone)
      as (d' & Hrun & _ & Hsub & tid & Htag).
    exists d'. split; [done |]. split; [| by apply (connect_raise _ _ d')].
    exists tid. split; [done |].
    destruct (tags f !! tid) as [x |] eqn:Hx; [| done].
    pose proof (lookup_weaken _ _ _ _ Hx Hsub) as Hx'.
    rewrite Htag in Hx'. injection Hx' as <-. by destruct (Hnew tid).
Qed.


(** ** The search index *)

Lemma NoDup_fst_filter {A B} (P : A * B -> Prop) `{forall x, Decision (P x)}
    (l : list (A * B)) :
  NoDup (l.*1) -> NoDup ((filter P l).*1).
Proof.
  induction l as [| x l IH]; simpl; [done |].
  intros Hnd. apply NoDup_cons in Hnd as [Hx Hnd].
  destruct (decide (P x)).
  - rewrite filter_cons_True by done. simpl. apply NoDup_cons. split; [| by apply IH].
    intros Hin. apply Hx. apply list_elem_of_fmap in Hin as (y & -> & Hy).
    apply list_elem_of_filter in Hy as [_ Hy]. apply list_elem_of_fmap. by exists y.
  - rewrite filter_cons_False by done. by apply IH.
Qed.

(** The rowids FTS5 finds, on an index that mirrors notes. *)
Lemma fts_hits_spec expr d :
  fts_synced d ->
  let hits := (filter (fun e => fts5_match expr e.2 = true)
                 (map_to_list (notes_fts d))).*1 in
  NoDup hits
  /\ forall id, id ∈ hits
       <-> exists r, notes d !! id = Some r /\ fts5_match expr [fts_doc r] = true.
Proof.
  intros Hsync hits. split.
  - apply NoDup_fst_filter, NoDup_fst_map_to_list.
  - intros id. subst hits. rewrite list_elem_of_fmap. split.
    + intros ([i doc] & -> & Hin). apply list_elem_of_filter in Hin as [Hm Hin].
      apply elem_of_map_to_list in Hin. rewrite Hsync, lookup_fmap in Hin.
      simpl in *. destruct (notes d !! i) as [r |]; [| done].
      injection Hin as <-. by exists r.
    + intros (r & Hr & Hm). exists (id, [fts_doc r]). split; [done |].
      apply list_elem_of_filter. split; [done |].
      apply elem_of_map_to_list. by rewrite Hsync, lookup_fmap, Hr.
Qed.

Lemma select_fts_unique expr d id r :
  fts_synced d -> notes d !! id = Some r -> fts5_match expr [fts_doc r] = true ->
  (forall i x, notes d !! i = Some x -> i <> id -> fts5_match expr [fts_doc x] <> true) ->
  select_fts expr d = [(id, r)].
Proof using bm25_order_perm.
  intros Hsync Hr Hm Hothers. unfold select_fts.
  destruct (fts_hits_spec expr d Hsync) as [Hnd Hin].
  set (hits := (filter _ (map_to_list (notes_fts d))).*1) in *.
  assert (bm25_order expr (notes_fts d) hits = [id]) as ->.
  { apply Permutation_singleton_r. rewrite bm25_order_perm.
    apply NoDup_Permutation; [done | apply NoDup_singleton |].
    intros i. rewrite Hin, list_elem_of_singleton. split.
    - intros (x & Hx & Hmx). destruct (decide (i = id)); [done |].
      by destruct (Hothers i x Hx).
    - intros ->. by exists r. }
  simpl. by rewrite Hr.
Qed.

Lemma select_fts_none expr d :
  fts_synced d ->
  (forall i x, notes d !! i = Some x -> fts5_match expr [fts_doc x] <> true) ->
  select_fts expr d = [].
Proof using bm25_order_perm.
  intros Hsync Hnone. unfold select_fts.
  destruct (fts_hits_spec expr d Hsync) as [Hnd Hin].
  set (hits := (filter _ (map_to_list (notes_fts d))).*1) in *.
  assert (bm25_order expr (notes_fts d) hits = []) as ->; [| done].
  apply Permutation_nil_r. rewrite bm25_order_perm.
  rewrite (elem_of_nil_inv hits); [done |].
  intros i Hi. apply Hin in Hi as (x & Hx & Hm). by destruct (Hnone i x Hx).
Qed.

Lemma sql_limit_singleton {A} (x : A) limit : limit <> 0 -> sql_limit limit [x] = [x].
Proof.
  intros Hl. unfold sql_limit. destruct (Z.ltb_spec limit 0); [done |].
  destruct (Z.to_nat limit) eqn:Hn; [lia |]. simpl. by rewrite take_nil.
Qed.

Lemma sql_limit_nil {A} limit : sql_limit limit (@nil A) = [].
Proof. unfold sql_limit. destruct (limit <? 0); [done | by rewrite take_nil]. Qed.

Lemma select_fts_spec expr d :
  fts_synced d ->
  NoDup (select_fts expr d).*1
  /\ forall x, x ∈ select_fts expr d <->
               notes d !! x.1 = Some x.2 /\ fts5_match expr [fts_doc x.2] = true.
Proof using bm25_order_perm.
  intros Hsync. unfold select_fts.
  destruct (fts_hits_spec expr d Hsync) as [Hnd Hin].
  set (hits := (filter _ (map_to_list (notes_fts d))).*1) in *.
  assert (forall (f : Z -> option (Z * note_row)) l,
            (omap f l).*1 = omap (fun p => fst <$> f p) l) as Hfst.
  { intros f l. induction l as [| p l IH]; simpl; [done |].
    destruct (f p); simpl; [f_equal |]; exact IH. }
  split.
  - match goal with |- NoDup (omap ?f ?l).*1 => rewrite (Hfst f l) end.
    apply NoDup_omap_inj; [| by rewrite bm25_order_perm].
    intros a b y _ _. destruct (notes d !! a); [| done].
    destruct (notes d !! b); [| done]. simpl. congruence.
  - intros [id r]. rewrite list_elem_of_omap. simpl. split.
    + intros (i & Hi & Hr). apply fmap_Some in Hr as (r' & Hr' & [= -> ->]).
      split; [done |]. rewrite bm25_order_perm in Hi.
      apply Hin in Hi as (x & Hx & Hm). congruence.
    + intros (Hr & Hm). exists id. split; [| by rewrite Hr].
      rewrite bm25_order_perm. apply Hin. by exists r.
Qed.

(** ** Plain words and the expression built from them *)

Ltac cmp_cases :=
  repeat match goal with
         | |- context [(?a <=? ?b)%N] => destruct (N.leb_spec a b); try lia
         | |- context [(?a =? ?b)%N] => destruct (N.eqb_spec a b); try lia
         end.

Lemma lower_alnum_char c :
  is_lower_alnum c = true ->
  py_isspace c = false /\ c <> SPACE /\ c <> IDEOGRAPHIC_SPACE
  /\ is_alnum c = true /\ ascii_lower_char c = c.
Proof.
  unfold is_lower_alnum, py_isspace, SPACE, IDEOGRAPHIC_SPACE, is_alnum, ascii_lower_char.
  intros H.
  assert ((48 <= c <= 57) \/ (97 <= c <= 122))%N as Hc.
  { apply orb_true_iff in H as [H | H]; apply andb_true_iff in H as [H1 H2];
      apply N.leb_le in H1, H2; lia. }
  clear H. repeat split; try lia; cmp_cases; done.
Qed.

Lemma is_word_Forall w : is_word w -> Forall (fun c => is_lower_alnum c = true) w.
Proof.
  intros (_ & _ & H). induction w as [| c w IH]; [constructor |].
  simpl in H. apply andb_true_iff in H as [Hc Hw]. constructor; auto.
Qed.

Lemma is_word_snoc w : is_word w -> exists body c, w = body ++ [c] /\ is_lower_alnum c = true.
Proof.
  intros Hw. pose proof (is_word_Forall w Hw) as Hall. destruct Hw as [Hne _].
  destruct (last w) as [c |] eqn:Hlast.
  - exists (removelast w), c. split.
    + clear Hall. revert c Hlast. induction w as [| x w IH]; intros c Hl; [done |].
      destruct w as [| y w]; [by injection Hl as -> |].
      change (x :: y :: w = x :: (removelast (y :: w) ++ [c])). f_equal.
      apply IH; [done | exact Hl].
    + rewrite Forall_forall in Hall. by apply Hall, last_Some_elem_of.
  - by apply last_None in Hlast.
Qed.

Lemma split_no_sep sep w : sep ∉ w -> split sep w = [w].
Proof.
  induction w as [| c w IH]; intros H; simpl; [done |].
  apply not_elem_of_cons in H as [Hc Hw].
  rewrite (proj2 (N.eqb_neq c sep)) by done. by rewrite IH.
Qed.

Lemma split_app_sep sep w rest :
  sep ∉ w -> split sep (w ++ sep :: rest) = w :: split sep rest.
Proof.
  induction w as [| c w IH]; intros H; simpl.
  - by rewrite N.eqb_refl.
  - apply not_elem_of_cons in H as [Hc Hw].
    rewrite (proj2 (N.eqb_neq c sep)) by done. by rewrite IH.
Qed.

Lemma replace_absent a b s : a ∉ s -> replace a b s = s.
Proof.
  unfold replace. induction s as [| c s IH]; intros H; simpl; [done |].
  apply not_elem_of_cons in H as [Hc Hs].
  rewrite (proj2 (N.eqb_neq c a)) by done. f_equal. by apply IH.
Qed.

Lemma is_word_no_space w : is_word w -> SPACE ∉ w.
Proof.
  intros Hw Hin. pose proof (is_word_Forall w Hw) as Hall.
  rewrite Forall_forall in Hall. apply Hall, lower_alnum_char in Hin.
  by destruct Hin as (_ & ? & _).
Qed.

(** The query made of the words [ws], one space between them. *)
Lemma join_space_shape ws :
  ws <> [] -> Forall is_word ws ->
  (exists c rest, join [SPACE] ws = c :: rest /\ is_lower_alnum c = true)
  /\ (exists body c, join [SPACE] ws = body ++ [c] /\ is_lower_alnum c = true)
  /\ (IDEOGRAPHIC_SPACE ∉ join [SPACE] ws)
  /\ split SPACE (join [SPACE] ws) = ws.
Proof.
  induction ws as [| w ws IH]; [done |]. intros _ Hall.
  apply Forall_cons in Hall as [Hw Hws].
  pose proof (is_word_Forall w Hw) as Hchars.
  assert (IDEOGRAPHIC_SPACE ∉ w) as Hideo.
  { intros Hin. rewrite Forall_forall in Hchars. apply Hchars, lower_alnum_char in Hin.
    by destruct Hin as (_ & _ & ? & _). }
  destruct ws as [| w2 rest].
  - simpl. split; [| split; [by apply is_word_snoc | split; [done |]]].
    + destruct w as [| c w']; [by destruct Hw |]. exists c, w'. split; [done |].
      by apply Forall_cons in Hchars as [? _].
    + by apply split_no_sep, is_word_no_space.
  - destruct (IH ltac:(done) Hws) as (_ & (body & c & HJ & Hc) & HI & Hsplit).
    change (join [SPACE] (w :: w2 :: rest))
      with (w ++ SPACE :: join [SPACE] (w2 :: rest)).
    split; [| split; [| split]].
    + destruct w as [| c0 w']; [by destruct Hw |]. exists c0. eexists. split; [done |].
      by apply Forall_cons in Hchars as [? _].
    + exists (w ++ SPACE :: body), c. split; [| done].
      rewrite HJ. by rewrite <- app_assoc.
    + intros Hin. apply elem_of_app in Hin as [Hin | Hin]; [done |].
      apply elem_of_cons in Hin as [Hin | Hin]; [done | by apply HI].
    + rewrite split_app_sep by (by apply is_word_no_space). by rewrite Hsplit.
Qed.

Lemma strip_words ws :
  ws <> [] -> Forall is_word ws -> strip (join [SPACE] ws) = join [SPACE] ws.
Proof.
  intros Hne Hall.
  destruct (join_space_shape ws Hne Hall) as ((c & rest & Hhead & Hc) & (body & c' & Hlast & Hc') & _).
  unfold strip, rstrip.
  assert (lstrip (join [SPACE] ws) = join [SPACE] ws) as ->.
  { rewrite Hhead. simpl. by destruct (lower_alnum_char c Hc) as [-> _]. }
  rewrite Hlast, reverse_app. simpl.
  destruct (lower_alnum_char c' Hc') as [-> _].
  change (c' :: reverse body) with (reverse [c'] ++ reverse body).
  by rewrite <- reverse_app, reverse_involutive.
Qed.

Lemma match_expr_words ws :
  ws <> [] -> Forall is_word ws -> match_expr (join [SPACE] ws) = join AND ws.
Proof.
  intros Hne Hall.
  destruct (join_space_shape ws Hne Hall) as (_ & _ & Hideo & Hsplit).
  unfold match_expr. rewrite replace_absent by done. rewrite Hsplit. f_equal.
  clear Hne Hideo Hsplit. induction Hall as [| w ws Hw Hws IH]; [done |].
  rewrite filter_cons_True by (by destruct Hw). by rewrite IH.
Qed.

Lemma postings_doc r : postings [fts_doc r] = note_tokens r.
Proof. unfold postings, note_tokens, fts_doc. simpl. by rewrite app_nil_r. Qed.

(** A query of plain words runs the expression that joins them by AND, and
    a row satisfies it when it holds every word. *)
Lemma search_words d ws limit :
  ws <> [] -> (length ws <= 100)%nat -> Forall is_word ws ->
  search_notes d (join [SPACE] ws) limit
  = Ok (summarize 180 d <$> sql_limit limit (select_fts (join AND ws) d))
  /\ forall r, fts5_match (join AND ws) [fts_doc r] = true
               <-> forall w, w ∈ ws -> w ∈ note_tokens r.
Proof using fts5_words.
  intros Hne Hlen Hall. split.
  - unfold search_notes. rewrite str_or_nil, (strip_words ws Hne Hall).
    destruct (join_space_shape ws Hne Hall) as ((c & rest & Hhead & _) & _).
    rewrite Hhead, <- Hhead, (match_expr_words ws Hne Hall).
    by destruct (fts5_words ws [] Hne Hlen Hall) as [-> _].
  - intros r. destruct (fts5_words ws [fts_doc r] Hne Hlen Hall) as [_ ->].
    by rewrite postings_doc.
Qed.

Lemma word_query w :
  is_word w ->
  [w] <> [] /\ (length [w] <= 100)%nat /\ Forall is_word [w] /\ join [SPACE] [w] = w.
Proof.
  intros Hw. split; [done |]. split; [simpl; lia |]. split; [by constructor | done].
Qed.

Lemma search_notes_unique d w limit id :
  fts_synced d -> limit <> 0 -> unique_token w d id ->
  exists r, notes d !! id = Some r
            /\ search_notes d w limit = Ok [summarize 180 d (id, r)].
Proof using bm25_order_perm fts5_words.
  intros Hsync Hl (Hw & (r & Hr & Hin) & Hothers).
  destruct (word_query w Hw) as (Hne & Hlen & Hall & Hq).
  destruct (search_words d [w] limit Hne Hlen Hall) as [Hsearch Hmatch].
  rewrite Hq in Hsearch.
  exists r. split; [done |]. rewrite Hsearch.
  rewrite (select_fts_unique _ d id r); try done.
  - by rewrite sql_limit_singleton.
  - apply Hmatch. intros x Hx. apply list_elem_of_singleton in Hx as ->.
    unfold note_tokens. apply elem_of_app. by right.
  - intros i x Hx Hne' Hm. apply (Hothers i x Hx Hne'). apply Hmatch; [done |].
    by apply list_elem_of_singleton.
Qed.

Lemma search_notes_none d w limit :
  fts_synced d -> is_word w ->
  (forall id r, notes d !! id = Some r -> w ∉ note_tokens r) ->
  search_notes d w limit = Ok [].
Proof using bm25_order_perm fts5_words.
  intros Hsync Hw Hnone.
  destruct (word_query w Hw) as (Hne & Hlen & Hall & Hq).
  destruct (search_words d [w] limit Hne Hlen Hall) as [Hsearch Hmatch].
  rewrite Hq in Hsearch.
  rewrite Hsearch, select_fts_none; [by rewrite sql_limit_nil | done |].
  intros i x Hx Hm. apply (Hnone i x Hx). apply Hmatch; [done |].
  by apply list_elem_of_singleton.
Qed.

Lemma reachable_fk_ok d : reachable d -> fk_ok d.
Proof.
  apply (reachable_by_invariant (fun _ => True) fk_ok fk_ok_inv).
  - intros p Hp. cbn in Hp. by apply elem_of_empty in Hp.
  - intros o _. by apply Forall_true.
Qed.

Lemma reachable_create_note d t c tg now :
  reachable d -> reachable (create_note t c tg now d).1.
Proof.
  intros Hd. rewrite <- (bind_ret_state (create_note t c tg now) d).
  by apply (reachable_step _ d (CreateNote t c tg now)).
Qed.

Lemma reachable_toggle_pin d i now : reachable d -> reachable (toggle_pin i now d).1.
Proof. intros Hd. by apply (reachable_step _ d (TogglePin i now)). Qed.

(** What [connect] leaves in the file is a state the operations reach. *)
Lemma reachable_connect o f : reachable f -> reachable (connect (run_op o) f).1.
Proof.
  intros Hf. unfold connect. simpl.
  destruct (run_op o f) as [t [a | e]] eqn:Hrun; simpl; [| done].
  change t with (t, @Ok unit a).1. rewrite <- Hrun.
  by apply (reachable_step _ f o).
Qed.

Lemma reachable_tags_unique d : reachable d -> tags_unique d.
Proof.
  apply (reachable_by_invariant (fun _ => True) tags_unique tags_unique_inv).
  - intros i j name H. cbn in H. by rewrite lookup_empty in H.
  - intros o _. by apply Forall_true.
Qed.

Lemma reachable_fts_synced d : reachable d -> fts_synced d.
Proof.
  apply (reachable_by_invariant (fun _ => True) fts_synced fts_synced_inv).
  - unfold fts_synced. cbn. by rewrite fmap_empty.
  - intros o _. by apply Forall_true.
Qed.


Lemma set_note_tags_spec note_id tg d :
  is_Some (notes d !! note_id) ->
  exists d', _set_note_tags note_id tg d = (d', Ok tt)
             /\ same_notes d d' /\ tags d ⊆ tags d'.
Proof.
  intros Hnote. unfold _set_note_tags, bind, delete_from_note_tags, exec.
  set (d0 := with_note_tags _ d).
  destruct (set_note_tags_loop_spec note_id tg d0 Hnote) as (d' & Hrun & Hs & Hsub & _).
  exists d'. by rewrite Hrun.
Qed.

Lemma update_note_spec note_id t c tg now d r :
  notes d !! note_id = Some r ->
  exists d',
    update_note note_id t c tg now d = (d', Ok tt)
    /\ notes d' = <[note_id := NoteRow (str_or (strip t) UNTITLED) (str_or c [])
                                       (pinned r) (created_at r) now]> (notes d).
Proof.
  intros Hr. unfold update_note. unfold bind at 1.
  set (f := fun r0 => NoteRow _ _ (pinned r0) (created_at r0) now).
  pose proof (update_notes_ok f note_id d) as Hok.
  pose proof (update_notes_notes f note_id d) as Hnotes.
  destruct (update_notes f note_id d) as [d1 r1]. simpl in *. subst r1.
  assert (notes d1 = <[note_id := f r]> (notes d)) as Hins.
  { rewrite Hnotes. apply map_eq. intros j. rewrite lookup_alter, lookup_insert.
    case_decide; [by rewrite Hr | done]. }
  destruct (set_note_tags_spec note_id tg d1) as (d' & Hrun & (Hn & _) & _).
  { rewrite Hins, lookup_insert_eq. by eexists. }
  exists d'. split; [done |]. by rewrite Hn, Hins.
Qed.

(** C1. In every reachable state the index holds exactly one entry per row of
    notes, under the row's id, with its current title and content and
    nothing else.  So a search for plain words (digits and lower-case
    letters; up to a hundred words of up to a thousand characters) returns
    notes that hold every one of the words among the tokens
    of their title and content, and with no limit all of them.  In
    particular, whatever the limit (other than 0), a search for a word that
    is a token of the content of the created note and of no other note
    returns that note, and after [delete_note] returns nothing; after an
    [update_note] on a note, a word that was a unique token of its content
    and is no token of the new title and content finds nothing, and a
    unique token of the new content finds the note.  The parameters are
    those the statements can take. *)
Theorem search_index_consistent :
  (forall d, reachable d -> notes_fts d = (fun r => [fts_doc r]) <$> notes d)
  /\ (forall d ws limit,
       reachable d -> ws <> [] -> (length ws <= 100)%nat -> Forall is_word ws ->
       binds_int limit ->
       exists l,
         search_notes d (join [SPACE] ws) limit = Ok l
         /\ (forall s, s ∈ l ->
               exists r, notes d !! s_id s = Some r
                         /\ (forall w, w ∈ ws -> w ∈ note_tokens r)
                         /\ s = summarize 180 d (s_id s, r))
         /\ (limit < 0 ->
             forall id r, notes d !! id = Some r ->
               (forall w, w ∈ ws -> w ∈ note_tokens r) ->
               summarize 180 d (id, r) ∈ l))
  /\ (forall d t c tg now w limit,
       reachable d -> binds_op (CreateNote t c tg now) ->
       binds_int limit -> limit <> 0 ->
       exists id r,
         (create_note t c tg now d).2 = Ok id
         /\ notes (create_note t c tg now d).1 !! id = Some r
         /\ content r = c
         /\ (unique_token w (create_note t c tg now d).1 id ->
             search_notes (create_note t c tg now d).1 w limit
             = Ok [summarize 180 (create_note t c tg now d).1 (id, r)]
             /\ search_notes (delete_note id (create_note t c tg now d).1).1 w limit
                = Ok []))
  /\ (forall d note_id t c tg now old new limit,
       reachable d -> binds_op (UpdateNote note_id t c tg now) ->
       binds_int limit -> limit <> 0 ->
       unique_token old d note_id ->
       exists r,
         notes (update_note note_id t c tg now d).1 !! note_id = Some r
         /\ content r = c
         /\ (old ∉ note_tokens r ->
             unique_token new (update_note note_id t c tg now d).1 note_id ->
             search_notes (update_note note_id t c tg now d).1 old limit = Ok []
             /\ search_notes (update_note note_id t c tg now d).1 new limit
                = Ok [summarize 180 (update_note note_id t c tg now d).1 (note_id, r)])).
Proof using bm25_order_perm fts5_words.
  split; [apply reachable_fts_synced |]. split; [| split].
  - intros d ws limit Hd Hne Hlen Hall _.
    destruct (search_words d ws limit Hne Hlen Hall) as [Hsearch Hmatch].
    destruct (select_fts_spec (join AND ws) d (reachable_fts_synced _ Hd)) as [_ Hin].
    eexists. split; [exact Hsearch |]. split.
    + intros s Hs. apply list_elem_of_fmap in Hs as ([id r] & -> & Hx).
      apply sql_limit_elem_of, Hin in Hx as [Hr Hm]. simpl in Hr, Hm.
      exists r. split; [done |]. split; [by apply Hmatch | done].
    + intros Hl id r Hr Hws. apply list_elem_of_fmap. exists (id, r). split; [done |].
      unfold sql_limit. rewrite (proj2 (Z.ltb_lt limit 0)) by done.
      apply Hin. split; [done |]. by apply Hmatch.
  - intros d t c tg now w limit Hd _ _ Hl.
    assert (reachable (create_note t c tg now d).1) as Hd1.
    { rewrite <- (bind_ret_state (create_note t c tg now) d).
      by apply (reachable_step _ d (CreateNote t c tg now)). }
    destruct (create_note_spec t c tg now d) as (d1 & Hrun & Hnotes & _).
    rewrite Hrun in *. cbn [fst snd] in *.
    eexists _, _. split; [done |].
    split; [by rewrite Hnotes, lookup_insert_eq |].
    split; [apply str_or_nil |].
    intros Huniq.
    destruct (search_notes_unique d1 w limit _ (reachable_fts_synced _ Hd1) Hl Huniq)
      as (r & Hr & Hsearch).
    rewrite Hnotes, lookup_insert_eq in Hr. injection Hr as <-.
    split; [done |].
    apply search_notes_none.
    + apply reachable_fts_synced. by apply (reachable_step _ d1 (DeleteNote _)).
    + apply Huniq.
    + intros i x. unfold delete_note. rewrite delete_from_notes_notes, lookup_delete.
      case_decide; [done |]. intros Hx. destruct Huniq as (_ & _ & Hothers).
      apply (Hothers i x Hx). congruence.
  - intros d note_id t c tg now old new limit Hd _ _ Hl (Hwold & (r0 & Hr0 & _) & Hothers).
    assert (reachable (update_note note_id t c tg now d).1) as Hd2.
    { by apply (reachable_step _ d (UpdateNote note_id t c tg now)). }
    destruct (update_note_spec note_id t c tg now d r0 Hr0) as (d2 & Hrun & Hnotes).
    rewrite Hrun in *. cbn [fst snd] in *.
    eexists. split; [by rewrite Hnotes, lookup_insert_eq |].
    split; [apply str_or_nil |].
    intros Hgone Huniq. split.
    + apply search_notes_none; [by apply reachable_fts_synced | done |].
      intros i x. rewrite Hnotes, lookup_insert. case_decide.
      * by intros [= <-].
      * intros Hx. apply (Hothers i x Hx). congruence.
    + destruct (search_notes_unique d2 new limit _ (reachable_fts_synced _ Hd2) Hl Huniq)
        as (r & Hr & Hsearch).
      rewrite Hnotes, lookup_insert_eq in Hr. by injection Hr as <-.
Qed.


(** ** Listing notes *)

Lemma reachable_pinned_01 d : reachable d -> pinned_01 d.
Proof.
  apply (reachable_by_invariant (fun _ => True) pinned_01 pinned_01_inv).
  - intros id r H. cbn in H. by rewrite lookup_empty in H.
  - intros o _. by apply Forall_true.
Qed.

Lemma elem_of_select_notes_by_tag name d x :
  x ∈ select_notes_by_tag name d -> notes d !! x.1 = Some x.2.
Proof.
  unfold select_notes_by_tag. rewrite list_elem_of_omap.
  intros ([n t] & _ & H). simpl in H.
  destruct (tags d !! t); [| done]. destruct (notes d !! n) eqn:Hn; [| done].
  case_bool_decide; [| done]. by injection H as <-.
Qed.

(** The rows [list_notes] summarises: rows of notes, in the order asked. *)
Lemma list_notes_rows d tag limit :
  exists rows,
    list_notes d tag limit = summarize 160 d <$> rows
    /\ StronglySorted list_order rows
    /\ (forall x, x ∈ rows -> notes d !! x.1 = Some x.2).
Proof.
  unfold list_notes.
  destruct (py_truthy tag).
  - eexists. split; [done |]. split.
    + apply sql_limit_sorted, StronglySorted_merge_sort; apply _.
    + intros x Hx. apply sql_limit_elem_of in Hx.
      rewrite merge_sort_Permutation in Hx. by apply elem_of_select_notes_by_tag in Hx.
  - eexists. split; [done |]. split.
    + apply sql_limit_sorted, StronglySorted_merge_sort; apply _.
    + intros x Hx. apply sql_limit_elem_of in Hx.
      rewrite merge_sort_Permutation in Hx. destruct x. by apply elem_of_map_to_list.
Qed.

(** When one note only is pinned, it heads the list. *)
Lemma list_notes_single_pinned d limit p rp :
  notes d !! p = Some rp -> pinned rp = 1 ->
  (forall i r, notes d !! i = Some r -> i <> p -> pinned r = 0) ->
  limit <> 0 ->
  exists rest, list_notes d None limit = summarize 160 d (p, rp) :: rest.
Proof.
  intros Hp Hpin Hothers Hl. unfold list_notes.
  pose proof (StronglySorted_merge_sort list_order (map_to_list (notes d))) as Hsorted.
  pose proof (merge_sort_Permutation list_order (map_to_list (notes d))) as Hperm.
  assert ((p, rp) ∈ merge_sort list_order (map_to_list (notes d))) as Hin.
  { rewrite Hperm. by apply elem_of_map_to_list. }
  destruct (merge_sort list_order (map_to_list (notes d))) as [| h rows];
    [by apply elem_of_nil in Hin |].
  assert (h = (p, rp)) as ->.
  { apply elem_of_cons in Hin as [<- | Hin]; [done |].
    apply StronglySorted_cons in Hsorted as [Hall _].
    rewrite Forall_forall in Hall. specialize (Hall _ Hin).
    assert (notes d !! h.1 = Some h.2) as Hh.
    { apply elem_of_map_to_list. rewrite <- Hperm. destruct h. by left. }
    destruct (decide (h.1 = p)) as [Heq | Hne].
    - rewrite Heq, Hp in Hh. injection Hh as Hh. destruct h; simpl in *. congruence.
    - specialize (Hothers _ _ Hh Hne). unfold list_order in Hall. simpl in Hall. lia. }
  destruct (sql_limit_cons (p, rp) rows limit Hl) as [l' ->].
  by eexists.
Qed.

Lemma toggle_pin_notes i now d :
  notes (toggle_pin i now d).1
  = alter (fun r => NoteRow (title r) (content r) (pinned r) (created_at r) now) i
      (alter (fun r => NoteRow (title r) (content r) (if pinned r =? 1 then 0 else 1)
                               (created_at r) (updated_at r)) i (notes d)).
Proof.
  unfold toggle_pin, bind.
  set (f1 := fun r => NoteRow _ _ (if pinned r =? 1 then 0 else 1) _ _).
  pose proof (update_notes_ok f1 i d) as Hok.
  pose proof (update_notes_notes f1 i d) as Hn.
  destruct (update_notes f1 i d) as [d1 r1]. simpl in *. subst r1.
  by rewrite update_notes_notes, Hn.
Qed.

(** C7. In every reachable state, for every tag filter and limit, in the list
    [list_notes] returns no unpinned note comes before a pinned one, and of
    two notes with the same pinned flag the one updated later (by the order
    of the timestamps as text) comes first.  In particular, after three
    notes are created and the second is pinned, the second heads the list,
    whatever the titles, contents, tags and timestamps. *)
Theorem list_notes_pinned_first :
  (forall d tag limit i j si sj,
     reachable d -> (i < j)%nat ->
     list_notes d tag limit !! i = Some si ->
     list_notes d tag limit !! j = Some sj ->
     (s_pinned sj = true -> s_pinned si = true)
     /\ (s_pinned si = s_pinned sj -> str_le (s_updated_at sj) (s_updated_at si)))
  /\ (forall t1 c1 tg1 now1 t2 c2 tg2 now2 t3 c3 tg3 now3 now limit,
       limit <> 0 ->
       exists d1 d2 d3 id1 id2 id3,
         create_note t1 c1 tg1 now1 empty_db = (d1, Ok id1)
         /\ create_note t2 c2 tg2 now2 d1 = (d2, Ok id2)
         /\ create_note t3 c3 tg3 now3 d2 = (d3, Ok id3)
         /\ exists s rest,
             list_notes (toggle_pin id2 now d3).1 None limit = s :: rest
             /\ s_id s = id2 /\ s_pinned s = true /\ s_updated_at s = now).
Proof.
  split.
  - intros d tag limit i j si sj Hd Hij Hi Hj.
    destruct (list_notes_rows d tag limit) as (rows & Heq & Hsorted & Hrows).
    rewrite Heq, list_lookup_fmap in Hi, Hj.
    destruct (rows !! i) as [xi |] eqn:Hxi; [| done].
    destruct (rows !! j) as [xj |] eqn:Hxj; [| done].
    injection Hi as <-. injection Hj as <-.
    pose proof (StronglySorted_lookup_lt _ _ Hsorted i j xi xj Hij Hxi Hxj) as Hord.
    pose proof (reachable_pinned_01 d Hd) as H01.
    pose proof (H01 _ _ (Hrows xi (list_elem_of_lookup_2 _ _ _ Hxi))) as Hpi.
    pose proof (H01 _ _ (Hrows xj (list_elem_of_lookup_2 _ _ _ Hxj))) as Hpj.
    unfold list_order in Hord. simpl. unfold py_bool.
    destruct Hpi as [Hpi | Hpi], Hpj as [Hpj | Hpj]; rewrite Hpi, Hpj; simpl;
      (split; [done || (destruct Hord as [? | [? ?]]; lia) |]);
      intros ?; try done; destruct Hord as [? | [? ?]]; (done || lia).
  - intros t1 c1 tg1 now1 t2 c2 tg2 now2 t3 c3 tg3 now3 now limit Hl.
    destruct (create_note_spec t1 c1 tg1 now1 empty_db) as (d1 & Hr1 & Hn1 & _).
    destruct (create_note_spec t2 c2 tg2 now2 d1) as (d2 & Hr2 & Hn2 & _).
    destruct (create_note_spec t3 c3 tg3 now3 d2) as (d3 & Hr3 & Hn3 & _).
    set (id1 := next_rowid (notes_seq empty_db) (notes empty_db)) in *.
    set (id2 := next_rowid (notes_seq d1) (notes d1)) in *.
    set (id3 := next_rowid (notes_seq d2) (notes d2)) in *.
    assert (id2 <> id1) as H21.
    { intros Heq. pose proof (next_rowid_fresh (notes_seq d1) (notes d1)) as Hf.
      fold id2 in Hf. by rewrite Hn1, Heq, lookup_insert_eq in Hf. }
    assert (id3 <> id2 /\ id3 <> id1) as [H32 H31].
    { pose proof (next_rowid_fresh (notes_seq d2) (notes d2)) as Hf. fold id3 in Hf.
      rewrite Hn2, Hn1 in Hf. split; intros Heq.
      - by rewrite Heq, lookup_insert_eq in Hf.
      - rewrite lookup_insert_ne, Heq, lookup_insert_eq in Hf; [done |].
        congruence. }
    exists d1, d2, d3, id1, id2, id3. repeat (split; [done |]).
    edestruct (list_notes_single_pinned (toggle_pin id2 now d3).1 limit id2) as [rest ->].
    + rewrite toggle_pin_notes, !lookup_alter, !decide_True by done.
      rewrite Hn3, lookup_insert_ne, Hn2, lookup_insert_eq by done. done.
    + done.
    + intros i r. rewrite toggle_pin_notes. intros Hr Hne.
      rewrite !lookup_alter_ne in Hr by done.
      rewrite Hn3, Hn2, Hn1 in Hr. rewrite !lookup_insert in Hr.
      repeat case_decide; try congruence.
      * by injection Hr as <-.
      * by injection Hr as <-.
      * cbn in Hr. by rewrite lookup_empty in Hr.
    + done.
    + by eexists _, _.
Qed.


(** ** Excerpts *)

Lemma excerpt_long width text :
  (width < length (strip text))%nat ->
  excerpt width text = take width (replace NEWLINE SPACE (strip text)) ++ [ELLIPSIS]
  /\ length (excerpt width text) = S width.
Proof.
  intros Hlen. unfold excerpt. rewrite str_or_nil.
  assert (length (replace NEWLINE SPACE (strip text)) = length (strip text)) as Hrep.
  { unfold replace. apply length_fmap. }
  rewrite (proj2 (Nat.ltb_lt _ _)) by lia.
  split; [done |]. rewrite length_app, length_take. simpl. lia.
Qed.

Lemma elem_of_select_fts expr d x :
  x ∈ select_fts expr d -> notes d !! x.1 = Some x.2.
Proof.
  unfold select_fts. rewrite list_elem_of_omap. intros (id & _ & H).
  apply fmap_Some in H as (r & Hr & ->). done.
Qed.

(** C8, as the code has it.  The excerpt is cut from the content after it
    has been trimmed.  For every note whose trimmed content is exactly 200
    characters long, the excerpt [list_notes] gives is its first 160
    characters (newlines as spaces) followed by the ellipsis, 161 characters
    in all, and the excerpt [search_notes] gives is the first 180 followed by
    the ellipsis, 181 in all. *)
Theorem excerpt_truncation (d : db) (tag : option pystr) (query : pystr)
    (limit : Z) (s : summary) (r : note_row) :
  notes d !! s_id s = Some r ->
  length (strip (content r)) = 200%nat ->
  (s ∈ list_notes d tag limit ->
     s_excerpt s = take 160 (replace NEWLINE SPACE (strip (content r))) ++ [ELLIPSIS]
     /\ length (s_excerpt s) = 161%nat)
  /\ (forall l, search_notes d query limit = Ok l -> s ∈ l ->
       s_excerpt s = take 180 (replace NEWLINE SPACE (strip (content r))) ++ [ELLIPSIS]
       /\ length (s_excerpt s) = 181%nat).
Proof.
  intros Hr Hlen. split.
  - intros Hs. destruct (list_notes_rows d tag limit) as (rows & Heq & _ & Hrows).
    rewrite Heq in Hs. apply list_elem_of_fmap in Hs as (x & -> & Hx).
    apply Hrows in Hx. simpl in Hr. rewrite Hx in Hr. injection Hr as <-.
    simpl. apply excerpt_long. lia.
  - intros l Hsearch Hs. unfold search_notes in Hsearch.
    destruct (strip (str_or query [])) as [| ch q].
    { injection Hsearch as <-. by apply elem_of_nil in Hs. }
    destruct (fts5_syntax_ok _); [| done]. injection Hsearch as <-.
    apply list_elem_of_fmap in Hs as (x & -> & Hx).
    apply sql_limit_elem_of, elem_of_select_fts in Hx.
    simpl in Hr. rewrite Hx in Hr. injection Hr as <-.
    simpl. apply excerpt_long. lia.
Qed.

(** ** Tags are kept *)

Lemma tag_row_kept id name :
  stmt_invariant (fun _ => True) (fun d => tags d !! id = Some name).
Proof.
  constructor.
  - by intros t c now d Hd.
  - intros set i _ d Hd. by destruct (update_notes_frame set i d) as (-> & _).
  - intros i d Hd. by rewrite delete_from_notes_tags.
  - by intros i d Hd.
  - intros x _ d Hd. destruct (insert_or_ignore_into_tags_tags x d) as [Hsub _].
    by eapply lookup_weaken.
  - intros n t d Hd.
    by destruct (insert_or_ignore_into_note_tags_frame n t d) as (_ & -> & _).
Qed.

Lemma elem_of_list_tags d name cnt :
  (name, cnt) ∈ list_tags d
  <-> exists tag_id, tags d !! tag_id = Some name /\ cnt = tag_count d tag_id.
Proof.
  unfold list_tags. rewrite merge_sort_Permutation, list_elem_of_fmap. split.
  - intros ([i x] & [= -> ->] & Hin). exists i. split; [| done].
    by apply elem_of_map_to_list.
  - intros (i & Hi & ->). exists (i, name). split; [done |].
    by apply elem_of_map_to_list.
Qed.

(** C9. No operation removes a row of tags.  When the only note that
    carries a tag is deleted, [delete_note] leaves the tags table as it was,
    the associations of the note are gone, and [list_tags] reports the tag
    with count 0.  The list [list_tags] returns is ordered by count
    descending, then by name ascending. *)
Theorem tags_are_never_deleted :
  (forall o d tag_id name,
     tags d !! tag_id = Some name -> tags (run_op o d).1 !! tag_id = Some name)
  /\ (forall d note_id tag_id name,
       is_Some (notes d !! note_id) ->
       tags d !! tag_id = Some name ->
       (forall p, p ∈ note_tags d -> p.2 = tag_id -> p.1 = note_id) ->
       tags (delete_note note_id d).1 = tags d
       /\ (forall p, p ∈ note_tags (delete_note note_id d).1 -> p.1 <> note_id)
       /\ (name, 0) ∈ list_tags (delete_note note_id d).1)
  /\ (forall d i j a b,
       (i < j)%nat -> list_tags d !! i = Some a -> list_tags d !! j = Some b ->
       b.2 < a.2 \/ (a.2 = b.2 /\ str_le a.1 b.1)).
Proof.
  clear fts5_words fts5_tokens py_lower_ascii py_lower_take bm25_order_perm py_lower
    bm25_order.
  split; [| split].
  - intros o d tag_id name Ht.
    apply (preserves_run_op _ _ (tag_row_kept tag_id name) o); [| done].
    by apply Forall_true.
  - intros d note_id tag_id name Hnote Ht Honly. unfold delete_note.
    split; [apply delete_from_notes_tags |]. split.
    + intros p. rewrite delete_from_notes_note_tags by done.
      rewrite elem_of_filter. by intros [? _].
    + apply elem_of_list_tags. exists tag_id.
      split; [by rewrite delete_from_notes_tags |].
      unfold tag_count. rewrite delete_from_notes_note_tags by done.
      assert (filter (fun nt : Z * Z => nt.2 = tag_id)
                (filter (fun p : Z * Z => p.1 <> note_id) (note_tags d)) = ∅) as ->.
      { apply set_eq. intros p. rewrite !elem_of_filter. split; [| set_solver].
        intros (H2 & H1 & Hp). destruct H1. by apply Honly. }
      by rewrite size_empty.
  - intros d i j a b Hij Hi Hj.
    apply (StronglySorted_lookup_lt tags_order (list_tags d)) with i j; try done.
    apply StronglySorted_merge_sort; apply _.
Qed.

(** ** The empty tag filter *)

Lemma length_sql_limit {A} (l : list A) limit :
  length (sql_limit limit l)
  = if limit <? 0 then length l else Nat.min (Z.to_nat limit) (length l).
Proof. unfold sql_limit. destruct (limit <? 0); [done | apply length_take]. Qed.

(** C10. [list_notes] with the empty string as tag filter is [list_notes]
    without a filter: it lists the notes of the table (all of them up to the
    limit, in the pinned-first order), not the notes that carry the empty
    tag name.  On a database of two notes of which one carries the empty tag
    name, both are listed, while the query by tag name selects one. *)
Theorem list_notes_empty_tag_is_no_filter :
  (forall d limit, list_notes d (Some []) limit = list_notes d None limit)
  /\ (forall d limit,
       list_notes d (Some []) limit
       = summarize 160 d <$> sql_limit limit (merge_sort list_order (map_to_list (notes d)))
       /\ length (list_notes d (Some []) limit)
          = if limit <? 0 then size (notes d)
            else Nat.min (Z.to_nat limit) (size (notes d)))
  /\ (s_id <$> list_notes two_notes_db (Some []) 200 = [2; 1]
      /\ (select_notes_by_tag [] two_notes_db).*1 = [1]).
Proof.
  split; [done |]. split.
  - intros d limit. split; [done |].
    unfold list_notes. cbn [py_truthy]. rewrite length_fmap, length_sql_limit.
    assert (length (merge_sort list_order (map_to_list (notes d))) = size (notes d)) as ->;
      [| done].
    rewrite (Permutation_length (merge_sort_Permutation list_order _)).
    apply length_map_to_list.
  - split; by vm_compute.
Qed.

(** * More of the repository *)

(** ** Update, delete and pin, read back *)

Lemma get_note_Some d note_id n :
  get_note d note_id = Some n <->
  exists r, notes d !! note_id = Some r /\ n = note_to_dict d (note_id, r).
Proof.
  unfold get_note, note_to_dict. simpl. split.
  - destruct (notes d !! note_id) as [r |]; [| done]. intros [= <-]. by exists r.
  - intros (r & -> & ->). done.
Qed.

Lemma get_tags_for_note_ext d d' note_id :
  tags d' = tags d -> note_tags d' = note_tags d ->
  _get_tags_for_note d' note_id = _get_tags_for_note d note_id.
Proof. intros Ht Hnt. unfold _get_tags_for_note. by rewrite Ht, Hnt. Qed.

(** After [_set_note_tags] on a note that exists, the note carries exactly
    the names given, and the associations of the other notes are as before. *)
Lemma set_note_tags_full_spec note_id tg d :
  is_Some (notes d !! note_id) ->
  exists d',
    _set_note_tags note_id tg d = (d', Ok tt)
    /\ same_notes d d' /\ tags d ⊆ tags d'
    /\ (forall x, x ∈ _get_tags_for_note d' note_id <-> x ∈ tg)
    /\ (forall p, p.1 <> note_id -> p ∈ note_tags d' <-> p ∈ note_tags d).
Proof.
  intros Hnote. unfold _set_note_tags, bind, delete_from_note_tags, exec.
  set (d0 := with_note_tags _ d).
  destruct (set_note_tags_loop_spec note_id tg d0 Hnote)
    as (d' & Hrun & Hs & Hsub & Hnts & Hfrom & Hto).
  exists d'. rewrite Hrun. split; [done |]. split; [done |]. split; [done |]. split.
  - intros x. rewrite elem_of_get_tags_for_note. split.
    + intros (tid & Hin & Ht). destruct (Hfrom _ Hin) as [Hp | (_ & name & Hname & Ht')].
      * subst d0. simpl in Hp. apply elem_of_filter in Hp as [Hne _]. done.
      * simpl in Ht'. congruence.
    + intros Hx. by apply Hto.
  - intros p Hne. split.
    + intros Hp. destruct (Hfrom _ Hp) as [Hp0 | (Heq & _)]; [| done].
      subst d0. simpl in Hp0. by apply elem_of_filter in Hp0 as [_ ?].
    + intros Hp. apply Hnts. subst d0. simpl. by apply elem_of_filter.
Qed.

(** X1. [update_note] on a note that exists, with parameters the statements
    take (the id a signed 64-bit integer, no surrogate in the strings), does
    not fail, and [get_note] then gives the new title (trimmed, Untitled when
    blank), the new content, the time of the call as updated_at, the pinned
    flag and created_at of before, and as tags exactly the names passed,
    whatever the note carried before. *)
Theorem update_note_get_note (d : db) (note_id : Z) (t c : pystr)
    (tg : list pystr) (now : pystr) (old : note_dict) :
  binds_op (UpdateNote note_id t c tg now) ->
  get_note d note_id = Some old ->
  (update_note note_id t c tg now d).2 = Ok tt
  /\ exists n,
      get_note (update_note note_id t c tg now d).1 note_id = Some n
      /\ d_id n = note_id
      /\ (strip t = [] -> d_title n = str "Untitled")
      /\ (strip t <> [] -> d_title n = strip t)
      /\ d_content n = c
      /\ d_pinned n = d_pinned old
      /\ d_created_at n = d_created_at old
      /\ d_updated_at n = now
      /\ (forall x, x ∈ d_tags n <-> x ∈ tg)
      /\ StronglySorted str_le (d_tags n)
      /\ (tags_unique d -> NoDup tg -> d_tags n ≡ₚ tg).
Proof.
  intros _ Hold. apply get_note_Some in Hold as (r & Hr & ->).
  assert (forall d', tags_unique d -> (update_note note_id t c tg now d).1 = d' ->
                     tags_unique d') as Huniq.
  { intros d' Hu <-.
    apply (preserves_run_op _ _ tags_unique_inv (UpdateNote note_id t c tg now));
      [by apply Forall_true | done]. }
  revert Huniq. unfold update_note. unfold bind at 1 2 3.
  set (f := fun r0 => NoteRow _ _ (pinned r0) (created_at r0) now).
  pose proof (update_notes_ok f note_id d) as Hok.
  pose proof (update_notes_notes f note_id d) as Hnotes.
  destruct (update_notes f note_id d) as [d1 r1]. simpl in Hok, Hnotes. subst r1.
  assert (notes d1 !! note_id = Some (f r)) as Hr1.
  { by rewrite Hnotes, lookup_alter, decide_True, Hr. }
  destruct (set_note_tags_full_spec note_id tg d1) as (d' & Hrun & (Hn & _) & _ & Htags & _);
    [by eexists |].
  rewrite Hrun. cbn [fst snd]. intros Huniq. split; [done |].
  eexists. split; [apply get_note_Some; exists (f r); by rewrite Hn |].
  cbn [note_to_dict d_id d_title d_content d_pinned d_created_at d_updated_at d_tags
       fst snd title content pinned created_at updated_at f].
  split; [done |].
  split; [by intros -> |].
  split; [intros Hne; by destruct (strip t) |].
  split; [apply str_or_nil |].
  do 3 (split; [done |]).
  split; [done |].
  split; [apply get_tags_for_note_sorted |].
  intros Hu Hnd. apply NoDup_Permutation; [| done | done].
  apply get_tags_for_note_NoDup. by apply Huniq.
Qed.

(** X2. [delete_note] on an id that is a signed 64-bit integer does not fail.
    Afterwards the note is not found, none of its associations is left, its
    entry is gone from the index, and the tags table is as before; on an id
    that is not there it changes nothing, so deleting twice is deleting
    once. *)
Theorem delete_note_removes (d : db) (note_id : Z) :
  binds_int note_id ->
  (delete_note note_id d).2 = Ok tt
  /\ get_note (delete_note note_id d).1 note_id = None
  /\ (fk_ok d -> forall t, (note_id, t) ∉ note_tags (delete_note note_id d).1)
  /\ (fts_synced d -> notes_fts (delete_note note_id d).1 !! note_id = None)
  /\ tags (delete_note note_id d).1 = tags d
  /\ (notes d !! note_id = None -> delete_note note_id d = (d, Ok tt))
  /\ delete_note note_id (delete_note note_id d).1 = ((delete_note note_id d).1, Ok tt).
Proof.
  intros _.
  assert (forall d0, notes d0 !! note_id = None -> delete_note note_id d0 = (d0, Ok tt))
    as Hmissing.
  { intros d0 H0. unfold delete_note, delete_from_notes. by rewrite H0. }
  assert (notes (delete_note note_id d).1 !! note_id = None) as Hgone.
  { unfold delete_note. by rewrite delete_from_notes_notes, lookup_delete_eq. }
  split; [apply delete_from_notes_ok |].
  split; [unfold get_note; by rewrite Hgone |].
  split.
  { intros Hfk t Hin. unfold delete_note in Hin.
    destruct (notes d !! note_id) as [r |] eqn:Hr.
    - rewrite delete_from_notes_note_tags in Hin by (by eexists).
      apply elem_of_filter in Hin as [Hne _]. done.
    - unfold delete_from_notes in Hin. rewrite Hr in Hin. simpl in Hin.
      destruct (Hfk _ Hin) as [[x Hx] _]. simpl in Hx. congruence. }
  split.
  { intros Hsync.
    pose proof (inv_delete_notes _ _ fts_synced_inv note_id d Hsync) as Hsync'.
    unfold delete_note. rewrite Hsync', lookup_fmap.
    unfold delete_note in Hgone. by rewrite Hgone. }
  split; [apply delete_from_notes_tags |].
  split; [apply Hmissing |].
  by apply Hmissing.
Qed.

Lemma toggle_pin_missing note_id now d :
  notes d !! note_id = None -> toggle_pin note_id now d = (d, Ok tt).
Proof.
  intros H. unfold toggle_pin, bind.
  rewrite update_notes_missing by done. by rewrite update_notes_missing.
Qed.

Lemma toggle_pin_frame note_id now d :
  (toggle_pin note_id now d).2 = Ok tt
  /\ tags (toggle_pin note_id now d).1 = tags d
  /\ note_tags (toggle_pin note_id now d).1 = note_tags d.
Proof.
  unfold toggle_pin, bind.
  set (f1 := fun r => NoteRow _ _ (if pinned r =? 1 then 0 else 1) _ _).
  pose proof (update_notes_ok f1 note_id d) as Hok.
  pose proof (update_notes_frame f1 note_id d) as (Ht & _ & Hnt & _).
  destruct (update_notes f1 note_id d) as [d1 r1]. simpl in *. subst r1.
  split; [apply update_notes_ok |].
  match goal with
  | |- context [update_notes ?f2 note_id d1] =>
      destruct (update_notes_frame f2 note_id d1) as (-> & _ & -> & _)
  end.
  done.
Qed.

(** X3. [toggle_pin] on an id that is a signed 64-bit integer does not fail.
    On a note that exists it keeps the title, the content, created_at and
    the tags, and stamps updated_at with the time of the call; where the
    pinned column holds 0 or 1 (as in every reachable state) the flag read
    back is flipped, and a second call restores it.  On an id that is not
    there it changes nothing. *)
Theorem toggle_pin_flips (d : db) (note_id : Z) (now now' : pystr) :
  binds_op (TogglePin note_id now) -> binds_op (TogglePin note_id now') ->
  (toggle_pin note_id now d).2 = Ok tt
  /\ (notes d !! note_id = None -> toggle_pin note_id now d = (d, Ok tt))
  /\ (forall old,
       get_note d note_id = Some old ->
       exists n,
         get_note (toggle_pin note_id now d).1 note_id = Some n
         /\ d_title n = d_title old /\ d_content n = d_content old
         /\ d_created_at n = d_created_at old /\ d_tags n = d_tags old
         /\ d_updated_at n = now
         /\ (pinned_01 d ->
             d_pinned n = negb (d_pinned old)
             /\ d_pinned <$> get_note
                              (toggle_pin note_id now' (toggle_pin note_id now d).1).1
                              note_id
                = Some (d_pinned old))).
Proof.
  intros _ _.
  split; [apply toggle_pin_frame |]. split; [apply toggle_pin_missing |].
  intros old Hold. apply get_note_Some in Hold as (r & Hr & ->).
  destruct (toggle_pin_frame note_id now d) as (_ & Ht & Hnt).
  eexists. split.
  { apply get_note_Some. eexists. split; [| done].
    by rewrite toggle_pin_notes, !lookup_alter, !decide_True, Hr. }
  cbn [note_to_dict d_title d_content d_pinned d_created_at d_updated_at d_tags
       fst snd title content pinned created_at updated_at].
  do 3 (split; [done |]).
  split; [by apply get_tags_for_note_ext |].
  split; [done |].
  intros H01. split.
  - destruct (H01 _ _ Hr) as [-> | ->]; done.
  - unfold get_note.
    rewrite !toggle_pin_notes, !lookup_alter, !decide_True, Hr by done.
    cbn [fmap option_fmap option_map d_pinned pinned].
    destruct (H01 _ _ Hr) as [-> | ->]; done.
Qed.

(** ** What an operation leaves alone *)

Lemma untouched_refl j d : untouched j d d.
Proof. by unfold untouched. Qed.

Lemma untouched_trans j d1 d2 d3 :
  untouched j d1 d2 -> untouched j d2 d3 -> untouched j d1 d3.
Proof.
  intros (Hn1 & Ht1 & Hp1) (Hn2 & Ht2 & Hp2). split; [congruence |].
  split; [by transitivity (tags d2) |]. intros t. by rewrite Hp2.
Qed.

(** One step is enough: a statement that leaves [j] alone keeps [untouched]. *)
Lemma preserves_untouched {A} j d0 (m : M A) :
  (forall d, untouched j d (m d).1) -> preserves (untouched j d0) m.
Proof. intros H d Hd. eapply untouched_trans; [exact Hd | apply H]. Qed.

Lemma insert_or_ignore_into_tags_untouched j name d :
  untouched j d (insert_or_ignore_into_tags name d).1.
Proof.
  destruct (insert_or_ignore_into_tags_frame name d) as ((Hn & _) & Hnt).
  destruct (insert_or_ignore_into_tags_tags name d) as (Hsub & _).
  split; [by rewrite Hn |]. split; [done |]. intros t. by rewrite Hnt.
Qed.

Lemma insert_or_ignore_into_note_tags_untouched j n t d :
  n <> j -> untouched j d (insert_or_ignore_into_note_tags n t d).1.
Proof.
  intros Hne.
  destruct (insert_or_ignore_into_note_tags_frame n t d) as ((Hn & _) & Ht & Hsub & Hsup).
  split; [by rewrite Hn |]. split; [by rewrite Ht |]. intros u. split.
  - intros Hin. apply Hsup in Hin. apply elem_of_union in Hin as [Hin | Hin]; [done |].
    apply elem_of_singleton in Hin. congruence.
  - apply Hsub.
Qed.

Lemma set_note_tags_untouched j note_id tg d0 :
  note_id <> j -> preserves (untouched j d0) (_set_note_tags note_id tg).
Proof.
  intros Hne. unfold _set_note_tags. apply preserves_bind.
  - apply preserves_untouched. intros d. split; [done |]. split; [done |].
    intros t. simpl. rewrite elem_of_filter. simpl. split; [by intros [_ ?] |].
    intros Hin. split; [congruence | done].
  - intros _. induction tg as [| name tg IH]; simpl; [apply preserves_ret |].
    apply preserves_bind.
    + apply preserves_ensure_tag, preserves_untouched.
      apply insert_or_ignore_into_tags_untouched.
    + intros tid. apply preserves_bind; [| done].
      apply preserves_untouched. intros d.
      by apply insert_or_ignore_into_note_tags_untouched.
Qed.

Lemma update_notes_untouched j set i d :
  i <> j -> untouched j d (update_notes set i d).1.
Proof.
  intros Hne. destruct (update_notes_frame set i d) as (Ht & _ & Hnt & _).
  split; [by rewrite update_notes_notes, lookup_alter_ne |].
  split; [by rewrite Ht |]. intros t. by rewrite Hnt.
Qed.

Lemma run_op_untouched o d j :
  is_Some (notes d !! j) -> op_note o <> Some j -> untouched j d (run_op o d).1.
Proof.
  intros Hj Hop. destruct o as [t c tg now | i t c tg now | i | i now]; simpl in *.
  - rewrite bind_ret_state. unfold create_note, bind at 1.
    unfold insert_into_notes at 1.
    set (id := next_rowid (notes_seq d) (notes d)).
    set (d1 := notes_ai id _ _).
    assert (id <> j) as Hne.
    { intros Heq. destruct Hj as [r Hr]. rewrite <- Heq in Hr. subst id.
      by rewrite next_rowid_fresh in Hr. }
    assert (untouched j d d1) as H1.
    { split; [by simpl; rewrite lookup_insert_ne |]. by split. }
    pose proof (set_note_tags_untouched j id tg d Hne d1 H1) as H2.
    unfold bind. by destruct (_set_note_tags id tg d1) as [d2 [[] | e]].
  - assert (i <> j) as Hne by congruence.
    unfold update_note. apply (preserves_bind (untouched j d)); [| | apply untouched_refl].
    + apply preserves_untouched. intros d0. by apply update_notes_untouched.
    + intros _. by apply set_note_tags_untouched.
  - assert (i <> j) as Hne by congruence. unfold delete_note.
    split; [by rewrite delete_from_notes_notes, lookup_delete_ne |].
    split; [by rewrite delete_from_notes_tags |].
    intros t. destruct (notes d !! i) as [r |] eqn:Hr.
    + rewrite delete_from_notes_note_tags by (by eexists).
      rewrite elem_of_filter. simpl. split; [by intros [_ ?] |].
      intros Hin. split; [congruence | done].
    + unfold delete_from_notes. by rewrite Hr.
  - assert (i <> j) as Hne by congruence.
    destruct (toggle_pin_frame i now d) as (_ & Ht & Hnt).
    split; [by rewrite toggle_pin_notes, !lookup_alter_ne |].
    split; [by rewrite Ht |]. intros t. by rewrite Hnt.
Qed.

Lemma untouched_get_note j d d' :
  untouched j d d' -> fk_ok d -> tags_unique d -> tags_unique d' ->
  get_note d' j = get_note d j.
Proof.
  intros (Hn & Hsub & Hp) Hfk Hu Hu'. unfold get_note. rewrite Hn.
  destruct (notes d !! j) as [r |]; [| done]. do 2 f_equal.
  apply (StronglySorted_unique str_le); try apply get_tags_for_note_sorted.
  apply NoDup_Permutation; try by apply get_tags_for_note_NoDup.
  intros x. rewrite !elem_of_get_tags_for_note. split.
  - intros (t & Hin & Ht). exists t. apply Hp in Hin. split; [done |].
    destruct (Hfk _ Hin) as [_ [y Hy]]. simpl in Hy.
    pose proof (lookup_weaken _ _ _ _ Hy Hsub) as Hy'. congruence.
  - intros (t & Hin & Ht). exists t. split; [by apply Hp |].
    by eapply lookup_weaken.
Qed.

(** X4. An operation aimed at one note leaves every other note as it was: in
    a reachable state, [get_note] of a note that exists gives the same dict
    (row and tags) after a [create_note], or after an [update_note],
    [delete_note] or [toggle_pin] of another id, whether the operation
    returned or raised. *)
Theorem other_notes_untouched (o : op) (d : db) (j : Z) :
  reachable d -> is_Some (notes d !! j) -> op_note o <> Some j ->
  get_note (run_op o d).1 j = get_note d j.
Proof.
  intros Hd Hj Hop. apply untouched_get_note.
  - by apply run_op_untouched.
  - by apply reachable_fk_ok.
  - by apply reachable_tags_unique.
  - apply reachable_tags_unique. by apply (reachable_step _ d o).
Qed.

(** ** Rowids *)

Lemma max_rowid_nonneg {A} (m : gmap Z A) : 0 <= max_rowid m.
Proof.
  unfold max_rowid. induction ((map_to_list m).*1) as [| x l IH]; simpl; lia.
Qed.

Lemma ids_below_seq_inv : stmt_invariant (fun _ => True) ids_below_seq.
Proof.
  unfold ids_below_seq. constructor.
  - intros t c now d Hd id r. unfold insert_into_notes, notes_ai, fts_insert. simpl.
    pose proof (max_rowid_nonneg (notes d)) as Hmax. unfold next_rowid.
    rewrite lookup_insert. case_decide as Hid.
    + intros _. subst id. lia.
    + intros Hr. specialize (Hd _ _ Hr). lia.
  - intros set i _ d Hd id r.
    destruct (update_notes_frame set i d) as (_ & _ & _ & ->).
    rewrite update_notes_notes, lookup_alter. case_decide.
    + subst i. destruct (notes d !! id) as [x |] eqn:Hx; [| done].
      intros _. by apply (Hd _ x).
    + apply Hd.
  - intros i d Hd id r. rewrite delete_from_notes_notes, lookup_delete.
    case_decide; [done |]. intros Hr.
    assert (notes_seq (delete_from_notes i d).1 = notes_seq d) as ->; [| by eapply Hd].
    unfold delete_from_notes. destruct (notes d !! i) as [old |]; [| done]. simpl.
    unfold notes_ad.
    by destruct (fts_delete_frame i (title old) (content old)
                   (with_note_tags (filter (fun p => p.1 <> i) (note_tags d))
                      (with_notes (delete i (notes d)) d))) as (_ & -> & _).
  - intros i d Hd. apply Hd.
  - intros name _ d Hd id r.
    destruct (insert_or_ignore_into_tags_frame name d) as ((-> & -> & _) & _). apply Hd.
  - intros n t d Hd id r.
    destruct (insert_or_ignore_into_note_tags_frame n t d) as ((-> & -> & _) & _).
    apply Hd.
Qed.

Lemma seq_at_least_inv k : stmt_invariant (fun _ => True) (fun d => k <= notes_seq d).
Proof.
  constructor.
  - intros t c now d Hd. unfold insert_into_notes, notes_ai, fts_insert. simpl.
    unfold next_rowid. lia.
  - intros set i _ d Hd. by destruct (update_notes_frame set i d) as (_ & _ & _ & ->).
  - intros i d Hd. unfold delete_from_notes.
    destruct (notes d !! i) as [old |]; [| done]. simpl. unfold notes_ad.
    by destruct (fts_delete_frame i (title old) (content old)
                   (with_note_tags (filter (fun p => p.1 <> i) (note_tags d))
                      (with_notes (delete i (notes d)) d))) as (_ & -> & _).
  - by intros i d Hd.
  - intros name _ d Hd.
    by destruct (insert_or_ignore_into_tags_frame name d) as ((_ & -> & _) & _).
  - intros n t d Hd.
    by destruct (insert_or_ignore_into_note_tags_frame n t d) as ((_ & -> & _) & _).
Qed.

Lemma run_ops_preserves (I : db -> Prop) os :
  (forall o, preserves I (run_op o)) -> forall d, I d -> I (run_ops os d).
Proof.
  intros Hstep. unfold run_ops.
  induction os as [| o os IH]; intros d Hd; simpl; [done |].
  apply IH. by apply Hstep.
Qed.

(** X5. The id of a note is never given again.  In a reachable state every
    id in notes lies between 1 and the AUTOINCREMENT counter, and the counter
    never goes down: whatever operations follow (deletions included), a later
    [create_note] returns an id greater than every id the table held. *)
Theorem note_ids_are_never_reused :
  (forall d, reachable d ->
     forall id r, notes d !! id = Some r -> 1 <= id <= notes_seq d)
  /\ (forall d os t c tg now id r,
       reachable d -> notes d !! id = Some r ->
       exists id',
         (create_note t c tg now (run_ops os d)).2 = Ok id'
         /\ id < id'
         /\ notes (run_ops os d) !! id' = None).
Proof.
  assert (forall d, reachable d -> ids_below_seq d) as Hbelow.
  { apply (reachable_by_invariant (fun _ => True) ids_below_seq ids_below_seq_inv).
    - intros id r H. cbn in H. by rewrite lookup_empty in H.
    - intros o _. by apply Forall_true. }
  split; [exact Hbelow |].
  intros d os t c tg now id r Hd Hr.
  destruct (create_note_spec t c tg now (run_ops os d)) as (d' & Hrun & _).
  rewrite Hrun. eexists. split; [done |].
  split; [| apply next_rowid_fresh].
  assert (id <= notes_seq (run_ops os d)) as Hseq.
  { apply (run_ops_preserves (fun d0 => id <= notes_seq d0)).
    - intros o. apply (preserves_run_op _ _ (seq_at_least_inv id)). by apply Forall_true.
    - by apply (Hbelow d Hd id r). }
  unfold next_rowid. lia.
Qed.

(** ** Associations *)

(** X6. Referential integrity.  In every reachable state, the state left by
    an operation that raised included, every row of note_tags joins a note
    and a tag that exist.  So the tags [get_note] returns for a note are the
    names of its associations, each once. *)
Theorem associations_join_rows (d : db) :
  reachable d ->
  (forall n t, (n, t) ∈ note_tags d ->
     exists r name, notes d !! n = Some r /\ tags d !! t = Some name)
  /\ (forall id n, get_note d id = Some n ->
       NoDup (d_tags n)
       /\ forall x, x ∈ d_tags n <->
                    exists t, (id, t) ∈ note_tags d /\ tags d !! t = Some x).
Proof.
  intros Hd. split.
  - intros n t Hin. destruct (reachable_fk_ok d Hd _ Hin) as [[r Hr] [name Hname]].
    by exists r, name.
  - intros id n Hn. apply get_note_Some in Hn as (r & _ & ->). simpl. split.
    + by apply get_tags_for_note_NoDup, reachable_tags_unique.
    + apply elem_of_get_tags_for_note.
Qed.

(** ** Summaries *)

Lemma excerpt_bounds width text :
  (length (excerpt width text) <= S width)%nat /\ NEWLINE ∉ excerpt width text.
Proof.
  unfold excerpt. rewrite str_or_nil.
  set (e := replace NEWLINE SPACE (strip text)).
  assert (NEWLINE ∉ e) as Hnl.
  { subst e. unfold replace. intros Hin. apply list_elem_of_fmap in Hin as (c & Hc & _).
    destruct (c =? NEWLINE)%N eqn:E; [done |]. apply N.eqb_neq in E. congruence. }
  destruct (Nat.ltb_spec width (length e)) as [Hlt | Hle].
  - split; [rewrite length_app, length_take; simpl; lia |].
    intros Hin. apply elem_of_app in Hin as [Hin | Hin].
    + apply Hnl. rewrite <- (take_drop width e). apply elem_of_app. by left.
    + by apply list_elem_of_singleton in Hin.
  - split; [lia | done].
Qed.

Lemma sql_limit_sublist {A} (l : list A) limit : sql_limit limit l `sublist_of` l.
Proof. unfold sql_limit. destruct (limit <? 0); [done | apply sublist_take]. Qed.

Lemma select_notes_by_tag_spec name d x :
  x ∈ select_notes_by_tag name d <->
  notes d !! x.1 = Some x.2
  /\ exists t, (x.1, t) ∈ note_tags d /\ tags d !! t = Some name.
Proof.
  unfold select_notes_by_tag. rewrite list_elem_of_omap. split.
  - intros ([n t] & Hin & H). simpl in H.
    destruct (tags d !! t) as [tname |] eqn:Ht; [| done].
    destruct (notes d !! n) as [r |] eqn:Hn; [| done].
    case_bool_decide; [| done]. injection H as <-. simpl. split; [done |].
    exists t. split; [by apply elem_of_elements | congruence].
  - intros (Hn & t & Hin & Ht). exists (x.1, t). split; [by apply elem_of_elements |].
    simpl. rewrite Ht, Hn, bool_decide_eq_true_2 by done. by destruct x.
Qed.

Lemma select_notes_by_tag_NoDup name d :
  tags_unique d -> NoDup (select_notes_by_tag name d).*1.
Proof.
  intros Hu. unfold select_notes_by_tag.
  assert (forall (f : Z * Z -> option (Z * note_row)) l,
            (omap f l).*1 = omap (fun p => fst <$> f p) l) as Hfst.
  { intros f l. induction l as [| p l IH]; simpl; [done |].
    destruct (f p); simpl; [f_equal |]; exact IH. }
  match goal with |- NoDup (omap ?f ?l).*1 => rewrite (Hfst f l) end.
  apply NoDup_omap_inj; [| apply NoDup_elements].
  intros [n1 t1] [n2 t2] y _ _. simpl.
  destruct (tags d !! t1) as [x1 |] eqn:H1; [| done].
  destruct (notes d !! n1); [| done].
  destruct (tags d !! t2) as [x2 |] eqn:H2; [| done].
  destruct (notes d !! n2); [| done].
  repeat case_bool_decide; try done. simpl. intros [= <-] [= <-].
  f_equal. apply (Hu t1 t2 name); congruence.
Qed.

(** The rows [list_notes] summarises, once more: no note twice. *)
Lemma list_notes_rows_NoDup d tag limit :
  tags_unique d ->
  exists rows,
    list_notes d tag limit = summarize 160 d <$> rows /\ NoDup rows.*1.
Proof.
  intros Hu. unfold list_notes. destruct (py_truthy tag); eexists; (split; [done |]).
  - eapply sublist_NoDup; [| apply fmap_sublist, sql_limit_sublist].
    rewrite merge_sort_Permutation. by apply select_notes_by_tag_NoDup.
  - eapply sublist_NoDup; [| apply fmap_sublist, sql_limit_sublist].
    rewrite merge_sort_Permutation. apply NoDup_fst_map_to_list.
Qed.

(** X7. Every summary [list_notes] returns is the note [get_note] gives for
    its id: same title, pinned flag, timestamps and tags, with the excerpt
    cut from its content; the excerpt holds no newline and is at most 161
    characters long.  With a limit that is not negative the list has at most
    that many entries, and (tag names being unique, as in every reachable
    state) no note is listed twice, with or without a tag filter. *)
Theorem list_notes_summaries (d : db) (tag : option pystr) (limit : Z) :
  (forall s, s ∈ list_notes d tag limit ->
     exists n,
       get_note d (s_id s) = Some n
       /\ s_title s = d_title n /\ s_pinned s = d_pinned n
       /\ s_created_at s = d_created_at n /\ s_updated_at s = d_updated_at n
       /\ s_tags s = d_tags n
       /\ s_excerpt s = excerpt 160 (d_content n)
       /\ (length (s_excerpt s) <= 161)%nat
       /\ NEWLINE ∉ s_excerpt s)
  /\ (0 <= limit -> (length (list_notes d tag limit) <= Z.to_nat limit)%nat)
  /\ (tags_unique d -> NoDup (s_id <$> list_notes d tag limit)).
Proof.
  split; [| split].
  - intros s Hs. destruct (list_notes_rows d tag limit) as (rows & Heq & _ & Hrows).
    rewrite Heq in Hs. apply list_elem_of_fmap in Hs as ([id r] & -> & Hx).
    apply Hrows in Hx. simpl in Hx.
    exists (note_to_dict d (id, r)). split; [apply get_note_Some; by exists r |].
    simpl. do 6 (split; [done |]). apply excerpt_bounds.
  - intros Hl. unfold list_notes.
    destruct (py_truthy tag); rewrite length_fmap, length_sql_limit;
      rewrite (proj2 (Z.ltb_ge _ _)) by done; lia.
  - intros Hu. destruct (list_notes_rows_NoDup d tag limit Hu) as (rows & -> & Hnd).
    rewrite <- list_fmap_compose.
    by replace (s_id ∘ summarize 160 d) with (@fst Z note_row).
Qed.

(** X8. The tag filter.  With a non-empty tag, every note [list_notes]
    returns carries the tag name, lowered, among its tags; and when the
    limit is negative (no limit) every note that carries it is returned. *)
Theorem list_notes_by_tag (d : db) (t : pystr) (limit : Z) :
  t <> [] ->
  (forall s, s ∈ list_notes d (Some t) limit ->
     py_lower t ∈ s_tags s /\ get_note d (s_id s) <> None)
  /\ (limit < 0 ->
      forall id n, get_note d id = Some n -> py_lower t ∈ d_tags n ->
        id ∈ s_id <$> list_notes d (Some t) limit).
Proof.
  intros Ht. unfold list_notes. destruct t as [| ch t]; [done |].
  cbn [py_truthy default]. split.
  - intros s Hs. apply list_elem_of_fmap in Hs as (x & -> & Hx).
    apply sql_limit_elem_of in Hx. rewrite merge_sort_Permutation in Hx.
    apply select_notes_by_tag_spec in Hx as (Hn & tid & Hin & Htag). simpl. split.
    + apply elem_of_get_tags_for_note. by exists tid.
    + unfold get_note. by rewrite Hn.
  - intros Hl id n Hn Hcarry. apply get_note_Some in Hn as (r & Hr & ->).
    simpl in Hcarry. apply elem_of_get_tags_for_note in Hcarry as (tid & Hin & Htag).
    apply list_elem_of_fmap. exists (summarize 160 d (id, r)). split; [done |].
    apply list_elem_of_fmap. exists (id, r). split; [done |].
    unfold sql_limit. rewrite (proj2 (Z.ltb_lt _ _)) by done.
    rewrite merge_sort_Permutation. apply select_notes_by_tag_spec. simpl.
    split; [done |]. by exists tid.
Qed.

(** ** Search, as far as the repository decides it *)


(** X9. What [search_notes] returns.  A blank query gives the empty list
    without a look at the index; an expression FTS5 rejects raises
    OperationalError.  Otherwise, in a reachable state, the result lists
    notes of the table that satisfy the expression, each at most once, with
    the row's current title and an excerpt of its current content; with a
    negative limit (no limit) every note that satisfies it is listed, and
    with another limit at most that many are. *)
Theorem search_notes_results (d : db) (query : pystr) (limit : Z) :
  (strip query = [] -> search_notes d query limit = Ok [])
  /\ (strip query <> [] -> fts5_syntax_ok (match_expr (strip query)) = false ->
      search_notes d query limit = Raise OperationalError)
  /\ (reachable d -> query_ok query ->
      exists l,
        search_notes d query limit = Ok l
        /\ NoDup (s_id <$> l)
        /\ (forall s, s ∈ l ->
              exists r, notes d !! s_id s = Some r /\ matches query r
                        /\ s = summarize 180 d (s_id s, r))
        /\ (limit < 0 ->
            forall id r, notes d !! id = Some r -> matches query r ->
              summarize 180 d (id, r) ∈ l)
        /\ (0 <= limit -> (length l <= Z.to_nat limit)%nat)).
Proof using bm25_order_perm.
  unfold search_notes. rewrite str_or_nil. split; [by intros -> |]. split.
  - intros Hne Hbad. destruct (strip query); [done |]. by rewrite Hbad.
  - intros Hd (Hne & Hok). unfold matches.
    destruct (strip query) as [| ch q] eqn:Hq; [done |]. rewrite Hok.
    destruct (select_fts_spec (match_expr (ch :: q)) d (reachable_fts_synced d Hd))
      as [Hnd Hin].
    eexists. split; [done |]. split; [| split; [| split]].
    + rewrite <- list_fmap_compose.
      replace (s_id ∘ summarize 180 d) with (@fst Z note_row) by done.
      eapply sublist_NoDup; [exact Hnd | apply fmap_sublist, sql_limit_sublist].
    + intros s Hs. apply list_elem_of_fmap in Hs as ([id r] & -> & Hx).
      apply sql_limit_elem_of, Hin in Hx as [Hr Hm]. by exists r.
    + intros Hl id r Hr Hm. apply list_elem_of_fmap. exists (id, r). split; [done |].
      unfold sql_limit. rewrite (proj2 (Z.ltb_lt _ _)) by done. by apply Hin.
    + intros Hl. rewrite length_fmap, length_sql_limit.
      rewrite (proj2 (Z.ltb_ge _ _)) by done. lia.
Qed.

(** ** Counting tags *)

(** X10. [list_tags] against [get_note].  In a reachable state [list_tags]
    has one entry per row of tags, no name twice, and the count of a name is
    the number of notes whose tags, as [get_note] reads them, hold that
    name. *)
Theorem list_tags_counts (d : db) :
  reachable d ->
  length (list_tags d) = size (tags d)
  /\ NoDup (list_tags d).*1
  /\ forall name cnt, (name, cnt) ∈ list_tags d ->
       cnt = Z.of_nat (size (filter (carries d name) (dom (notes d)))).
Proof.
  intros Hd.
  pose proof (reachable_tags_unique d Hd) as Hu.
  pose proof (reachable_fk_ok d Hd) as Hfk.
  unfold list_tags. split; [| split].
  - by rewrite (Permutation_length (merge_sort_Permutation tags_order _)),
      length_fmap, length_map_to_list.
  - rewrite merge_sort_Permutation, <- list_fmap_compose.
    apply NoDup_fmap_2_strong; [| apply NoDup_map_to_list].
    intros [i x] [j y] Hi Hj. simpl. intros <-.
    apply elem_of_map_to_list in Hi, Hj. by rewrite (Hu _ _ _ Hi Hj).
  - intros name cnt Hin. apply elem_of_list_tags in Hin as (tid & Htid & ->).
    unfold tag_count. f_equal. unfold size, set_size. simpl.
    rewrite <- (length_fmap fst (elements (filter (fun nt : Z * Z => nt.2 = tid)
                                            (note_tags d)))).
    apply Permutation_length.
    apply NoDup_Permutation.
    + apply NoDup_fmap_2_strong; [| apply NoDup_elements].
      intros [n1 t1] [n2 t2] H1 H2. simpl. intros <-.
      apply elem_of_elements, elem_of_filter in H1 as [H1 _].
      apply elem_of_elements, elem_of_filter in H2 as [H2 _]. simpl in *. congruence.
    + apply NoDup_elements.
    + intros n. rewrite list_elem_of_fmap, elem_of_elements, elem_of_filter, elem_of_dom.
      unfold carries. rewrite elem_of_get_tags_for_note. split.
      * intros ([n' t] & -> & Hp). apply elem_of_elements, elem_of_filter in Hp as [Ht Hp].
        simpl in *. subst t. split; [by exists tid |]. by destruct (Hfk _ Hp).
      * intros ((t & Hp & Ht) & _). exists (n, tid). split; [done |].
        apply elem_of_elements, elem_of_filter. split; [done |].
        by rewrite <- (Hu _ _ _ Ht Htid).
Qed.

(** ** Export *)

#[global] Instance updated_order_total : Total updated_order.
Proof. intros a b. unfold updated_order. apply (total str_le). Qed.

#[global] Instance updated_order_trans : Transitive updated_order.
Proof. intros a b c. unfold updated_order. intros ? ?. by transitivity (updated_at b.2). Qed.

(** X11. [export_all] against [get_note].  The export holds, for every note
    of the table and for nothing else, the dict [get_note] returns for it
    (the whole content and the tags), each note once, the one updated last
    first. *)
Theorem export_all_is_every_note (d : db) :
  (forall n, n ∈ export_all d <-> get_note d (d_id n) = Some n)
  /\ length (export_all d) = size (notes d)
  /\ NoDup (d_id <$> export_all d)
  /\ (forall i j a b,
       (i < j)%nat -> export_all d !! i = Some a -> export_all d !! j = Some b ->
       str_le (d_updated_at b) (d_updated_at a)).
Proof.
  unfold export_all. split; [| split; [| split]].
  - intros n. rewrite list_elem_of_fmap, get_note_Some. split.
    + intros ([id r] & -> & Hx). rewrite merge_sort_Permutation in Hx.
      apply elem_of_map_to_list in Hx. by exists r.
    + intros (r & Hr & Hn). exists (d_id n, r). split; [done |].
      rewrite merge_sort_Permutation. by apply elem_of_map_to_list.
  - by rewrite length_fmap, (Permutation_length (merge_sort_Permutation updated_order _)),
      length_map_to_list.
  - rewrite <- list_fmap_compose.
    replace (d_id ∘ note_to_dict d) with (@fst Z note_row) by done.
    rewrite merge_sort_Permutation. apply NoDup_fst_map_to_list.
  - intros i j a b Hij Hi Hj. rewrite list_lookup_fmap in Hi, Hj.
    destruct (merge_sort updated_order (map_to_list (notes d)) !! i) as [x |] eqn:Hx;
      [| done].
    destruct (merge_sort updated_order (map_to_list (notes d)) !! j) as [y |] eqn:Hy;
      [| done].
    injection Hi as <-. injection Hj as <-. simpl.
    apply (StronglySorted_lookup_lt updated_order _
             (StronglySorted_merge_sort updated_order _) i j x y Hij Hx Hy).
Qed.

(** ** The handlers *)

Lemma connect_w_lift {A} (m : M A) f :
  connect_w (lift m) f
  = match m f with
    | (t, Ok a) => (t, WOk a)
    | (t, Raise e) => (f, WRaise (StorageError e))
    end.
Proof. unfold connect_w, lift. simpl. by destruct (m f) as [t [a | e]]. Qed.

(** The note [create_note] makes, as [get_note] reads it. *)
Lemma create_note_read_back t c tg now d :
  let id := next_rowid (notes_seq d) (notes d) in
  exists d' n,
    create_note t c tg now d = (d', Ok id)
    /\ get_note d id = None
    /\ get_note d' id = Some n
    /\ d_content n = c
    /\ (forall x, x ∈ d_tags n <-> x ∈ tg).
Proof.
  intros id.
  destruct (create_note_spec t c tg now d)
    as (d' & Hrun & Hnotes & _ & _ & Hfrom & _ & Hto).
  fold id in Hrun, Hnotes, Hfrom, Hto.
  exists d'. eexists. split; [done |].
  split; [unfold get_note, id; by rewrite next_rowid_fresh |].
  split; [apply get_note_Some; eexists; split; [| done];
          by rewrite Hnotes, lookup_insert_eq |].
  cbn [note_to_dict d_content d_tags fst snd content].
  split; [apply str_or_nil |].
  intros x. rewrite elem_of_get_tags_for_note. split.
  - intros (tid & Hin & Ht). destruct (Hfrom _ Hin eq_refl) as (name & Hname & Ht').
    simpl in Ht'. congruence.
  - intros Hx. by apply Hto.
Qed.

(** The note [update_note] rewrites, as [get_note] reads it. *)
Lemma update_note_read_back note_id t c tg now d old :
  get_note d note_id = Some old ->
  exists d' n,
    update_note note_id t c tg now d = (d', Ok tt)
    /\ get_note d' note_id = Some n
    /\ d_content n = c
    /\ d_created_at n = d_created_at old
    /\ (forall x, x ∈ d_tags n <-> x ∈ tg).
Proof.
  intros Hold. apply get_note_Some in Hold as (r & Hr & ->).
  unfold update_note. unfold bind.
  set (f := fun r0 => NoteRow _ _ (pinned r0) (created_at r0) now).
  pose proof (update_notes_ok f note_id d) as Hok.
  pose proof (update_notes_notes f note_id d) as Hnotes.
  destruct (update_notes f note_id d) as [d1 r1]. simpl in Hok, Hnotes. subst r1.
  assert (notes d1 !! note_id = Some (f r)) as Hr1.
  { by rewrite Hnotes, lookup_alter, decide_True, Hr. }
  destruct (set_note_tags_full_spec note_id tg d1) as (d' & Hrun & (Hn & _) & _ & Htags & _);
    [by eexists |].
  rewrite Hrun. exists d'. eexists. split; [done |].
  split; [apply get_note_Some; exists (f r); by rewrite Hn |].
  cbn [note_to_dict d_content d_created_at d_tags fst snd content created_at f].
  split; [apply str_or_nil |]. done.
Qed.

(** X12. [create_note_action], for every form input and every state: it
    never fails, commits, and redirects (303) to the page of the note it
    created; the id was free before; the note read back has the content as
    sent and as tags exactly the names [parse_tags] makes of the tags field,
    each non-empty, lowercase and at most 32 characters long.  A database
    reached with normalised tag lists stays so. *)
Theorem create_note_action_creates (title content tags now : pystr) (f : db) :
  exists f' nid n,
    create_note_action title content tags now f
    = (f', WOk (RedirectResponse (str "/notes/" ++ py_str_int nid) 303))
    /\ get_note f nid = None
    /\ get_note f' nid = Some n
    /\ d_content n = content
    /\ (forall x, x ∈ d_tags n <-> x ∈ parse_tags tags)
    /\ Forall (fun x => x <> [] /\ py_lower x = x /\ (length x <= 32)%nat) (d_tags n)
    /\ (reachable_by tags_parsed f -> reachable_by tags_parsed f').
Proof using py_lower_ascii py_lower_take.
  unfold create_note_action. rewrite connect_w_lift.
  destruct (create_note_read_back title content (parse_tags tags) now f)
    as (f' & n & Hrun & Hfree & Hget & Hcontent & Htags).
  rewrite Hrun.
  exists f', (next_rowid (notes_seq f) (notes f)), n.
  split; [done |]. split; [done |]. split; [done |]. split; [done |].
  split; [done |]. split.
  - apply Forall_forall. intros x Hx. apply Htags in Hx.
    pose proof (parse_tags_normalized tags) as Hall. rewrite Forall_forall in Hall.
    destruct (Hall x Hx) as (? & ? & ?). done.
  - intros Hf.
    replace f' with (run_op (CreateNote title content (parse_tags tags) now) f).1
      by (simpl; by rewrite bind_ret_state, Hrun).
    apply reachable_step; [done |]. by exists tags.
Qed.

Lemma reachable_commits os f : reachable f -> reachable (commits os f).
Proof.
  revert f. induction os as [| o os IH]; intros f Hf; [done |].
  simpl. by apply IH, reachable_connect.
Qed.

Lemma update_note_missing_noop note_id t c now d :
  notes d !! note_id = None -> fk_ok d ->
  update_note note_id t c [] now d = (d, Ok tt).
Proof.
  intros Hnone Hfk. unfold update_note, bind. rewrite update_notes_missing by done.
  unfold _set_note_tags, bind, delete_from_note_tags, exec. simpl.
  unfold ret. by rewrite fk_ok_no_rows, with_note_tags_id.
Qed.

(** X13. [update_note_action], on an id that is a signed 64-bit integer and
    strings without surrogates, whatever other connections commit between
    its check and its update.  For an id that is not in notes it raises
    the 404 and the database is as before.  For a note that is found and is
    still there when the update begins, it commits the update and redirects
    (303) to the note, which then has the content sent and the tags
    [parse_tags] makes of the tags field; it does not end in an error of the
    storage layer.  The check does not hold the note: when another
    connection deletes it between the check and the update, the handler
    ends in IntegrityError with nothing of its own written if the tags
    field names a tag, and redirects to the note that is gone if it names
    none. *)
Theorem update_note_action_checks_first (between : list op) (note_id : Z)
    (title content tags now : pystr) (f : db) :
  binds_op (UpdateNote note_id title content (parse_tags tags) now) ->
  Forall binds_op between ->
  (get_note f note_id = None ->
     update_note_action between note_id title content tags now f = (f, WRaise NOT_FOUND))
  /\ (forall cur, get_note f note_id <> None ->
       get_note (commits between f) note_id = Some cur ->
       exists n,
         update_note_action between note_id title content tags now f
         = ((update_note note_id title content (parse_tags tags) now
               (commits between f)).1,
            WOk (RedirectResponse (str "/notes/" ++ py_str_int note_id) 303))
         /\ get_note (update_note note_id title content (parse_tags tags) now
                        (commits between f)).1 note_id = Some n
         /\ d_content n = content
         /\ d_created_at n = d_created_at cur
         /\ (forall x, x ∈ d_tags n <-> x ∈ parse_tags tags))
  /\ (get_note (commits between f) note_id <> None ->
      forall e,
        (update_note_action between note_id title content tags now f).2
        <> WRaise (StorageError e))
  /\ (get_note f note_id <> None ->
      get_note (commits between f) note_id = None ->
      (parse_tags tags <> [] ->
       update_note_action between note_id title content tags now f
       = (commits between f, WRaise (StorageError IntegrityError)))
      /\ (parse_tags tags = [] -> reachable f ->
          update_note_action between note_id title content tags now f
          = (commits between f,
             WOk (RedirectResponse (str "/notes/" ++ py_str_int note_id) 303)))).
Proof.
  intros _ _.
  assert (forall cur, get_note f note_id <> None ->
            get_note (commits between f) note_id = Some cur ->
            update_note_action between note_id title content tags now f
            = ((update_note note_id title content (parse_tags tags) now
                  (commits between f)).1,
               WOk (RedirectResponse (str "/notes/" ++ py_str_int note_id) 303)))
    as Hfound.
  { intros cur Hf Hcur. unfold update_note_action.
    destruct (get_note f note_id) as [old |]; [| done].
    rewrite connect_w_lift.
    destruct (update_note_read_back note_id title content (parse_tags tags) now
                (commits between f) cur Hcur) as (f' & n & Hrun & _).
    by rewrite Hrun. }
  split; [| split; [| split]].
  - intros Hnone. unfold update_note_action. by rewrite Hnone.
  - intros cur Hf Hcur.
    destruct (update_note_read_back note_id title content (parse_tags tags) now
                (commits between f) cur Hcur)
      as (f' & n & Hrun & Hget & Hcontent & Hcreated & Htags).
    exists n. rewrite (Hfound cur Hf Hcur), Hrun. done.
  - intros Hthere e.
    destruct (get_note (commits between f) note_id) as [cur |] eqn:Hcur; [| done].
    destruct (get_note f note_id) as [old |] eqn:Hold.
    + rewrite (Hfound cur) by done. done.
    + unfold update_note_action. by rewrite Hold.
  - intros Hf Hgone.
    assert (notes (commits between f) !! note_id = None) as Hnone.
    { unfold get_note in Hgone. by destruct (notes (commits between f) !! note_id). }
    split.
    + intros Htags. unfold update_note_action.
      destruct (get_note f note_id) as [old |]; [| done].
      rewrite connect_w_lift.
      destruct (parse_tags tags) as [| name rest]; [done |].
      destruct (update_note_missing_raises note_id title content name rest now
                  (commits between f) Hnone) as (d' & Hrun & _).
      by rewrite Hrun.
    + intros Htags Hreach. unfold update_note_action.
      destruct (get_note f note_id) as [old |]; [| done].
      rewrite connect_w_lift, Htags.
      rewrite (update_note_missing_noop note_id title content now (commits between f));
        [done | done |].
      by apply reachable_fk_ok, reachable_commits.
Qed.

(** X14. [pin_note_action], on an id that is a signed 64-bit integer.  For
    an id that is not in notes it raises the 404 and the database is as
    before.  For a note that exists it commits the toggle and answers with
    the note card of the note as it now is: updated_at is the time of the
    call and, the pinned column holding 0 or 1, the flag is the opposite of
    what [get_note] gave before. *)
Theorem pin_note_action_toggles (note_id : Z) (now : pystr) (f : db) :
  binds_op (TogglePin note_id now) ->
  (get_note f note_id = None -> pin_note_action note_id now f = (f, WRaise NOT_FOUND))
  /\ (forall old, get_note f note_id = Some old ->
       exists n,
         pin_note_action note_id now f
         = ((toggle_pin note_id now f).1,
            WOk (TemplateResponse (str "_note_card.html")
                   [(str "request", VRequest); (str "n", VNote n);
                    (str "compact", VBool true)]))
         /\ get_note (toggle_pin note_id now f).1 note_id = Some n
         /\ d_updated_at n = now
         /\ d_title n = d_title old /\ d_content n = d_content old
         /\ d_tags n = d_tags old
         /\ (pinned_01 f -> d_pinned n = negb (d_pinned old))).
Proof.
  intros _. split.
  - intros Hnone. unfold pin_note_action, connect_w, lift. simpl.
    assert (notes f !! note_id = None) as Hn.
    { unfold get_note in Hnone. by destruct (notes f !! note_id). }
    rewrite (toggle_pin_missing note_id now f Hn). by rewrite Hnone.
  - intros old Hold. apply get_note_Some in Hold as (r & Hr & ->).
    destruct (toggle_pin_frame note_id now f) as (Hok & Ht & Hnt).
    assert (exists r', notes (toggle_pin note_id now f).1 !! note_id = Some r'
                       /\ title r' = title r /\ content r' = content r
                       /\ updated_at r' = now
                       /\ pinned r' = (if pinned r =? 1 then 0 else 1))
      as (r' & Hr' & Htitle & Hcontent & Hupd & Hpin).
    { eexists. split;
        [by rewrite toggle_pin_notes, !lookup_alter, !decide_True, Hr |]. done. }
    exists (note_to_dict (toggle_pin note_id now f).1 (note_id, r')). split.
    + unfold pin_note_action, connect_w, lift. simpl.
      destruct (toggle_pin note_id now f) as [t [[] | e]]; [| done].
      simpl in *. unfold get_note. rewrite Hr'. done.
    + split; [apply get_note_Some; by exists r' |].
      cbn [note_to_dict d_title d_content d_pinned d_updated_at d_tags fst snd].
      do 3 (split; [done |]).
      split; [by apply get_tags_for_note_ext |].
      intros H01. rewrite Hpin. destruct (H01 _ _ Hr) as [-> | ->]; done.
Qed.

(** X15. [delete_note_action], on an id that is a signed 64-bit integer, does
    not fail and does not answer 404: whether the id is in notes or not, it
    commits [delete_note] and answers with an empty page (200) to an HTMX
    request and with a redirect to the home page (303) otherwise; afterwards
    the note is not found, and for an id that was not in notes the database
    is as before. *)
Theorem delete_note_action_always_succeeds (hx_request : option pystr) (note_id : Z)
    (f : db) :
  binds_int note_id ->
  delete_note_action hx_request note_id f
  = ((delete_note note_id f).1,
     WOk (if bool_decide (py_lower (default [] hx_request) = str "true")
          then HTMLResponse [] 200
          else RedirectResponse (str "/") 303))
  /\ get_note (delete_note_action hx_request note_id f).1 note_id = None
  /\ (notes f !! note_id = None -> (delete_note_action hx_request note_id f).1 = f).
Proof.
  intros _.
  assert (delete_note_action hx_request note_id f
          = ((delete_note note_id f).1,
             WOk (if bool_decide (py_lower (default [] hx_request) = str "true")
                  then HTMLResponse [] 200
                  else RedirectResponse (str "/") 303))) as Heq.
  { unfold delete_note_action. rewrite connect_w_lift.
    pose proof (delete_from_notes_ok note_id f) as Hok. unfold delete_note.
    destruct (delete_from_notes note_id f) as [t [[] | e]]; [| done].
    unfold _is_htmx. simpl. by case_bool_decide. }
  split; [done |]. rewrite Heq. cbn [fst]. split.
  - unfold get_note, delete_note. by rewrite delete_from_notes_notes, lookup_delete_eq.
  - intros Hnone. unfold delete_note, delete_from_notes. by rewrite Hnone.
Qed.

(** ** Settings and authentication *)

Lemma or_none_Some x v : or_none x = Some v <-> x = Some v /\ v <> [].
Proof.
  unfold or_none. destruct x as [[| c s] |]; split; intros H.
  - done.
  - by destruct H as [[= <-] ?].
  - injection H as <-. done.
  - by destruct H as [-> _].
  - done.
  - by destruct H.
Qed.

(** X16. Authentication is on only when both a user name and a password are
    configured and not empty.  When it is on, [require_auth] lets through
    exactly the requests that carry that user name and that password, and
    answers every other one with 401; when it is off (a variable missing or
    empty) it lets every request through, with or without credentials.
    [load_settings] reads the two from the environment given, or from the
    environment of the process when that one is missing or empty.  It fails
    with the RuntimeError of [Path.expanduser] when the database path cannot
    be expanded, whatever the port, and otherwise with its ValueError
    exactly when the port is not an integer. *)
Theorem authentication_is_all_or_nothing :
  (forall s c,
     require_auth s c = WOk tt <->
     auth_enabled s = false
     \/ exists u p, c = Some (u, p) /\ auth_user s = Some u /\ auth_pass s = Some p)
  /\ (forall s c e, require_auth s c = WRaise e ->
       exists detail, e = HTTPException 401 detail)
  /\ (forall s, auth_enabled s = true <->
       exists u p, auth_user s = Some u /\ u <> [] /\ auth_pass s = Some p /\ p <> [])
  /\ (forall py_int expanduser os_environ environ,
       let env := effective_env os_environ environ in
       let path_raw := default (str "./mintmemo.db") (env !! str "MINTMEMO_DB_PATH") in
       let port_raw := default (str "8000") (env !! str "MINTMEMO_PORT") in
       match load_settings py_int expanduser os_environ environ with
       | inl s =>
           expanduser path_raw = Some (db_path s)
           /\ py_int port_raw = Some (port s)
           /\ auth_user s = or_none (env !! str "MINTMEMO_AUTH_USER")
           /\ auth_pass s = or_none (env !! str "MINTMEMO_AUTH_PASS")
           /\ (auth_enabled s = true <->
               exists u p, env !! str "MINTMEMO_AUTH_USER" = Some u /\ u <> []
                           /\ env !! str "MINTMEMO_AUTH_PASS" = Some p /\ p <> [])
       | inr RuntimeError => expanduser path_raw = None
       | inr (ValueError msg) =>
           expanduser path_raw <> None
           /\ py_int port_raw = None
           /\ msg = str "Invalid MINTMEMO_PORT: " ++ port_raw
       end).
Proof.
  clear.
  assert (forall s, auth_enabled s = true <->
            exists u p, auth_user s = Some u /\ u <> [] /\ auth_pass s = Some p /\ p <> [])
    as Henabled.
  { intros s. unfold auth_enabled. split.
    - destruct (or_none (auth_user s)) as [u |] eqn:Hu; [| done].
      destruct (or_none (auth_pass s)) as [p |] eqn:Hp; [| done].
      apply or_none_Some in Hu as [? ?]. apply or_none_Some in Hp as [? ?].
      intros _. by exists u, p.
    - intros (u & p & Hu & Hune & Hp & Hpne).
      rewrite (proj2 (or_none_Some _ u)), (proj2 (or_none_Some _ p)); done. }
  split; [| split; [| split; [exact Henabled |]]].
  - intros s c. unfold require_auth.
    destruct (auth_enabled s) eqn:Hon; simpl; [| split; [by left | done]].
    destruct c as [[u p] |].
    + repeat case_bool_decide; simpl; split; try done.
      * intros [? | (u' & p' & [= <- <-] & ? & ?)]; congruence.
      * intros [? | (u' & p' & [= <- <-] & ? & ?)]; congruence.
      * intros [? | (u' & p' & [= <- <-] & ? & ?)]; congruence.
      * intros _. right. by exists u, p.
    + split; [done |]. intros [? | (u' & p' & ? & _)]; congruence.
  - intros s c e. unfold require_auth.
    destruct (negb (auth_enabled s)); [done |].
    destruct c as [[u p] |]; [| intros [= <-]; by eexists].
    destruct (_ || _); [intros [= <-]; by eexists | done].
  - intros py_int expanduser os_environ environ env path_raw port_raw.
    unfold load_settings. fold (effective_env os_environ environ). fold env.
    fold path_raw. fold port_raw.
    destruct (expanduser path_raw) as [path |] eqn:Hpath; [| done].
    destruct (py_int port_raw) as [p |] eqn:Hp; [| done].
    split; [done |]. split; [done |]. split; [done |]. split; [done |].
    rewrite Henabled. simpl. split.
    + intros (u & q & Hu & Hune & Hq & Hqne).
      apply or_none_Some in Hu as [? _]. apply or_none_Some in Hq as [? _].
      by exists u, q.
    + intros (u & q & Hu & Hune & Hq & Hqne). exists u, q.
      rewrite (proj2 (or_none_Some _ u)), (proj2 (or_none_Some _ q)); done.
Qed.

End Repo.

(** * The theorems at concrete inputs *)

Lemma ascii_lower_char_idem c : ascii_lower_char (ascii_lower_char c) = ascii_lower_char c.
Proof.
  unfold ascii_lower_char.
  destruct ((65 <=? c) && (c <=? 90))%N eqn:H; [| by rewrite H].
  apply andb_true_iff in H as [H1 H2]. apply N.leb_le in H1, H2.
  rewrite (proj2 (andb_false_iff _ _)); [done |].
  right. apply N.leb_gt. lia.
Qed.

Lemma ascii_lower_take (s : pystr) n :
  ascii_lower (take n (ascii_lower s)) = take n (ascii_lower s).
Proof.
  unfold ascii_lower. rewrite <- fmap_take, <- list_fmap_compose.
  apply list_fmap_ext. intros _ c _. apply ascii_lower_char_idem.
Qed.

Lemma index_order_perm (q : pystr) (idx : gmap Z (list (pystr * pystr))) (l : list Z) :
  index_order q idx l ≡ₚ l.
Proof. done. Qed.

(** The ASCII instance of the engine does with plain words what is assumed
    of FTS5. *)

Lemma split_join_AND ws :
  Forall is_word ws -> split SPACE (join (str " AND ") ws) = and_pieces ws.
Proof.
  induction ws as [| w ws IH]; [done |]. intros Hall.
  apply Forall_cons in Hall as [Hw Hws].
  destruct ws as [| w2 rest]; [by apply split_no_sep, is_word_no_space |].
  change (join (str " AND ") (w :: w2 :: rest))
    with (w ++ SPACE :: (str "AND" ++ SPACE :: join (str " AND ") (w2 :: rest))).
  rewrite split_app_sep by (by apply is_word_no_space).
  rewrite split_app_sep by (apply (bool_decide_unpack _); by vm_compute).
  rewrite IH by done. done.
Qed.

Lemma is_word_not_AND w : is_word w -> w <> str "AND".
Proof.
  intros Hw ->. apply is_word_Forall in Hw. by apply Forall_cons in Hw as [? _].
Qed.

Lemma is_word_lower w : is_word w -> ascii_lower w = w.
Proof.
  intros Hw. apply is_word_Forall in Hw. unfold ascii_lower.
  induction Hw as [| c w Hc Hw IH]; [done |]. simpl. f_equal; [| done].
  by destruct (lower_alnum_char c Hc) as (_ & _ & _ & _ & ->).
Qed.

Lemma is_word_alnum w : is_word w -> forallb is_alnum w = true.
Proof.
  intros Hw. apply is_word_Forall in Hw.
  induction Hw as [| c w Hc Hw IH]; [done |]. simpl. rewrite IH.
  by destruct (lower_alnum_char c Hc) as (_ & _ & _ & -> & _).
Qed.

Lemma bareword_words (ws : list pystr) (docs : list (pystr * pystr)) :
  ws <> [] -> (length ws <= 100)%nat -> Forall is_word ws ->
  bareword_syntax_ok (join (str " AND ") ws) = true
  /\ (bareword_match (join (str " AND ") ws) docs = true
      <-> forall w, w ∈ ws -> w ∈ postings ascii_tokens docs).
Proof.
  intros Hne _ Hall. unfold bareword_syntax_ok, bareword_match.
  rewrite split_join_AND by done.
  change (ascii_postings docs) with (postings ascii_tokens docs).
  clear Hne. induction Hall as [| w ws Hw Hws IH].
  { split; [done |]. split; [| by vm_compute].
    intros _ x Hx. by apply elem_of_nil in Hx. }
  destruct ws as [| w2 rest].
  - simpl. rewrite (is_word_alnum w Hw).
    rewrite filter_cons_True by (split; [by apply is_word_not_AND | by destruct Hw]).
    rewrite filter_nil. simpl. rewrite (is_word_lower w Hw), andb_true_r.
    split; [done |]. rewrite bool_decide_eq_true. split.
    + intros Hin x Hx. by apply list_elem_of_singleton in Hx as ->.
    + intros H. apply H. by left.
  - destruct IH as [IH1 IH2].
    change (and_pieces (w :: w2 :: rest))
      with (w :: str "AND" :: and_pieces (w2 :: rest)).
    split.
    + simpl forallb at 1. rewrite (is_word_alnum w Hw). exact IH1.
    + rewrite filter_cons_True by (split; [by apply is_word_not_AND | by destruct Hw]).
      rewrite filter_cons_False by (by intros [? _]).
      cbn [forallb]. rewrite (is_word_lower w Hw), andb_true_iff, IH2, bool_decide_eq_true.
      split.
      * intros [Hin Hrest] x Hx. apply elem_of_cons in Hx as [-> | Hx]; [done |].
        by apply Hrest.
      * intros H. split; [apply H; by left |]. intros x Hx. apply H. by right.
Qed.

(** A word is a unique token of a note of a database, checked by running
    the tokeniser over its notes. *)
Lemma unique_token_check (w : pystr) (d : db) (note_id : Z) :
  bool_decide (is_word w)
  && match notes d !! note_id with
     | Some r => bool_decide (w ∈ ascii_tokens (content r))
     | None => false
     end
  && forallb (fun p => bool_decide (p.1 = note_id)
                       || negb (bool_decide (w ∈ note_tokens ascii_tokens p.2)))
       (map_to_list (notes d)) = true ->
  unique_token ascii_tokens w d note_id.
Proof.
  intros H. apply andb_true_iff in H as [H Hothers].
  apply andb_true_iff in H as [Hw Hr]. apply bool_decide_eq_true in Hw.
  split; [done |]. split.
  - destruct (notes d !! note_id) as [r |]; [| done].
    apply bool_decide_eq_true in Hr. by exists r.
  - intros id r Hid Hne Hin.
    apply elem_of_map_to_list in Hid.
    rewrite forallb_forall in Hothers.
    specialize (Hothers (id, r)). simpl in Hothers.
    rewrite bool_decide_eq_false_2 in Hothers by done.
    rewrite bool_decide_eq_true_2 in Hothers by done.
    simpl in Hothers. assert (false = true) by (apply Hothers; by apply list_elem_of_In).
    done.
Qed.

Lemma reachable_hello_db : reachable hello_db.
Proof. by apply (reachable_step _ empty_db hello_op); [apply reachable_init |]. Qed.

Lemma reachable_three_notes_db : reachable three_notes_db.
Proof.
  unfold three_notes_db.
  apply reachable_toggle_pin.
  do 3 apply reachable_create_note.
  apply reachable_init.
Qed.

Lemma parse_tags_correct_witness :
  parse_tags ascii_lower (str " Rocq" ++ [FULLWIDTH_COMMA] ++ str "rocq , ,PROOF ")
  = normalize_tags_spec ascii_lower
      (str " Rocq" ++ [FULLWIDTH_COMMA] ++ str "rocq , ,PROOF ")
  /\ parse_tags ascii_lower (str " Rocq" ++ [FULLWIDTH_COMMA] ++ str "rocq , ,PROOF ")
     = [str "rocq"; str "proof"]
  /\ NoDup (parse_tags ascii_lower
              (str " Rocq" ++ [FULLWIDTH_COMMA] ++ str "rocq , ,PROOF "))
  /\ Forall (fun t => t <> [] /\ ascii_lower t = t /\ (length t <= 32)%nat)
       (parse_tags ascii_lower
          (str " Rocq" ++ [FULLWIDTH_COMMA] ++ str "rocq , ,PROOF "))
  /\ parse_tags ascii_lower (str "Study, Demo, study") = [str "study"; str "demo"].
Proof.
  destruct (parse_tags_correct ascii_lower (fun s _ => eq_refl) ascii_lower_take
              (str " Rocq" ++ [FULLWIDTH_COMMA] ++ str "rocq , ,PROOF "))
    as (Hspec & Hnodup & Hall & _ & Hexample).
  split; [exact Hspec |]. split; [by vm_compute |]. split; [exact Hnodup |].
  split; [exact Hall | exact Hexample].
Defined.

Lemma notes_hello_db :
  notes hello_db
  = {[ 1 := NoteRow (str "Hello") (str "# Hi" ++ [NEWLINE] ++ str "This is a test note.")
                    0 TS1 TS1 ]}.
Proof. by vm_compute. Qed.

Lemma search_index_consistent_witness :
  reachable three_notes_db
  /\ notes_fts three_notes_db = (fun r => [fts_doc r]) <$> notes three_notes_db
  /\ (exists l,
        search_notes bareword_syntax_ok bareword_match index_order three_notes_db
          (str "b second") 50 = Ok l
        /\ s_id <$> l = [2])
  /\ (exists l,
        search_notes bareword_syntax_ok bareword_match index_order
          (create_note (str "d") (str "alpha beta") [str "x"] TS3 three_notes_db).1
          (str "alpha") 50 = Ok l
        /\ s_id <$> l = [4])
  /\ search_notes bareword_syntax_ok bareword_match index_order
       (delete_note 4
          (create_note (str "d") (str "alpha beta") [str "x"] TS3 three_notes_db).1).1
       (str "alpha") 50 = Ok []
  /\ search_notes bareword_syntax_ok bareword_match index_order
       (update_note 2 (str "b") (str "fourth") [] TS3 three_notes_db).1
       (str "second") 50 = Ok []
  /\ (exists l,
        search_notes bareword_syntax_ok bareword_match index_order
          (update_note 2 (str "b") (str "fourth") [] TS3 three_notes_db).1
          (str "fourth") 50 = Ok l
        /\ s_id <$> l = [2]).
Proof.
  pose proof (search_index_consistent bareword_syntax_ok bareword_match index_order
                index_order_perm ascii_tokens bareword_words)
    as (Hsync & Hwords & Hcreate & Hupdate).
  pose proof reachable_three_notes_db as Hreach.
  assert (binds_int 50) as Hint by (unfold binds_int; lia).
  split; [done |]. split; [by apply Hsync |]. split; [| split; [| split; [| split]]].
  - destruct (Hwords three_notes_db [str "b"; str "second"] 50 Hreach) as (l & Hl & _);
      [done | simpl; lia | apply (bool_decide_unpack _); by vm_compute | done |].
    exists l. split; [exact Hl |].
    assert (result_ids (search_notes bareword_syntax_ok bareword_match index_order
                          three_notes_db (str "b second") 50) = [2]) as Hids
      by (by vm_compute).
    change (join [SPACE] [str "b"; str "second"]) with (str "b second") in Hl.
    by rewrite Hl in Hids.
  - destruct (Hcreate three_notes_db (str "d") (str "alpha beta") [str "x"] TS3
                (str "alpha") 50 Hreach) as (id & r & Hid & Hr & _ & Hfind);
      [apply (bool_decide_unpack _); by vm_compute | done | done |].
    vm_compute in Hid. injection Hid as <-.
    destruct Hfind as [Hfound _]; [apply unique_token_check; by vm_compute |].
    eexists. split; [exact Hfound | done].
  - destruct (Hcreate three_notes_db (str "d") (str "alpha beta") [str "x"] TS3
                (str "alpha") 50 Hreach) as (id & r & Hid & Hr & _ & Hfind);
      [apply (bool_decide_unpack _); by vm_compute | done | done |].
    vm_compute in Hid. injection Hid as <-.
    destruct Hfind as [_ Hgone]; [apply unique_token_check; by vm_compute |].
    exact Hgone.
  - destruct (Hupdate three_notes_db 2 (str "b") (str "fourth") [] TS3
                (str "second") (str "fourth") 50 Hreach) as (r & Hr & _ & Hfind);
      [apply (bool_decide_unpack _); by vm_compute | done | done
       | apply unique_token_check; by vm_compute |].
    vm_compute in Hr. injection Hr as <-.
    destruct Hfind as [Hold _];
      [apply (bool_decide_unpack _); by vm_compute
      | apply unique_token_check; by vm_compute |].
    exact Hold.
  - destruct (Hupdate three_notes_db 2 (str "b") (str "fourth") [] TS3
                (str "second") (str "fourth") 50 Hreach) as (r & Hr & _ & Hfind);
      [apply (bool_decide_unpack _); by vm_compute | done | done
       | apply unique_token_check; by vm_compute |].
    vm_compute in Hr. injection Hr as <-.
    destruct Hfind as [_ Hnew];
      [apply (bool_decide_unpack _); by vm_compute
      | apply unique_token_check; by vm_compute |].
    eexists. split; [exact Hnew | done].
Defined.

Lemma create_note_get_note_witness :
  exists id n,
    (create_note (str "  Hello ") (str "body") [str "study"; str "demo"] TS2 hello_db).2
    = Ok id
    /\ get_note
         (create_note (str "  Hello ") (str "body") [str "study"; str "demo"] TS2 hello_db).1
         id = Some n
    /\ d_title n = str "Hello"
    /\ d_content n = str "body"
    /\ d_tags n ≡ₚ [str "study"; str "demo"]
    /\ StronglySorted str_le (d_tags n).
Proof.
  destruct (create_note_get_note hello_db (str "  Hello ") (str "body")
              [str "study"; str "demo"] TS2)
    as (id & n & Hrun & Hget & _ & _ & Htitle & Hcontent & _ & _ & Hsorted & Hperm).
  exists id, n. split; [done |]. split; [done |].
  split; [by apply Htitle |]. split; [done |]. split; [| done].
  apply Hperm.
  - apply reachable_tags_unique, reachable_hello_db.
  - apply (bool_decide_unpack _). by vm_compute.
Defined.

Lemma update_note_missing_id_witness :
  notes hello_db !! 7 = None
  /\ fk_ok hello_db
  /\ update_note 7 (str "t") (str "c") [] TS2 hello_db = (hello_db, Ok tt)
  /\ (update_note 7 (str "t") (str "c") [str "study"] TS2 hello_db).2
     = Raise IntegrityError
  /\ connect (update_note 7 (str "t") (str "c") [str "study"] TS2) hello_db
     = (hello_db, Raise IntegrityError).
Proof.
  assert (notes hello_db !! 7 = None) as Hnone by (by vm_compute).
  pose proof (reachable_fk_ok hello_db reachable_hello_db) as Hfk.
  assert (binds_op (UpdateNote 7 (str "t") (str "c") [str "study"] TS2)) as Hbinds
    by (apply (bool_decide_unpack _); by vm_compute).
  destruct (update_note_missing_id hello_db 7 (str "t") (str "c") [str "study"] TS2
              Hbinds Hnone Hfk) as [Hnoop Hraise].
  destruct (Hraise ltac:(done)) as [H1 H2].
  split; [exact Hnone |]. split; [exact Hfk |]. split; [exact Hnoop |].
  split; [exact H1 | exact H2].
Defined.

Lemma update_note_missing_id_raises :
  (update_note 7 (str "t") (str "c") [str "new"] TS2 hello_db).2 = Raise IntegrityError
  /\ notes hello_db !! 7 = None
  /\ select_tag_id (str "new") hello_db = None
  /\ select_tag_id (str "new")
       (update_note 7 (str "t") (str "c") [str "new"] TS2 hello_db).1 = Some 3.
Proof. repeat split; by vm_compute. Qed.

Lemma tag_names_invariant_witness :
  reachable_by (tags_parsed ascii_lower) hello_db
  /\ (forall id name, tags hello_db !! id = Some name ->
        ascii_lower name = name /\ (length name <= 32)%nat)
  /\ tags hello_db !! 1 = Some (str "study")
  /\ tags hello_db !! 2 = Some (str "demo").
Proof.
  assert (reachable_by (tags_parsed ascii_lower) hello_db) as Hreach.
  { apply (reachable_step _ empty_db hello_op); [apply reachable_init |].
    exists (str "study, demo"). by vm_compute. }
  split; [done |]. split; [| split; by vm_compute].
  by apply (proj1 (tag_names_invariant ascii_lower (fun s _ => eq_refl) ascii_lower_take)).
Defined.

(** The repository stores a tag name as it is given. *)
Lemma tag_names_not_normalized :
  reachable (run_op (CreateNote (str "t") (str "c") [str "UPPER"; replicate 33 97%N] TS1)
               empty_db).1
  /\ tags (run_op (CreateNote (str "t") (str "c") [str "UPPER"; replicate 33 97%N] TS1)
             empty_db).1 !! 1 = Some (str "UPPER")
  /\ ascii_lower (str "UPPER") = str "upper"
  /\ tags (run_op (CreateNote (str "t") (str "c") [str "UPPER"; replicate 33 97%N] TS1)
             empty_db).1 !! 2 = Some (replicate 33 97%N)
  /\ length (replicate 33 97%N) = 33%nat.
Proof.
  split; [by apply reachable_step; [apply reachable_init |] |].
  repeat split; by vm_compute.
Qed.

Lemma connect_rolls_back_witness :
  (exists txn',
     update_note 7 (str "t") (str "c") [str "new"] TS2 hello_db
     = (txn', Raise IntegrityError)
     /\ (exists tid, tags txn' !! tid = Some (str "new") /\ tags hello_db !! tid = None))
  /\ connect (update_note 7 (str "t") (str "c") [str "new"] TS2) hello_db
     = (hello_db, Raise IntegrityError)
  /\ connect (run_op hello_op) empty_db = (hello_db, Ok tt).
Proof.
  destruct connect_rolls_back as (_ & Hok & _ & Hupd).
  destruct (Hupd hello_db 7 (str "t") (str "c") (str "new") [] TS2)
    as (txn' & Hrun & Htag & Hconn).
  - by vm_compute.
  - intros i Hi. apply (select_tag_id_None (str "new") hello_db i); [by vm_compute | done].
  - split; [by exists txn' |]. split; [done |].
    apply (Hok _ _ _ hello_db tt). by vm_compute.
Defined.

Lemma list_notes_pinned_first_witness :
  reachable three_notes_db
  /\ s_id <$> list_notes ascii_lower three_notes_db None 10 = [2; 3; 1]
  /\ s_pinned <$> list_notes ascii_lower three_notes_db None 10 = [true; false; false]
  /\ s_updated_at <$> list_notes ascii_lower three_notes_db None 10 = [TS4; TS3; TS1]
  /\ (forall si sj,
       list_notes ascii_lower three_notes_db None 10 !! 1%nat = Some si ->
       list_notes ascii_lower three_notes_db None 10 !! 2%nat = Some sj ->
       (s_pinned sj = true -> s_pinned si = true)
       /\ (s_pinned si = s_pinned sj -> str_le (s_updated_at sj) (s_updated_at si))).
Proof.
  split; [apply reachable_three_notes_db |].
  split; [by vm_compute |]. split; [by vm_compute |]. split; [by vm_compute |].
  intros si sj.
  apply (proj1 (list_notes_pinned_first ascii_lower) three_notes_db None 10 1%nat 2%nat);
    [apply reachable_three_notes_db | lia].
Defined.

Lemma excerpt_truncation_witness :
  notes long_db !! 1 = Some (NoteRow (str "Hello") (replicate 200 97%N) 0 TS1 TS1)
  /\ length (strip (replicate 200 97%N)) = 200%nat
  /\ (exists s, list_notes ascii_lower long_db None 200 = [s]
                /\ s_id s = 1
                /\ s_excerpt s = replicate 160 97%N ++ [ELLIPSIS]
                /\ length (s_excerpt s) = 161%nat)
  /\ (exists s, search_notes bareword_syntax_ok bareword_match index_order
                  long_db (str "hello") 50 = Ok [s]
                /\ s_id s = 1
                /\ s_excerpt s = replicate 180 97%N ++ [ELLIPSIS]
                /\ length (s_excerpt s) = 181%nat).
Proof.
  assert (notes long_db !! 1 = Some (NoteRow (str "Hello") (replicate 200 97%N) 0 TS1 TS1))
    as Hrow by (by vm_compute).
  assert (length (strip (replicate 200 97%N)) = 200%nat) as Hlen by (by vm_compute).
  split; [done |]. split; [done |]. split.
  - exists (summarize 160 long_db (1, NoteRow (str "Hello") (replicate 200 97%N) 0 TS1 TS1)).
    split; [by vm_compute |]. split; [done |].
    apply (excerpt_truncation ascii_lower bareword_syntax_ok bareword_match index_order
             long_db None (str "hello") 200
             (summarize 160 long_db (1, (NoteRow (str "Hello") (replicate 200 97%N) 0 TS1 TS1))) (NoteRow (str "Hello") (replicate 200 97%N) 0 TS1 TS1) Hrow Hlen).
    replace (list_notes ascii_lower long_db None 200)
      with [summarize 160 long_db (1, (NoteRow (str "Hello") (replicate 200 97%N) 0 TS1 TS1))] by (by vm_compute).
    by left.
  - exists (summarize 180 long_db (1, NoteRow (str "Hello") (replicate 200 97%N) 0 TS1 TS1)).
    split; [by vm_compute |]. split; [done |].
    apply (proj2 (excerpt_truncation ascii_lower bareword_syntax_ok bareword_match
                    index_order long_db None (str "hello") 50
                    (summarize 180 long_db (1, (NoteRow (str "Hello") (replicate 200 97%N) 0 TS1 TS1))) (NoteRow (str "Hello") (replicate 200 97%N) 0 TS1 TS1) Hrow Hlen)
             [summarize 180 long_db (1, NoteRow (str "Hello") (replicate 200 97%N) 0 TS1 TS1)]).
    + by vm_compute.
    + by left.
Defined.

(** A content of 200 characters that ends in spaces is trimmed before it is
    cut: the excerpt is the one letter. *)
Lemma excerpt_of_padded_content :
  (content <$> notes padded_db !! 1) = Some (97%N :: replicate 199 32%N)
  /\ length (97%N :: replicate 199 32%N) = 200%nat
  /\ s_excerpt <$> list_notes ascii_lower padded_db None 200 = [[97%N]]
  /\ (exists l, search_notes bareword_syntax_ok bareword_match index_order
                  padded_db (str "hello") 50 = Ok l
                /\ s_excerpt <$> l = [[97%N]]).
Proof.
  split; [by vm_compute |]. split; [by vm_compute |]. split; [by vm_compute |].
  eexists. split; by vm_compute.
Qed.

Lemma tags_are_never_deleted_witness :
  is_Some (notes hello_db !! 1)
  /\ tags hello_db !! 2 = Some (str "demo")
  /\ (forall p, p ∈ note_tags hello_db -> p.2 = 2 -> p.1 = 1)
  /\ tags (delete_note 1 hello_db).1 = tags hello_db
  /\ (str "demo", 0) ∈ list_tags (delete_note 1 hello_db).1
  /\ list_tags hello_db = [(str "demo", 1); (str "study", 1)]
  /\ list_tags (delete_note 1 hello_db).1 = [(str "demo", 0); (str "study", 0)].
Proof.
  assert (is_Some (notes hello_db !! 1)) as Hnote by (by vm_compute; eexists).
  assert (tags hello_db !! 2 = Some (str "demo")) as Htag by (by vm_compute).
  assert (forall p, p ∈ note_tags hello_db -> p.2 = 2 -> p.1 = 1) as Honly.
  { intros p Hp _. apply (reachable_fk_ok _ reachable_hello_db) in Hp as [[r Hr] _].
    rewrite notes_hello_db in Hr. destruct (decide (p.1 = 1)) as [| Hne]; [done |].
    by rewrite lookup_singleton_ne in Hr. }
  destruct (proj1 (proj2 tags_are_never_deleted) hello_db 1 2 (str "demo")
              Hnote Htag Honly) as (Hkeep & _ & Hcount).
  split; [done |]. split; [done |]. split; [done |]. split; [done |]. split; [done |].
  split; by vm_compute.
Defined.

(** The end-to-end scenario: one note titled Hello with the tags study and
    demo; both tags are counted once, a search for Hello finds the note, and
    the filter by tag folds the case of its argument. *)
Example end_to_end_scenario :
  list_tags hello_db = [(str "demo", 1); (str "study", 1)]
  /\ (exists s, search_notes bareword_syntax_ok bareword_match index_order
                  hello_db (str "Hello") 50 = Ok [s]
                /\ s_id s = 1 /\ s_title s = str "Hello"
                /\ s_excerpt s = str "# Hi This is a test note."
                /\ s_tags s = [str "demo"; str "study"])
  /\ s_id <$> list_notes ascii_lower hello_db (Some (str "Demo")) 200 = [1]
  /\ list_notes ascii_lower hello_db (Some (str "other")) 200 = []
  /\ get_note hello_db 2 = None.
Proof.
  split; [by vm_compute |]. split; [eexists; repeat split; by vm_compute |].
  repeat split; by vm_compute.
Qed.

(** ** The further properties at concrete inputs *)

Lemma update_note_get_note_witness :
  exists n,
    get_note (update_note 1 (str " New ") (str "body") [str "b"; str "a"] TS2 hello_db).1 1
    = Some n
    /\ d_title n = str "New"
    /\ d_content n = str "body"
    /\ d_created_at n = TS1
    /\ d_updated_at n = TS2
    /\ d_tags n ≡ₚ [str "b"; str "a"].
Proof.
  assert (d_created_at <$> get_note hello_db 1 = Some TS1) as Hc by (by vm_compute).
  destruct (get_note hello_db 1) as [old |] eqn:Hold; [| done]. injection Hc as Hc.
  assert (binds_op (UpdateNote 1 (str " New ") (str "body") [str "b"; str "a"] TS2))
    as Hbinds by (apply (bool_decide_unpack _); by vm_compute).
  destruct (update_note_get_note hello_db 1 (str " New ") (str "body") [str "b"; str "a"]
              TS2 old Hbinds Hold)
    as (_ & n & Hget & _ & _ & Htitle & Hcontent & _ & Hcreated & Hupdated & _ & _ & Hperm).
  exists n. split; [done |]. split; [by apply Htitle |]. split; [done |].
  split; [by rewrite Hcreated |]. split; [done |].
  apply Hperm.
  - apply reachable_tags_unique, reachable_hello_db.
  - apply (bool_decide_unpack _). by vm_compute.
Defined.

Lemma delete_note_removes_witness :
  get_note (delete_note 1 hello_db).1 1 = None
  /\ (forall t, (1, t) ∉ note_tags (delete_note 1 hello_db).1)
  /\ notes_fts (delete_note 1 hello_db).1 !! 1 = None
  /\ tags (delete_note 1 hello_db).1 = tags hello_db
  /\ delete_note 7 hello_db = (hello_db, Ok tt).
Proof.
  destruct (delete_note_removes hello_db 1) as (_ & Hgone & Hnt & Hfts & Htags & _);
    [unfold binds_int; lia |].
  destruct (delete_note_removes hello_db 7) as (_ & _ & _ & _ & _ & Hmissing & _);
    [unfold binds_int; lia |].
  split; [done |].
  split; [apply Hnt, reachable_fk_ok, reachable_hello_db |].
  split; [apply Hfts, reachable_fts_synced, reachable_hello_db |].
  split; [done |]. apply Hmissing. by vm_compute.
Defined.

Lemma toggle_pin_flips_witness :
  exists n,
    get_note (toggle_pin 1 TS2 hello_db).1 1 = Some n
    /\ d_pinned n = true
    /\ d_updated_at n = TS2
    /\ d_pinned <$> get_note (toggle_pin 1 TS3 (toggle_pin 1 TS2 hello_db).1).1 1
       = Some false.
Proof.
  assert (d_pinned <$> get_note hello_db 1 = Some false) as Hp by (by vm_compute).
  destruct (get_note hello_db 1) as [old |] eqn:Hold; [| done]. injection Hp as Hp.
  destruct (toggle_pin_flips hello_db 1 TS2 TS3) as (_ & _ & Hflip);
    [apply (bool_decide_unpack _); by vm_compute
    | apply (bool_decide_unpack _); by vm_compute |].
  destruct (Hflip old Hold) as (n & Hget & _ & _ & _ & _ & Hupd & H01).
  destruct (H01 (reachable_pinned_01 _ reachable_hello_db)) as [Hpin Hback].
  exists n. split; [done |]. split; [by rewrite Hpin, Hp |]. split; [done |].
  by rewrite Hback, Hp.
Defined.

Lemma other_notes_untouched_witness :
  get_note (run_op (DeleteNote 1) three_notes_db).1 2 = get_note three_notes_db 2
  /\ get_note (run_op (UpdateNote 3 (str "t") (str "c") [str "x"] TS3) three_notes_db).1 2
     = get_note three_notes_db 2.
Proof.
  assert (is_Some (notes three_notes_db !! 2)) as Hnote.
  { destruct (notes three_notes_db !! 2) eqn:H; [by eexists | by vm_compute in H]. }
  split.
  - apply (other_notes_untouched (DeleteNote 1) three_notes_db 2
             reachable_three_notes_db Hnote). by intros [=].
  - apply (other_notes_untouched (UpdateNote 3 (str "t") (str "c") [str "x"] TS3)
             three_notes_db 2 reachable_three_notes_db Hnote). by intros [=].
Defined.

Lemma note_ids_are_never_reused_witness :
  1 <= 3 <= notes_seq three_notes_db
  /\ exists id',
       (create_note (str "d") (str "fourth") [] TS3
          (run_ops [DeleteNote 3] three_notes_db)).2 = Ok id'
       /\ 3 < id'.
Proof.
  assert (is_Some (notes three_notes_db !! 3)) as [r Hr].
  { destruct (notes three_notes_db !! 3) eqn:H; [by eexists | by vm_compute in H]. }
  destruct note_ids_are_never_reused as [Hbelow Hlater].
  split; [exact (Hbelow _ reachable_three_notes_db 3 r Hr) |].
  destruct (Hlater three_notes_db [DeleteNote 3] (str "d") (str "fourth") [] TS3 3 r
              reachable_three_notes_db Hr) as (id' & Hid & Hlt & _).
  by exists id'.
Defined.

Lemma associations_join_rows_witness :
  (forall n t, (n, t) ∈ note_tags hello_db ->
     exists r name, notes hello_db !! n = Some r /\ tags hello_db !! t = Some name)
  /\ exists n, get_note hello_db 1 = Some n /\ NoDup (d_tags n)
               /\ d_tags n = [str "demo"; str "study"].
Proof.
  destruct (associations_join_rows hello_db reachable_hello_db) as [Hfk Htags].
  split; [exact Hfk |].
  assert (d_tags <$> get_note hello_db 1 = Some [str "demo"; str "study"]) as Ht
    by (by vm_compute).
  destruct (get_note hello_db 1) as [n |] eqn:Hn; [| done]. injection Ht as Ht.
  exists n. split; [done |]. split; [apply (Htags 1 n Hn) | done].
Defined.

Lemma list_notes_summaries_witness :
  (length (list_notes ascii_lower three_notes_db None 2) <= 2)%nat
  /\ NoDup (s_id <$> list_notes ascii_lower three_notes_db None 2)
  /\ forall s, s ∈ list_notes ascii_lower three_notes_db None 2 ->
       (length (s_excerpt s) <= 161)%nat /\ NEWLINE ∉ s_excerpt s.
Proof.
  destruct (list_notes_summaries ascii_lower three_notes_db None 2)
    as (Hsum & Hlen & Hnd).
  split; [apply Hlen; lia |].
  split; [apply Hnd, reachable_tags_unique, reachable_three_notes_db |].
  intros s Hs. destruct (Hsum s Hs) as (n & _ & _ & _ & _ & _ & _ & _ & Hl & Hnl).
  done.
Defined.

Lemma list_notes_by_tag_witness :
  (forall s, s ∈ list_notes ascii_lower hello_db (Some (str "Study")) (-1) ->
     str "study" ∈ s_tags s)
  /\ 1 ∈ s_id <$> list_notes ascii_lower hello_db (Some (str "Study")) (-1).
Proof.
  assert (str "Study" <> []) as Hne by done.
  destruct (list_notes_by_tag ascii_lower hello_db (str "Study") (-1) Hne)
    as [Hsound Hcomplete].
  split.
  - intros s Hs. by destruct (Hsound s Hs) as [Hin _].
  - assert (d_tags <$> get_note hello_db 1 = Some [str "demo"; str "study"]) as Ht
      by (by vm_compute).
    destruct (get_note hello_db 1) as [n |] eqn:Hn; [| done]. injection Ht as Ht.
    apply (Hcomplete ltac:(lia) 1 n Hn). rewrite Ht.
    apply (bool_decide_unpack _). by vm_compute.
Defined.

Lemma search_notes_results_witness :
  search_notes bareword_syntax_ok bareword_match index_order hello_db (str "  ") 50
  = Ok []
  /\ exists l,
       search_notes bareword_syntax_ok bareword_match index_order hello_db (str "note") 50
       = Ok l
       /\ NoDup (s_id <$> l)
       /\ (length l <= 50)%nat.
Proof.
  destruct (search_notes_results bareword_syntax_ok bareword_match index_order
              index_order_perm hello_db (str "  ") 50) as (Hblank & _).
  destruct (search_notes_results bareword_syntax_ok bareword_match index_order
              index_order_perm hello_db (str "note") 50) as (_ & _ & Hok).
  split; [apply Hblank; by vm_compute |].
  destruct (Hok reachable_hello_db) as (l & Hl & Hnd & _ & _ & Hlen).
  { split; by vm_compute. }
  exists l. split; [done |]. split; [done |]. apply Hlen. lia.
Defined.

Lemma list_tags_counts_witness :
  length (list_tags hello_db) = size (tags hello_db)
  /\ NoDup (list_tags hello_db).*1
  /\ list_tags hello_db = [(str "demo", 1); (str "study", 1)]
  /\ 1 = Z.of_nat (size (filter (carries hello_db (str "demo")) (dom (notes hello_db)))).
Proof.
  destruct (list_tags_counts hello_db reachable_hello_db) as (Hlen & Hnd & Hcnt).
  assert (list_tags hello_db = [(str "demo", 1); (str "study", 1)]) as Hl
    by (by vm_compute).
  split; [done |]. split; [done |]. split; [done |].
  apply Hcnt. rewrite Hl. by left.
Defined.

Lemma export_all_is_every_note_witness :
  length (export_all three_notes_db) = size (notes three_notes_db)
  /\ NoDup (d_id <$> export_all three_notes_db)
  /\ d_id <$> export_all three_notes_db = [3; 1; 2]
  /\ exists a b,
       export_all three_notes_db !! 0%nat = Some a
       /\ export_all three_notes_db !! 2%nat = Some b
       /\ str_le (d_updated_at b) (d_updated_at a).
Proof.
  destruct (export_all_is_every_note three_notes_db) as (_ & Hlen & Hnd & Hord).
  split; [done |]. split; [done |]. split; [by vm_compute |].
  destruct (export_all three_notes_db !! 0%nat) as [a |] eqn:Ha;
    [| by vm_compute in Ha].
  destruct (export_all three_notes_db !! 2%nat) as [b |] eqn:Hb;
    [| by vm_compute in Hb].
  exists a, b. split; [done |]. split; [done |].
  apply (Hord 0%nat 2%nat a b); [lia | done | done].
Defined.

Lemma create_note_action_creates_witness :
  exists f' nid n,
    create_note_action ascii_lower (str "Hi") (str "body")
      (str " Rocq" ++ [FULLWIDTH_COMMA] ++ str "rocq , ,PROOF ") TS2 hello_db
    = (f', WOk (RedirectResponse (str "/notes/" ++ py_str_int nid) 303))
    /\ get_note hello_db nid = None
    /\ get_note f' nid = Some n
    /\ d_content n = str "body"
    /\ Forall (fun x => x <> [] /\ ascii_lower x = x /\ (length x <= 32)%nat) (d_tags n)
    /\ (forall x, x ∈ d_tags n <-> x ∈ [str "rocq"; str "proof"]).
Proof.
  destruct (create_note_action_creates ascii_lower (fun s _ => eq_refl) ascii_lower_take
              (str "Hi") (str "body")
              (str " Rocq" ++ [FULLWIDTH_COMMA] ++ str "rocq , ,PROOF ") TS2 hello_db)
    as (f' & nid & n & Hrun & Hfree & Hget & Hcontent & Htags & Hall & _).
  exists f', nid, n. do 5 (split; [done |]).
  intros x. rewrite Htags.
  replace (parse_tags ascii_lower
             (str " Rocq" ++ [FULLWIDTH_COMMA] ++ str "rocq , ,PROOF "))
    with [str "rocq"; str "proof"] by (by vm_compute).
  done.
Defined.

Lemma update_note_action_checks_first_witness :
  update_note_action ascii_lower [] 7 (str "t") (str "c") (str "new") TS2 hello_db
  = (hello_db, WRaise NOT_FOUND)
  /\ (exists n,
        update_note_action ascii_lower [] 1 (str "t") (str "c") (str "new") TS2 hello_db
        = ((update_note 1 (str "t") (str "c") (parse_tags ascii_lower (str "new")) TS2
              hello_db).1,
           WOk (RedirectResponse (str "/notes/" ++ py_str_int 1) 303))
        /\ get_note (update_note 1 (str "t") (str "c") (parse_tags ascii_lower (str "new"))
                       TS2 hello_db).1 1 = Some n
        /\ d_content n = str "c")
  /\ update_note_action ascii_lower [DeleteNote 1] 1 (str "t") (str "c") (str "new") TS2
       hello_db
     = (commits [DeleteNote 1] hello_db, WRaise (StorageError IntegrityError))
  /\ update_note_action ascii_lower [DeleteNote 1] 1 (str "t") (str "c") [] TS2 hello_db
     = (commits [DeleteNote 1] hello_db,
        WOk (RedirectResponse (str "/notes/" ++ py_str_int 1) 303))
  /\ get_note (commits [DeleteNote 1] hello_db) 1 = None.
Proof.
  assert (exists cur, get_note hello_db 1 = Some cur) as [cur Hcur].
  { destruct (get_note hello_db 1) eqn:H; [by eexists | by vm_compute in H]. }
  assert (get_note hello_db 1 <> None) as Hthere by (by rewrite Hcur).
  assert (get_note (commits [DeleteNote 1] hello_db) 1 = None) as Hgone by (by vm_compute).
  split; [| split; [| split; [| split; [| done]]]].
  - destruct (update_note_action_checks_first ascii_lower [] 7 (str "t") (str "c")
                (str "new") TS2 hello_db) as (Hmissing & _);
      [apply (bool_decide_unpack _); by vm_compute
      | apply (bool_decide_unpack _); by vm_compute |].
    apply Hmissing. by vm_compute.
  - destruct (update_note_action_checks_first ascii_lower [] 1 (str "t") (str "c")
                (str "new") TS2 hello_db) as (_ & Hfound & _);
      [apply (bool_decide_unpack _); by vm_compute
      | apply (bool_decide_unpack _); by vm_compute |].
    destruct (Hfound cur Hthere Hcur) as (n & Hrun & Hget & Hcontent & _).
    exists n. split; [exact Hrun |]. by split.
  - destruct (update_note_action_checks_first ascii_lower [DeleteNote 1] 1 (str "t")
                (str "c") (str "new") TS2 hello_db) as (_ & _ & _ & Hrace);
      [apply (bool_decide_unpack _); by vm_compute
      | apply (bool_decide_unpack _); by vm_compute |].
    destruct (Hrace Hthere Hgone) as [Hraise _]. apply Hraise. by vm_compute.
  - destruct (update_note_action_checks_first ascii_lower [DeleteNote 1] 1 (str "t")
                (str "c") [] TS2 hello_db) as (_ & _ & _ & Hrace);
      [apply (bool_decide_unpack _); by vm_compute
      | apply (bool_decide_unpack _); by vm_compute |].
    destruct (Hrace Hthere Hgone) as [_ Hsilent].
    apply Hsilent; [done | apply reachable_hello_db].
Defined.

Lemma pin_note_action_toggles_witness :
  pin_note_action 7 TS2 hello_db = (hello_db, WRaise NOT_FOUND)
  /\ exists n,
       pin_note_action 1 TS2 hello_db
       = ((toggle_pin 1 TS2 hello_db).1,
          WOk (TemplateResponse (str "_note_card.html")
                 [(str "request", VRequest); (str "n", VNote n);
                  (str "compact", VBool true)]))
       /\ d_pinned n = true
       /\ d_updated_at n = TS2.
Proof.
  destruct (pin_note_action_toggles 7 TS2 hello_db) as (Hmissing & _);
    [apply (bool_decide_unpack _); by vm_compute |].
  destruct (pin_note_action_toggles 1 TS2 hello_db) as (_ & Hfound);
    [apply (bool_decide_unpack _); by vm_compute |].
  split; [apply Hmissing; by vm_compute |].
  assert (d_pinned <$> get_note hello_db 1 = Some false) as Hp by (by vm_compute).
  destruct (get_note hello_db 1) as [old |] eqn:Hold; [| done]. injection Hp as Hp.
  destruct (Hfound old eq_refl) as (n & Hrun & _ & Hupd & _ & _ & _ & Hpin).
  exists n. split; [done |]. split; [| done].
  rewrite (Hpin (reachable_pinned_01 _ reachable_hello_db)), Hp. done.
Defined.

Lemma delete_note_action_always_succeeds_witness :
  delete_note_action ascii_lower (Some (str "TRUE")) 7 hello_db
  = (hello_db, WOk (HTMLResponse [] 200))
  /\ (delete_note_action ascii_lower None 1 hello_db).2
     = WOk (RedirectResponse (str "/") 303)
  /\ get_note (delete_note_action ascii_lower None 1 hello_db).1 1 = None.
Proof.
  destruct (delete_note_action_always_succeeds ascii_lower (Some (str "TRUE")) 7 hello_db)
    as (Hrun7 & _ & Hsame); [unfold binds_int; lia |].
  destruct (delete_note_action_always_succeeds ascii_lower None 1 hello_db)
    as (Hrun1 & Hgone & _); [unfold binds_int; lia |].
  split; [| split; [by rewrite Hrun1 | done]].
  rewrite Hrun7 in Hsame |- *. cbn [fst] in Hsame.
  rewrite Hsame by (by vm_compute). f_equal.
Defined.

Lemma authentication_is_all_or_nothing_witness :
  require_auth (MkSettings (str "./mintmemo.db") (str "127.0.0.1") 8000
                  (Some (str "admin")) (Some (str "secret")))
    (Some (str "admin", str "secret")) = WOk tt
  /\ require_auth (MkSettings (str "./mintmemo.db") (str "127.0.0.1") 8000
                     (Some (str "admin")) (Some []))
       None = WOk tt
  /\ auth_enabled (MkSettings (str "./mintmemo.db") (str "127.0.0.1") 8000
                     (Some (str "admin")) (Some (str "secret"))) = true
  /\ load_settings (fun _ => None) (fun _ => None) ∅ None = inr RuntimeError
  /\ load_settings (fun _ => None) (fun p => Some p) ∅ None
     = inr (ValueError (str "Invalid MINTMEMO_PORT: 8000")).
Proof.
  destruct authentication_is_all_or_nothing as (Hgrant & _ & Hon & Hload).
  split; [| split; [| split; [| split]]].
  - apply Hgrant. right. by exists (str "admin"), (str "secret").
  - apply Hgrant. by left.
  - apply Hon. by exists (str "admin"), (str "secret").
  - specialize (Hload (fun _ => None) (fun _ => None) ∅ None). cbv zeta in Hload.
    destruct (load_settings (fun _ => None) (fun _ => None) ∅ None) as [s | [| msg]];
      [by destruct Hload | done | by destruct Hload].
  - specialize (Hload (fun _ => None) (fun p => Some p) ∅ None). cbv zeta in Hload.
    destruct (load_settings (fun _ => None) (fun p => Some p) ∅ None) as [s | [| msg]];
      [by destruct Hload as (_ & ? & _) | by simpl in Hload |].
    destruct Hload as (_ & _ & ->). f_equal.
Defined.
